(** * iconify-loader: a shallow embedding of the SVG pipeline

  The development follows the layout of the TypeScript sources:

  - [JsString]      the string primitives and the regular expressions the
                    sources use, each written as a matcher on strings;
  - [Types]         [src/types/index.ts]: values, errors, records;
  - [Runtime]       the effects: exceptions, file-system calls, console;
  - [FileReader]    [src/utils/file-reader.ts];
  - [SVGOptimizer]  [src/utils/svg-optimizer.ts];
  - [ReactGenerator], [SVGGenerator], [JSONGenerator]  [src/generators/*];
  - [IconifyLoader] [src/core/iconify-loader.ts];
  - [Spec]          the vocabulary of the properties;
  - [Scenario]      the configurations and icons they are tried on.

  The properties follow, by source file.

  Strings are sequences of 8-bit characters and stand for ASCII text: the
  case mappings and the whitespace class below are those of JavaScript
  restricted to code points below 128; a character above 127 is neither a
  letter nor whitespace.

  An options object records, for each property, whether the object has
  it, and whether with a value or with [undefined]: reading does not
  tell the two apart from a property left out, a spread does. An object
  that holds data is the list of its own properties in the order of
  [Object.keys]; an object filled by assignment carries its prototype
  as well, which an assignment to [__proto__] changes. *)

From Stdlib Require Import Ascii String NArith ZArith Floats Sorted.
From stdpp Require Import gmap strings list pretty.

Open Scope string_scope.
Open Scope list_scope.
Set Warnings "-register-all".

(* ===================================================================== *)
(** * JavaScript strings *)
(* ===================================================================== *)

Module JsString.

Definition code (c : ascii) : N := N_of_ascii c.

(** [\s] on ASCII: TAB, LF, VT, FF, CR and SPACE. *)
Definition is_space (c : ascii) : bool :=
  let n := code c in ((9 <=? n) && (n <=? 13) || (n =? 32))%N.

Definition is_upper (c : ascii) : bool :=
  let n := code c in ((65 <=? n) && (n <=? 90))%N.

Definition is_lower (c : ascii) : bool :=
  let n := code c in ((97 <=? n) && (n <=? 122))%N.

Definition is_digit (c : ascii) : bool :=
  let n := code c in ((48 <=? n) && (n <=? 57))%N.

(** [[a-zA-Z0-9]] *)
Definition is_alnum (c : ascii) : bool :=
  is_upper c || is_lower c || is_digit c.

Definition lower_char (c : ascii) : ascii :=
  if is_upper c then ascii_of_N (code c + 32) else c.

Definition upper_char (c : ascii) : ascii :=
  if is_lower c then ascii_of_N (code c - 32) else c.

Definition char_eqb (a b : ascii) : bool := Ascii.eqb a b.

(** Equality of characters under the [i] flag. *)
Definition char_eqb_ci (a b : ascii) : bool :=
  Ascii.eqb (lower_char a) (lower_char b).

Fixpoint map_chars (f : ascii -> ascii) (s : string) : string :=
  match s with
  | EmptyString => EmptyString
  | String c s' => String (f c) (map_chars f s')
  end.

Definition toLowerCase : string -> string := map_chars lower_char.
Definition toUpperCase : string -> string := map_chars upper_char.

(** [strip_prefix_by eq p s]: the rest of [s] after the prefix [p],
    characters compared with [eq]. *)
Fixpoint strip_prefix_by (eq : ascii -> ascii -> bool) (p s : string)
  : option string :=
  match p with
  | EmptyString => Some s
  | String a p' =>
      match s with
      | EmptyString => None
      | String b s' => if eq a b then strip_prefix_by eq p' s' else None
      end
  end.

Definition strip_prefix := strip_prefix_by char_eqb.
Definition strip_prefix_ci := strip_prefix_by char_eqb_ci.

(** [s.startsWith(p)] *)
Definition startsWith (p s : string) : bool :=
  match strip_prefix p s with Some _ => true | None => false end.

(** Index of the first position of [s] at which [m] accepts, with what
    [m] returned there. The position after the last character is tried
    too, as a regular expression would. *)
Fixpoint find_from {A} (m : string -> option A) (s : string)
  : option (nat * A) :=
  match m s with
  | Some a => Some (0, a)
  | None =>
      match s with
      | EmptyString => None
      | String _ s' =>
          match find_from m s' with
          | Some (i, a) => Some (S i, a)
          | None => None
          end
      end
  end.

(** [s.match(re)] for a regular expression without the [g] flag, the
    expression given by its matcher at a position. *)
Definition regex_match {A} (m : string -> option A) (s : string) : option A :=
  snd <$> find_from m s.

(** [s.indexOf(p)], and its case-insensitive counterpart. *)
Definition index_of (p s : string) : option nat :=
  fst <$> find_from (strip_prefix p) s.

Definition index_of_ci (p s : string) : option nat :=
  fst <$> find_from (strip_prefix_ci p) s.

(** [s.includes(p)] *)
Definition includes (p s : string) : bool :=
  match index_of p s with Some _ => true | None => false end.

Fixpoint index_of_char (p : ascii -> bool) (s : string) : option nat :=
  match s with
  | EmptyString => None
  | String c s' => if p c then Some 0 else S <$> index_of_char p s'
  end.

Fixpoint drop (n : nat) (s : string) : string :=
  match n, s with
  | O, _ => s
  | S _, EmptyString => EmptyString
  | S k, String _ s' => drop k s'
  end.

Fixpoint take (n : nat) (s : string) : string :=
  match n, s with
  | O, _ => EmptyString
  | S _, EmptyString => EmptyString
  | S k, String c s' => String c (take k s')
  end.

(** [s.endsWith(p)] *)
Definition endsWith (p s : string) : bool :=
  Nat.leb (String.length p) (String.length s)
  && String.eqb (drop (String.length s - String.length p) s) p.

(** The longest prefix of characters satisfying [p], and the rest. *)
Fixpoint span (p : ascii -> bool) (s : string) : string * string :=
  match s with
  | EmptyString => (EmptyString, EmptyString)
  | String c s' =>
      if p c then let '(a, b) := span p s' in (String c a, b)
      else (EmptyString, s)
  end.

Definition skip_spaces (s : string) : string := snd (span is_space s).

Definition trimStart (s : string) : string := skip_spaces s.

Fixpoint trimEnd (s : string) : string :=
  match s with
  | EmptyString => EmptyString
  | String c s' =>
      match trimEnd s' with
      | EmptyString => if is_space c then EmptyString else String c EmptyString
      | r => String c r
      end
  end.

(** [s.trim()] *)
Definition trim (s : string) : string := trimEnd (trimStart s).

(** [s.replace(re, r)] for a regular expression with the [g] flag whose
    matches are never empty. [m] gives, at a position, the length of the
    match there and the text that replaces it; [skip] counts the
    characters of the current match still to be dropped. *)
Fixpoint replace_all_from (m : string -> option (nat * string))
  (skip : nat) (s : string) : string :=
  match s with
  | EmptyString => EmptyString
  | String c s' =>
      match skip with
      | S k => replace_all_from m k s'
      | O =>
          match m s with
          | Some (n, r) => r +:+ replace_all_from m (Nat.pred n) s'
          | None => String c (replace_all_from m 0 s')
          end
      end
  end.

Definition replace_all (m : string -> option (nat * string)) (s : string)
  : string := replace_all_from m 0 s.

(** A matcher that replaces every match by the constant [r]. *)
Definition replacing (r : string) (m : string -> option nat)
  : string -> option (nat * string) :=
  fun s => (fun n => (n, r)) <$> m s.

(** [s.split(sep)] for a one-character separator. *)
Fixpoint split_on (sep : ascii) (s : string) : list string :=
  match s with
  | EmptyString => [EmptyString]
  | String c s' =>
      match split_on sep s' with
      | [] => [EmptyString]
      | w :: ws =>
          if char_eqb c sep then EmptyString :: w :: ws
          else String c w :: ws
      end
  end.

(** [xs.join(sep)] *)
Fixpoint join (sep : string) (xs : list string) : string :=
  match xs with
  | [] => EmptyString
  | [x] => x
  | x :: rest => x +:+ sep +:+ join sep rest
  end.

(** ** The regular expressions of the sources, as matchers *)

(** The double quote, which a string literal cannot hold unescaped. *)
Definition dquote_char : ascii := ascii_of_N 34.
Definition dquote : string := String dquote_char EmptyString.

(** The class [QUOTE] of a double or a single quote. *)
Definition is_quote (c : ascii) : bool :=
  char_eqb c dquote_char || char_eqb c "'"%char.

(** [/name\s*=\s*QUOTE([^QUOTE]+)QUOTE/i] at a position, [QUOTE] the class
    of the two quote characters: the captured value. *)
Definition re_attribute (name : string) (s : string) : option string :=
  s1 ← strip_prefix_ci name s;
  match skip_spaces s1 with
  | String "="%char s2 =>
      match skip_spaces s2 with
      | String q s3 =>
          if is_quote q then
            let '(v, rest) := span (fun c => negb (is_quote c)) s3 in
            match v, rest with
            | String _ _, String _ _ => Some v
            | _, _ => None
            end
          else None
      | EmptyString => None
      end
  | _ => None
  end.

(** [/\s+/] *)
Definition re_spaces (s : string) : option nat :=
  match String.length (fst (span is_space s)) with
  | O => None
  | n => Some n
  end.

(** [/>\s+</] *)
Definition re_gt_spaces_lt (s : string) : option nat :=
  match s with
  | String ">"%char s1 =>
      let '(w, rest) := span is_space s1 in
      match w, rest with
      | String _ _, String "<"%char _ => Some (String.length w + 2)
      | _, _ => None
      end
  | _ => None
  end.

(** [/></] *)
Definition re_gt_lt (s : string) : option nat :=
  match s with
  | String ">"%char (String "<"%char _) => Some 2
  | _ => None
  end.

(** Length of the prefix of [s] ending at the last character satisfying
    [p], if any. *)
Fixpoint upto_last (p : ascii -> bool) (s : string) : option nat :=
  match s with
  | EmptyString => None
  | String c s' =>
      match upto_last p s' with
      | Some n => Some (S n)
      | None => if p c then Some 1 else None
      end
  end.

Definition is_newline (c : ascii) : bool := (code c =? 10)%N.

(** [/\n\s*\n/]: the greedy [\s*] backs off to the last line feed of the
    whitespace run. *)
Definition re_blank_lines (s : string) : option nat :=
  match s with
  | String c s1 =>
      if is_newline c
      then S <$> upto_last is_newline (fst (span is_space s1))
      else None
  | EmptyString => None
  end.

Definition is_gt (c : ascii) : bool := char_eqb c ">"%char.

(** [/<!--[\s\S]*?-->/] *)
Definition re_comment (s : string) : option nat :=
  s1 ← strip_prefix "<!--" s;
  j ← index_of "-->" s1;
  Some (4 + j + 3).

(** [/<metadata[^>]*>[\s\S]*?<\/metadata>/i] *)
Definition re_metadata (s : string) : option nat :=
  s1 ← strip_prefix_ci "<metadata" s;
  j ← index_of_char is_gt s1;
  k ← index_of_ci "</metadata>" (drop (S j) s1);
  Some (9 + j + 1 + k + 11).

(** [/<\?xml[^>]*\?>/]: the greedy [[^>]*] runs to the first [>] and
    backs off by one character, which has to be [?]. *)
Definition re_xml_declaration (s : string) : option nat :=
  s1 ← strip_prefix "<?xml" s;
  j ← index_of_char is_gt s1;
  match j with
  | O => None
  | S i =>
      match drop i s1 with
      | String "?"%char _ => Some (5 + j + 1)
      | _ => None
      end
  end.

(** [/<!DOCTYPE[^>]*>/] *)
Definition re_doctype (s : string) : option nat :=
  s1 ← strip_prefix "<!DOCTYPE" s;
  j ← index_of_char is_gt s1;
  Some (9 + j + 1).

(** [/<svg([^>]*?)>/i] at a position: the captured attributes. *)
Definition re_svg_open_tag (s : string) : option string :=
  s1 ← strip_prefix_ci "<svg" s;
  j ← index_of_char is_gt s1;
  Some (take j s1).

(** [/[^a-zA-Z0-9]/] *)
Definition re_non_alnum (s : string) : option nat :=
  match s with
  | String c _ => if is_alnum c then None else Some 1
  | EmptyString => None
  end.

Definition re_char (p : ascii -> bool) (s : string) : option nat :=
  match s with
  | String c _ => if p c then Some 1 else None
  | EmptyString => None
  end.

(** ** [String.prototype.replace] with a string pattern *)

(** The replacement text of [replace] for a string pattern: [$$], [$&],
    [$`] and [$'] are expanded; with no capture groups every other
    [$]-sequence stands for itself. *)
Fixpoint expand_from (matched before after : string) (dollar : bool)
  (r : string) : string :=
  match r with
  | EmptyString => if dollar then "$" else EmptyString
  | String c r' =>
      if dollar then
        if char_eqb c "$"%char then
          String "$"%char (expand_from matched before after false r')
        else if char_eqb c "&"%char then
          matched +:+ expand_from matched before after false r'
        else if char_eqb c "`"%char then
          before +:+ expand_from matched before after false r'
        else if char_eqb c "'"%char then
          after +:+ expand_from matched before after false r'
        else
          String "$"%char
            (String c (expand_from matched before after false r'))
      else if char_eqb c "$"%char then
        expand_from matched before after true r'
      else String c (expand_from matched before after false r')
  end.

Definition expand_replacement (matched before after r : string) : string :=
  expand_from matched before after false r.

(** [s.replace(pat, r)] for strings [pat] and [r]: the first occurrence
    only. *)
Definition replace_first (pat r s : string) : string :=
  match index_of pat s with
  | Some i =>
      let before := take i s in
      let after := drop (i + String.length pat) s in
      before +:+ expand_replacement pat before after r +:+ after
  | None => s
  end.

End JsString.

(* ===================================================================== *)
(** * Types ([src/types/index.ts]) *)
(* ===================================================================== *)

Module Types.

(** JavaScript values, as far as the configuration and the JSON output
    hold them. Numbers are IEEE 754 doubles. *)
Inductive JsVal : Type :=
| JUndefined
| JNull
| JBool (b : bool)
| JNum (x : float)
| JStr (s : string)
| JArr (xs : list JsVal)
| JObj (fields : list (string * JsVal)).

Definition num_of_nat (n : nat) : float :=
  PrimFloat.of_uint63 (Uint63.of_Z (Z.of_nat n)).

(** [ToBoolean] *)
Definition truthy (v : JsVal) : bool :=
  match v with
  | JUndefined | JNull => false
  | JBool b => b
  | JNum x => negb (PrimFloat.eqb x 0 || negb (PrimFloat.eqb x x))
  | JStr s => negb (String.eqb s "")
  | JArr _ | JObj _ => true
  end.

(** [a || b] *)
Definition js_or (a b : JsVal) : JsVal := if truthy a then a else b.

(** [v !== false] *)
Definition is_not_false (v : JsVal) : bool :=
  match v with JBool false => false | _ => true end.

(** An object that holds data is given by its own enumerable properties
    in the order in which [Object.keys] lists them: no key twice, the
    keys that are array indices first, in ascending order, then the
    other keys in the order in which they were created. Its prototype
    is [Object.prototype]. *)

(** [obj.k] for an own property; [undefined] when there is none. *)
Fixpoint obj_get (k : string) (fields : list (string * JsVal)) : JsVal :=
  match fields with
  | [] => JUndefined
  | (k', v) :: rest => if String.eqb k k' then v else obj_get k rest
  end.

Definition has_key (k : string) (fields : list (string * JsVal)) : bool :=
  existsb (fun kv => String.eqb k (fst kv)) fields.

(** The array index a key spells, if it spells one: a decimal numeral
    without a leading zero, below [2^32 - 1]. *)
Fixpoint decimal_value (acc : N) (s : string) : option N :=
  match s with
  | EmptyString => Some acc
  | String c s' =>
      if JsString.is_digit c
      then decimal_value (10 * acc + (JsString.code c - 48)) s'
      else None
  end.

Definition array_index (k : string) : option N :=
  match k with
  | EmptyString => None
  | String c rest =>
      if Ascii.eqb c "0" && negb (String.eqb rest "") then None
      else
        match decimal_value 0 k with
        | Some n => if (n <? 4294967295)%N then Some n else None
        | None => None
        end
  end.

(** A new key [k] is listed before the key [k']. *)
Definition listed_before (k k' : string) : bool :=
  match array_index k, array_index k' with
  | Some i, Some j => (i <? j)%N
  | Some _, None => true
  | None, _ => false
  end.

(** The value of a property the object has is replaced where it stands;
    a new property takes its place in the order of the keys. *)
Fixpoint obj_update (k : string) (v : JsVal) (fields : list (string * JsVal))
  : list (string * JsVal) :=
  match fields with
  | [] => []
  | (k', v') :: rest =>
      if String.eqb k k' then (k', v) :: rest
      else (k', v') :: obj_update k v rest
  end.

Fixpoint obj_insert (k : string) (v : JsVal) (fields : list (string * JsVal))
  : list (string * JsVal) :=
  match fields with
  | [] => [(k, v)]
  | (k', v') :: rest =>
      if listed_before k k' then (k, v) :: fields
      else (k', v') :: obj_insert k v rest
  end.

(** [CreateDataProperty]: what an object literal and a spread do with
    each property, whatever its key. *)
Definition obj_define (k : string) (v : JsVal)
  (fields : list (string * JsVal)) : list (string * JsVal) :=
  if has_key k fields then obj_update k v fields else obj_insert k v fields.

(** An object that the code fills by assignment: its own properties and
    its prototype, which is [Object.prototype] until an assignment to
    [__proto__] replaces it by [null] or by an object that holds data. *)
Inductive Prototype : Type :=
| ObjectPrototype
| NullPrototype
| DataPrototype (p : JsVal).

Record PlainObject := {
  prototype : Prototype;
  own : list (string * JsVal)
}.

(** [{}] *)
Definition new_object : PlainObject :=
  {| prototype := ObjectPrototype; own := [] |}.

(** An assignment to [__proto__] that finds no own property of that name
    looks for one along the prototypes. It ends at the accessor of
    [Object.prototype], unless the chain stops at [null] or an object on
    it has a property of its own with that name. *)
Definition inherits_proto_accessor (p : Prototype) : bool :=
  match p with
  | ObjectPrototype => true
  | NullPrototype => false
  | DataPrototype (JObj fields) => negb (has_key "__proto__" fields)
  | DataPrototype _ => true
  end.

(** [obj[k] = v]. The setter of [__proto__] makes an object or [null]
    the prototype and ignores any other value; the own properties stay
    as they are. Every other assignment creates or updates an own
    property. *)
Definition obj_set (k : string) (v : JsVal) (o : PlainObject) : PlainObject :=
  if String.eqb k "__proto__" && negb (has_key k (own o))
     && inherits_proto_accessor (prototype o)
  then
    match v with
    | JObj _ | JArr _ => {| prototype := DataPrototype v; own := own o |}
    | JNull => {| prototype := NullPrototype; own := own o |}
    | _ => o
    end
  else {| prototype := prototype o; own := obj_define k v (own o) |}.

(** The error classes: [Error] itself and the three subclasses of
    [IconifyLoaderError] that the sources throw. *)
Inductive ErrorClass : Type :=
| PlainError
| SVGProcessingError
| FileSystemError
| ValidationError.

Global Instance ErrorClass_eq_dec : EqDecision ErrorClass.
Proof. solve_decision. Defined.

(** An error object: its class, its [message], and its [details] payload
    split into the [originalError] entry and the other entries. *)
Inductive JsError : Type :=
| MkError (cls : ErrorClass) (message : string)
    (originalError : option JsError) (details : list (string * JsVal)).

Definition error_class (e : JsError) : ErrorClass :=
  match e with MkError c _ _ _ => c end.
Definition message (e : JsError) : string :=
  match e with MkError _ m _ _ => m end.
Definition originalError (e : JsError) : option JsError :=
  match e with MkError _ _ o _ => o end.
Definition details (e : JsError) : list (string * JsVal) :=
  match e with MkError _ _ _ d => d end.

(** The [code] each class passes to [IconifyLoaderError]. *)
Definition error_code (c : ErrorClass) : option string :=
  match c with
  | PlainError => None
  | SVGProcessingError => Some "SVG_PROCESSING_ERROR"
  | FileSystemError => Some "FILESYSTEM_ERROR"
  | ValidationError => Some "VALIDATION_ERROR"
  end.

Definition error_name (c : ErrorClass) : string :=
  match c with
  | PlainError => "Error"
  | SVGProcessingError => "SVGProcessingError"
  | FileSystemError => "FileSystemError"
  | ValidationError => "ValidationError"
  end.

(** [e instanceof C] for one of the three leaf classes. *)
Definition instanceof (e : JsError) (c : ErrorClass) : bool :=
  bool_decide (error_class e = c).

Record SVGMetadata := {
  name : string;
  originalName : string;
  path : string;
  size : nat;
  width : JsVal;
  height : JsVal;
  viewBox : JsVal;
  fill : JsVal;
  stroke : JsVal;
  strokeWidth : JsVal;
  className : JsVal
}.

Record Plugin := {
  plugin_name : string;
  plugin_params : option (list (string * JsVal))
}.

(** A property of an options object: the object may lack it, have it
    with the value [undefined], or have it with a value. Reading the
    property gives [undefined] in the first two cases, here [None]; a
    spread copies the property in the last two. *)
Inductive Property (A : Type) : Type :=
| Absent
| Undefined
| Value (a : A).

Arguments Absent {A}.
Arguments Undefined {A}.
Arguments Value {A} a.

(** [o.p] *)
Definition read_property {A} (p : Property A) : option A :=
  match p with
  | Value a => Some a
  | Absent | Undefined => None
  end.

(** A property given with a value, or left out. *)
Definition property_of {A} (v : option A) : Property A :=
  match v with
  | Some a => Value a
  | None => Absent
  end.

(** [{ ...a, ...b }] for one property: [b]'s if [b] has it, even with
    the value [undefined]. *)
Definition spread_property {A} (a b : Property A) : Property A :=
  match b with
  | Absent => a
  | _ => b
  end.

(** [SVGOOptions]: the [plugins] array, the two numeric properties, and
    every other property by its key. In [settings] a key bound to
    [JUndefined] is a property present with the value [undefined]. *)
Record SVGOOptions := {
  plugins_property : Property (list Plugin);
  floatPrecision_property : Property float;
  transformPrecision_property : Property float;
  settings : gmap string JsVal
}.

(** [options.plugins], [options.floatPrecision] and
    [options.transformPrecision] *)
Definition plugins (options : SVGOOptions) : option (list Plugin) :=
  read_property (plugins_property options).
Definition floatPrecision (options : SVGOOptions) : option float :=
  read_property (floatPrecision_property options).
Definition transformPrecision (options : SVGOOptions) : option float :=
  read_property (transformPrecision_property options).

(** [IconifyLoaderOptions] as a caller can pass it: the two required
    properties may be missing, and [format] may be any string. *)
Record IconifyLoaderOptions := {
  inputDir_property : Property string;
  outputDir_property : Property string;
  format_property : Property string;
  svgoOptions_property : Property SVGOOptions;
  optimize_property : Property bool;
  generateIndex_property : Property bool;
  typescript_property : Property bool;
  reactComponentName_property : Property (string -> string);
  svgProps_property : Property (list (string * JsVal));
  fileNameFormatter_property : Property (string -> string);
  includeSubdirs_property : Property bool;
  ignorePatterns_property : Property (list string);
  verbose_property : Property bool
}.

(** [options.inputDir] and the like: what reading each property gives. *)
Definition inputDir (options : IconifyLoaderOptions) : option string :=
  read_property (inputDir_property options).
Definition outputDir (options : IconifyLoaderOptions) : option string :=
  read_property (outputDir_property options).
Definition format (options : IconifyLoaderOptions) : option string :=
  read_property (format_property options).
Definition svgoOptions (options : IconifyLoaderOptions)
  : option SVGOOptions :=
  read_property (svgoOptions_property options).
Definition optimize (options : IconifyLoaderOptions) : option bool :=
  read_property (optimize_property options).
Definition generateIndex (options : IconifyLoaderOptions) : option bool :=
  read_property (generateIndex_property options).
Definition typescript (options : IconifyLoaderOptions) : option bool :=
  read_property (typescript_property options).
Definition reactComponentName (options : IconifyLoaderOptions)
  : option (string -> string) :=
  read_property (reactComponentName_property options).
Definition svgProps (options : IconifyLoaderOptions)
  : option (list (string * JsVal)) :=
  read_property (svgProps_property options).
Definition fileNameFormatter (options : IconifyLoaderOptions)
  : option (string -> string) :=
  read_property (fileNameFormatter_property options).
Definition includeSubdirs (options : IconifyLoaderOptions) : option bool :=
  read_property (includeSubdirs_property options).
Definition ignorePatterns (options : IconifyLoaderOptions)
  : option (list string) :=
  read_property (ignorePatterns_property options).
Definition verbose (options : IconifyLoaderOptions) : option bool :=
  read_property (verbose_property options).

(** Truthiness of an optional boolean and of an optional string. *)
Definition flag (b : option bool) : bool := default false b.

Definition nonempty (s : option string) : bool :=
  match s with
  | Some s => negb (String.eqb s "")
  | None => false
  end.

Record ProcessedSVG := {
  metadata : SVGMetadata;
  content : string;
  optimized : option bool
}.

Record GenerationResult := {
  success : bool;
  files : list string;
  errors : list string;
  warnings : list string
}.

Record ReactComponentTemplate := {
  componentName : string;
  props : list string;
  svgContent : string;
  template_typescript : bool
}.

Record FileInfo := {
  file_path : string;
  file_name : string;
  file_extension : string;
  file_content : string
}.

End Types.

(* ===================================================================== *)
(** * Runtime: exceptions, the file system, the console *)
(* ===================================================================== *)

Module Runtime.
Import Types.

Inductive Result (A : Type) : Type :=
| Ok (a : A)
| Throw (e : JsError).
Arguments Ok {A} a.
Arguments Throw {A} e.

Global Instance Result_ret : MRet Result := fun A a => Ok a.

Global Instance Result_bind : MBind Result := fun A B f r =>
  match r with
  | Ok a => f a
  | Throw e => Throw e
  end.

(** The file-system calls the pipeline makes: the walk of the input
    directory, [fs.mkdir] with [recursive: true], and [fs.writeFile]. *)
Inductive FsCall : Type :=
| ReadTree (dir : string)
| Mkdir (dir : string)
| WriteFile (file data : string).

Record FsEvent := { call : FsCall; failure : option JsError }.

Inductive ConsoleCall : Type :=
| ConsoleLog (msg : string)
| ConsoleWarn (msg : string)
| ConsoleError (msg : string).

(** What a run has done so far, oldest first: the file-system calls with
    their outcome, the console calls, and the contents handed to the
    optimization engine. *)
Record World := {
  fs_trace : list FsEvent;
  console : list ConsoleCall;
  engine_calls : list string
}.

Definition initial_world : World :=
  {| fs_trace := []; console := []; engine_calls := [] |}.

(** The configuration the optimization engine receives is an object with
    the keys of [SVGOOptions]. *)
Definition SVGOConfig := SVGOOptions.

(** What a call of the engine's [optimize] does: it returns an object
    with [data] and possibly [error], or it throws. *)
Inductive EngineOutcome : Type :=
| EngineReturns (data : string) (error : option string)
| EngineThrows (e : JsError).

(** Everything outside the repository: Node's [path] and [fs], the
    optimization engine, the directory contents, and the built-ins whose
    output is text. [fs_failure] sees the calls made so far. *)
Record Platform := {
  path_join : string -> string -> string;
  fs_failure : list FsEvent -> FsCall -> option JsError;
  directory_files : string -> bool -> list string -> Result (list FileInfo);
  svgo_optimize : string -> SVGOConfig -> EngineOutcome;
  JSON_stringify : JsVal -> nat -> string;
  Number_toString : float -> string;
  Date_toISOString : string;
  package_version : string
}.

(** Computations: state passing over [World], with exceptions. *)
Definition M (A : Type) : Type := World -> Result A * World.

Global Instance M_ret : MRet M := fun A a w => (Ok a, w).

Global Instance M_bind : MBind M := fun A B f m w =>
  match m w with
  | (Ok a, w') => f a w'
  | (Throw e, w') => (Throw e, w')
  end.

Definition throw {A} (e : JsError) : M A := fun w => (Throw e, w).

(** [try { m } catch (error) { h error }] *)
Definition try_catch {A} (m : M A) (h : JsError -> M A) : M A := fun w =>
  match m w with
  | (Ok a, w') => (Ok a, w')
  | (Throw e, w') => h e w'
  end.

Definition lift {A} (r : Result A) : M A := fun w => (r, w).

Definition record_fs (ev : FsEvent) (w : World) : World :=
  {| fs_trace := fs_trace w ++ [ev];
     console := console w;
     engine_calls := engine_calls w |}.

Definition record_console (c : ConsoleCall) (w : World) : World :=
  {| fs_trace := fs_trace w;
     console := console w ++ [c];
     engine_calls := engine_calls w |}.

Definition record_engine (input : string) (w : World) : World :=
  {| fs_trace := fs_trace w;
     console := console w;
     engine_calls := engine_calls w ++ [input] |}.

Definition fs_call (P : Platform) (c : FsCall) : M unit := fun w =>
  let outcome := fs_failure P (fs_trace w) c in
  let w' := record_fs {| call := c; failure := outcome |} w in
  match outcome with
  | Some e => (Throw e, w')
  | None => (Ok (), w')
  end.

Definition console_call (c : ConsoleCall) : M unit := fun w =>
  (Ok (), record_console c w).

(** A call of the engine's [optimize]. *)
Definition engine_call (P : Platform) (input : string) (config : SVGOConfig)
  : M EngineOutcome := fun w =>
  (Ok (svgo_optimize P input config), record_engine input w).

(** [if (verbose) console.*(...)] *)
Definition when (b : bool) (m : M unit) : M unit :=
  if b then m else mret ().

(** The files a run has written: the path and data of each successful
    [fs.writeFile], oldest first. *)
Definition written (w : World) : list (string * string) :=
  omap (fun ev =>
          match call ev, failure ev with
          | WriteFile f d, None => Some (f, d)
          | _, _ => None
          end) (fs_trace w).

(** The paths [fs.writeFile] was called on, whatever the outcome. *)
Definition attempted (w : World) : list string :=
  omap (fun ev =>
          match call ev with
          | WriteFile f _ => Some f
          | _ => None
          end) (fs_trace w).

(** [error instanceof Error ? error.message : 'Unknown error']: every
    thrown value of the model is an [Error]. *)
Definition message_of (e : JsError) : string := message e.

End Runtime.

(* ===================================================================== *)
(** * FileReader ([src/utils/file-reader.ts]) *)
(* ===================================================================== *)

Module FileReader.
Import JsString Types Runtime.

Definition SVG_EXTENSIONS : list string := [".svg"].

(** [readSVGFiles]: the recursive listing is the platform's
    ([directory_files] stands for [readDirectoryRecursive] filling
    [files]); the filter on the extension and the wrapping of a failure
    are the method's own. *)
Definition readSVGFiles (P : Platform) (inputDir : string)
  (includeSubdirs : option bool) (ignorePatterns : option (list string))
  : M (list FileInfo) := fun w =>
  let w' := record_fs
              {| call := ReadTree inputDir;
                 failure :=
                   match directory_files P inputDir
                           (default true includeSubdirs)
                           (default [] ignorePatterns) with
                   | Ok _ => None
                   | Throw e => Some e
                   end |} w in
  match directory_files P inputDir (default true includeSubdirs)
          (default [] ignorePatterns) with
  | Ok files =>
      (Ok (filter (fun f => file_extension f ∈ SVG_EXTENSIONS) files), w')
  | Throw e =>
      (Throw (MkError FileSystemError
                ("Failed to read SVG files from directory: " +:+ inputDir)
                (Some e) [("inputDir", JStr inputDir)]), w')
  end.

(** [validateSVGContent] *)
Definition validateSVGContent (content fileName : string) : Result unit :=
  if String.eqb content "" then
    Throw (MkError ValidationError
             ("Invalid SVG content in file: " +:+ fileName) None
             [("fileName", JStr fileName);
              ("contentLength", JNum (num_of_nat 0))])
  else
    let trimmedContent := trim content in
    if negb (startsWith "<svg" trimmedContent)
       && negb (includes "<svg" trimmedContent) then
      Throw (MkError SVGProcessingError
               ("File does not appear to be a valid SVG: " +:+ fileName) None
               [("fileName", JStr fileName);
                ("contentPreview", JStr (take 100 trimmedContent))])
    else if negb (includes "</svg>" trimmedContent)
            && negb (endsWith "/>" trimmedContent) then
      Throw (MkError SVGProcessingError
               ("SVG file appears to be malformed: " +:+ fileName) None
               [("fileName", JStr fileName);
                ("contentPreview", JStr (take 100 trimmedContent))])
    else Ok ().

(** The object [extractSVGAttributes] returns: a key is present exactly
    when its scan matched. *)
Record SVGAttributes := {
  attr_viewBox : option string;
  attr_width : option string;
  attr_height : option string;
  attr_fill : option string;
  attr_stroke : option string
}.

(** [extractSVGAttributes] *)
Definition extractSVGAttributes (content : string) : SVGAttributes :=
  {| attr_viewBox := regex_match (re_attribute "viewBox") content;
     attr_width := regex_match (re_attribute "width") content;
     attr_height := regex_match (re_attribute "height") content;
     attr_fill := regex_match (re_attribute "fill") content;
     attr_stroke := regex_match (re_attribute "stroke") content |}.

(** ** The walk of the input directory

    [fs.readdir] with [withFileTypes] lists a directory as entries: a
    file, a directory, or neither. An entry carries what reading it
    gives: a file its content, or the error of [fs.stat] or
    [fs.readFile]; a directory its own listing, or the error of
    [fs.readdir]. *)
Inductive Entry : Type :=
| FileEntry (entryName : string) (read : Result string)
| DirectoryEntry (entryName : string) (listing : Result (list Entry))
| OtherEntry (entryName : string).

(** [entry.name] *)
Definition entry_name (entry : Entry) : string :=
  match entry with
  | FileEntry n _ | DirectoryEntry n _ | OtherEntry n => n
  end.

(** What the walk uses of Node beside [path.join]: [path.extname],
    [path.basename], and [new RegExp(pattern).test(s)], which throws when
    [pattern] is not a regular expression. *)
Record Library := {
  path_extname : string -> string;
  path_basename : string -> string -> string;
  RegExp_test : string -> string -> Result bool
}.

(** [shouldIgnorePath]: [some] stops at the first pattern that matches. *)
Fixpoint shouldIgnorePath (L : Library) (filePath : string)
  (ignorePatterns : list string) : Result bool :=
  match ignorePatterns with
  | [] => Ok false
  | pattern :: rest =>
      matched ← RegExp_test L pattern filePath;
      if (matched : bool) then Ok true else shouldIgnorePath L filePath rest
  end.

(** [getFileInfo]; [read] is what [fs.stat] and then [fs.readFile] give
    for [filePath]. *)
Definition getFileInfo (L : Library) (filePath : string)
  (read : Result string) : Result FileInfo :=
  let extension := toLowerCase (path_extname L filePath) in
  let name := path_basename L filePath extension in
  match read with
  | Ok content =>
      Ok {| file_path := filePath; file_name := name;
            file_extension := extension; file_content := content |}
  | Throw error =>
      Throw (MkError FileSystemError
               ("Failed to get file info: " +:+ filePath) (Some error)
               [("filePath", JStr filePath)])
  end.

(** The handler of [readDirectoryRecursive]. *)
Definition directory_failure (dirPath : string)
  (r : Result (list FileInfo)) : Result (list FileInfo) :=
  match r with
  | Ok files => Ok files
  | Throw error =>
      Throw (MkError FileSystemError
               ("Failed to read directory: " +:+ dirPath) (Some error)
               [("dirPath", JStr dirPath)])
  end.

(** [for (const entry of entries) body], [files] threaded through. *)
Definition for_entries
  (body : Entry -> list FileInfo -> Result (list FileInfo))
  : list Entry -> list FileInfo -> Result (list FileInfo) :=
  fix loop entries files :=
    match entries with
    | [] => Ok files
    | entry :: rest =>
        match body entry files with
        | Ok files => loop rest files
        | Throw error => Throw error
        end
    end.

(** The body of the loop of [readDirectoryRecursive] for one entry of
    [dirPath]; the case of a directory is the recursive call, with its
    own [try]. [files] is the array the walk fills, returned as it is
    after the entry. *)
Fixpoint read_entry (P : Platform) (L : Library) (includeSubdirs : bool)
  (ignorePatterns : list string) (dirPath : string) (entry : Entry)
  (files : list FileInfo) {struct entry} : Result (list FileInfo) :=
  let fullPath := path_join P dirPath (entry_name entry) in
  match shouldIgnorePath L fullPath ignorePatterns with
  | Throw error => Throw error
  | Ok true => Ok files
  | Ok false =>
      match entry with
      | DirectoryEntry _ listing =>
          if includeSubdirs then
            directory_failure fullPath
              match listing with
              | Ok entries =>
                  for_entries
                    (read_entry P L includeSubdirs ignorePatterns fullPath)
                    entries files
              | Throw error => Throw error
              end
          else Ok files
      | FileEntry _ read =>
          match getFileInfo L fullPath read with
          | Ok fileInfo => Ok (files ++ [fileInfo])
          | Throw error => Throw error
          end
      | OtherEntry _ => Ok files
      end
  end.

(** [readDirectoryRecursive]; [listing] is what [fs.readdir] gives for
    [dirPath]. *)
Definition readDirectoryRecursive (P : Platform) (L : Library)
  (dirPath : string) (listing : Result (list Entry)) (files : list FileInfo)
  (includeSubdirs : bool) (ignorePatterns : list string)
  : Result (list FileInfo) :=
  directory_failure dirPath
    match listing with
    | Ok entries =>
        for_entries (read_entry P L includeSubdirs ignorePatterns dirPath)
          entries files
    | Throw error => Throw error
    end.

(** A platform whose input directory lists as [root]: its
    [directory_files] is the walk from there, into an empty array. *)
Definition walking (P : Platform) (L : Library) (root : Result (list Entry))
  : Platform :=
  {| path_join := path_join P;
     fs_failure := fs_failure P;
     directory_files := fun dirPath includeSubdirs ignorePatterns =>
       readDirectoryRecursive P L dirPath root [] includeSubdirs
         ignorePatterns;
     svgo_optimize := svgo_optimize P;
     JSON_stringify := JSON_stringify P;
     Number_toString := Number_toString P;
     Date_toISOString := Date_toISOString P;
     package_version := package_version P |}.

End FileReader.

(* ===================================================================== *)
(** * SVGOptimizer ([src/utils/svg-optimizer.ts]) *)
(* ===================================================================== *)

Module SVGOptimizer.
Import JsString Types Runtime.

Definition defaultOptions : SVGOOptions :=
  {| plugins_property := Absent;
     floatPrecision_property := Value 2%float;
     transformPrecision_property := Value 5%float;
     settings := list_to_map
       [ ("multipass", JBool true);
         ("makePathsRelative", JBool true);
         ("convertShapeToPath", JBool true);
         ("mergePaths", JBool true);
         ("convertTransform", JBool true);
         ("removeOffCanvasPaths", JBool true);
         ("removeDimensions", JBool false);
         ("removeAttrs", JBool false);
         ("removeElementsByAttr", JBool false);
         ("addClassesToSVG", JBool false);
         ("removeTitle", JBool true);
         ("removeDesc", JBool true);
         ("removeUselessStrokeAndFill", JBool true);
         ("removeUnusedNS", JBool true);
         ("cleanupListOfValues", JBool true);
         ("sortAttrs", JBool true);
         ("removeDoctype", JBool true);
         ("removeXMLProcInst", JBool true);
         ("removeComments", JBool true);
         ("removeMetadata", JBool true);
         ("removeEditorsNSData", JBool true);
         ("removeEmptyAttrs", JBool true);
         ("removeHiddenElems", JBool true);
         ("removeEmptyText", JBool true);
         ("removeEmptyContainers", JBool true);
         ("minifyStyles", JBool true);
         ("convertStyleToAttrs", JBool true);
         ("convertColors", JBool true);
         ("convertPathData", JBool true);
         ("convertEllipseToCircle", JBool true);
         ("convertUseToSymbol", JBool false);
         ("convertSymbolToPath", JBool false);
         ("convertPolygonToPath", JBool false);
         ("moveGroupAttrsToElems", JBool true);
         ("moveElemsAttrsToGroup", JBool true);
         ("collapseGroups", JBool true);
         ("convertGToUse", JBool false);
         ("reusePaths", JBool false) ] |}.

(** [{ ...a, ...b }] on [SVGOOptions] *)
Definition spread (a b : SVGOOptions) : SVGOOptions :=
  {| plugins_property :=
       spread_property (plugins_property a) (plugins_property b);
     floatPrecision_property :=
       spread_property (floatPrecision_property a)
         (floatPrecision_property b);
     transformPrecision_property :=
       spread_property (transformPrecision_property a)
         (transformPrecision_property b);
     settings := settings b ∪ settings a |}.

(** [o.plugins = ps] *)
Definition with_plugins (ps : list Plugin) (o : SVGOOptions) : SVGOOptions :=
  {| plugins_property := Value ps;
     floatPrecision_property := floatPrecision_property o;
     transformPrecision_property := transformPrecision_property o;
     settings := settings o |}.

(** [mergeOptions] *)
Definition mergeOptions (userOptions : SVGOOptions) : SVGOOptions :=
  let result := spread defaultOptions userOptions in
  match plugins userOptions with
  | Some ps => with_plugins ps result
  | None =>
      match plugins result with
      | None => with_plugins [] result
      | Some _ => result
      end
  end.

(** [options.key] *)
Definition setting (options : SVGOOptions) (key : string) : JsVal :=
  default JUndefined (settings options !! key).

(** [key: options.key || false] and [key: options.key !== false] *)
Definition or_false (options : SVGOOptions) (key : string) : string * JsVal :=
  (key, js_or (setting options key) (JBool false)).

Definition not_false (options : SVGOOptions) (key : string) : string * JsVal :=
  (key, JBool (is_not_false (setting options key))).

Definition overrides (options : SVGOOptions) : list (string * JsVal) :=
  [ ("removeViewBox", JBool false);
    or_false options "removeDimensions";
    or_false options "removeAttrs";
    or_false options "removeElementsByAttr";
    or_false options "addClassesToSVG";
    not_false options "removeTitle";
    not_false options "removeDesc";
    not_false options "removeUselessStrokeAndFill";
    not_false options "removeUnusedNS";
    not_false options "cleanupListOfValues";
    not_false options "sortAttrs";
    not_false options "removeDoctype";
    not_false options "removeXMLProcInst";
    not_false options "removeComments";
    not_false options "removeMetadata";
    not_false options "removeEditorsNSData";
    not_false options "removeEmptyAttrs";
    not_false options "removeHiddenElems";
    not_false options "removeEmptyText";
    not_false options "removeEmptyContainers";
    not_false options "minifyStyles";
    not_false options "convertStyleToAttrs";
    not_false options "convertColors";
    not_false options "convertPathData";
    not_false options "convertEllipseToCircle";
    or_false options "convertUseToSymbol";
    or_false options "convertSymbolToPath";
    or_false options "convertPolygonToPath";
    not_false options "moveGroupAttrsToElems";
    not_false options "moveElemsAttrsToGroup";
    not_false options "collapseGroups";
    or_false options "convertGToUse";
    or_false options "reusePaths" ].

Definition defaultPlugins (options : SVGOOptions) : list Plugin :=
  [ {| plugin_name := "preset-default";
       plugin_params := Some [("overrides", JObj (overrides options))] |} ].

(** [buildSVGOPlugins] *)
Definition buildSVGOPlugins (options : SVGOOptions) : list Plugin :=
  let plugins0 := defaultPlugins options in
  match plugins options with
  | Some ps => plugins0 ++ ps
  | None => plugins0
  end.

(** [{ plugins: buildSVGOPlugins(mergedOptions), ...mergedOptions }]: the
    spread comes second, so a [plugins] property of [mergedOptions]
    replaces the list just built. *)
Definition empty_options : SVGOOptions :=
  {| plugins_property := Absent;
     floatPrecision_property := Absent;
     transformPrecision_property := Absent;
     settings := ∅ |}.

Definition svgoConfig (mergedOptions : SVGOOptions) : SVGOConfig :=
  spread (with_plugins (buildSVGOPlugins mergedOptions) empty_options)
    mergedOptions.

(** [optimizeSVG]; an absent [options] is [{}]. *)
Definition optimizeSVG (P : Platform) (svgContent : string)
  (options : option SVGOOptions) (fileName : string) : M string :=
  try_catch
    (let mergedOptions := mergeOptions (default empty_options options) in
     result ← engine_call P svgContent (svgoConfig mergedOptions);
     match result with
     | EngineThrows e => throw e
     | EngineReturns data err =>
         if nonempty err then
           throw (MkError SVGProcessingError
                    ("SVGO optimization failed: " +:+ default "" err) None
                    [("fileName", JStr fileName);
                     ("originalError", JStr (default "" err))])
         else mret data
     end)
    (fun error =>
       if instanceof error SVGProcessingError then throw error
       else
         throw (MkError SVGProcessingError
                  ("Unexpected error during SVG optimization: "
                   +:+ message_of error)
                  (Some error) [("fileName", JStr fileName)])).

(** [x < 0 || x > 10] *)
Definition out_of_range (x : float) : bool :=
  PrimFloat.ltb x 0 || PrimFloat.ltb 10 x.

(** [validateOptions] *)
Definition validateOptions (options : SVGOOptions) : Result unit :=
  _ ← match floatPrecision options with
      | Some x =>
          if out_of_range x then
            Throw (MkError SVGProcessingError
                     "floatPrecision must be between 0 and 10" None
                     [("floatPrecision", JNum x)])
          else Ok ()
      | None => Ok ()
      end;
  match transformPrecision options with
  | Some y =>
      if out_of_range y then
        Throw (MkError SVGProcessingError
                 "transformPrecision must be between 0 and 10" None
                 [("transformPrecision", JNum y)])
      else Ok ()
  | None => Ok ()
  end.

Record OptimizationStats := {
  originalSize : nat;
  optimizedSize : nat;
  compressionRatio : float;
  bytesSaved : Z
}.

Definition float_of_Z (z : Z) : float :=
  if (z <? 0)%Z then PrimFloat.opp (PrimFloat.of_uint63 (Uint63.of_Z (- z)))
  else PrimFloat.of_uint63 (Uint63.of_Z z).

(** [getOptimizationStats] *)
Definition getOptimizationStats (originalContent optimizedContent : string)
  : OptimizationStats :=
  let originalSize := String.length originalContent in
  let optimizedSize := String.length optimizedContent in
  let bytesSaved := (Z.of_nat originalSize - Z.of_nat optimizedSize)%Z in
  {| originalSize := originalSize;
     optimizedSize := optimizedSize;
     compressionRatio :=
       if Nat.ltb 0 originalSize
       then PrimFloat.div (float_of_Z bytesSaved) (num_of_nat originalSize)
       else 0%float;
     bytesSaved := bytesSaved |}.

End SVGOptimizer.

(* ===================================================================== *)
(** * What the three generators share *)
(* ===================================================================== *)

Module Generator.
Import JsString Types Runtime.

Definition nl : string := String (ascii_of_N 10) EmptyString.

(** [{ success: true, files: [], errors: [], warnings: [] }] *)
Definition empty_result : GenerationResult :=
  {| success := true; files := []; errors := []; warnings := [] |}.

(** [result.files.push(f)], [result.files.push(...fs)] *)
Definition push_files (fs : list string) (r : GenerationResult)
  : GenerationResult :=
  {| success := success r; files := files r ++ fs;
     errors := errors r; warnings := warnings r |}.

Definition push_file (f : string) : GenerationResult -> GenerationResult :=
  push_files [f].

(** [result.errors.push(msg)] *)
Definition push_error (msg : string) (r : GenerationResult)
  : GenerationResult :=
  {| success := success r; files := files r;
     errors := errors r ++ [msg]; warnings := warnings r |}.

(** [result.success = b] *)
Definition set_success (b : bool) (r : GenerationResult) : GenerationResult :=
  {| success := b; files := files r;
     errors := errors r; warnings := warnings r |}.

(** [result.success = result.errors.length === 0] *)
Definition settle (r : GenerationResult) : GenerationResult :=
  set_success (Nat.eqb (length (errors r)) 0) r.

(** [ensureOutputDirectory], the same in the three classes. *)
Definition ensureOutputDirectory (P : Platform) (outputDir : string) : M unit :=
  try_catch (fs_call P (Mkdir outputDir))
    (fun error =>
       throw (MkError FileSystemError
                ("Failed to create output directory: " +:+ outputDir)
                (Some error) [])).

(** [if (options.outputDir) await this.ensureOutputDirectory(...)] *)
Definition ensure_output (P : Platform) (options : IconifyLoaderOptions)
  : M unit :=
  if nonempty (outputDir options)
  then ensureOutputDirectory P (default "" (outputDir options))
  else mret ().

(** [options.outputDir ? path.join(options.outputDir, f) : `./${f}`] *)
Definition output_path (P : Platform) (options : IconifyLoaderOptions)
  (fileName : string) : string :=
  if nonempty (outputDir options)
  then path_join P (default "" (outputDir options)) fileName
  else "./" +:+ fileName.

(** [`index.${options.typescript ? 'ts' : 'js'}`] *)
Definition index_name (options : IconifyLoaderOptions) : string :=
  "index." +:+ (if flag (typescript options) then "ts" else "js").

(** [String(v)] *)
Fixpoint to_string (P : Platform) (v : JsVal) : string :=
  match v with
  | JUndefined => "undefined"
  | JNull => "null"
  | JBool true => "true"
  | JBool false => "false"
  | JNum x => Number_toString P x
  | JStr s => s
  | JArr xs =>
      join ","
        (map (fun x => match x with
                       | JUndefined | JNull => EmptyString
                       | _ => to_string P x
                       end) xs)
  | JObj _ => "[object Object]"
  end.

(** [{ ...a, ...b }] on objects given by their entries: the properties
    of [b] are defined one by one on a copy of [a]. *)
Definition obj_spread (a b : list (string * JsVal)) : list (string * JsVal) :=
  fold_left (fun acc kv => obj_define (fst kv) (snd kv) acc) b a.

(** [Object.assign(target, source)]: the properties of [source] are
    assigned one by one. *)
Definition obj_assign (target : PlainObject)
  (source : list (string * JsVal)) : PlainObject :=
  fold_left (fun acc kv => obj_set (fst kv) (snd kv) acc) source target.

End Generator.

(* ===================================================================== *)
(** * ReactGenerator ([src/generators/react-generator.ts]) *)
(* ===================================================================== *)

Module ReactGenerator.
Import JsString Types Runtime Generator.

Definition defaultProps : list (string * JsVal) :=
  [ ("width", JStr "1em"); ("height", JStr "1em");
    ("fill", JStr "currentColor"); ("aria-hidden", JStr "true") ].

Definition capitalize (word : string) : string :=
  match word with
  | EmptyString => EmptyString
  | String c rest => String (upper_char c) (toLowerCase rest)
  end.

(** [s.replace(/^(.)/, match => match.toUpperCase())] *)
Definition upper_first (s : string) : string :=
  match s with
  | String c rest =>
      if is_newline c || (code c =? 13)%N then s
      else String (upper_char c) rest
  | EmptyString => EmptyString
  end.

(** [getComponentName] *)
Definition getComponentName (originalName : string)
  (options : IconifyLoaderOptions) : string :=
  match reactComponentName options with
  | Some namer => namer originalName
  | None =>
      upper_first
        (join ""
           (map capitalize
              (split_on " "
                 (replace_all (replacing " " re_non_alnum) originalName))))
  end.

(** [if (svg.metadata[k]) mergedProps[k] = svg.metadata[k]] *)
Definition set_if_truthy (k : string) (v : JsVal) (o : PlainObject)
  : PlainObject :=
  if truthy v then obj_set k v o else o.

(** [generateProps] *)
Definition generateProps (P : Platform) (svg : ProcessedSVG)
  (options : IconifyLoaderOptions) : list string :=
  let m := metadata svg in
  let mergedProps :=
    set_if_truthy "className" (className m)
      (set_if_truthy "strokeWidth" (strokeWidth m)
         (set_if_truthy "stroke" (stroke m)
            (set_if_truthy "fill" (fill m)
               (set_if_truthy "viewBox" (viewBox m)
                  (set_if_truthy "height" (height m)
                     (set_if_truthy "width" (width m)
                        {| prototype := ObjectPrototype;
                           own := obj_spread defaultProps
                                    (default [] (svgProps options)) |}))))))
    in
  map (fun kv =>
         match snd kv with
         | JStr value => fst kv +:+ "=" +:+ dquote +:+ value +:+ dquote
         | JNum _ | JBool _ =>
             fst kv +:+ "={" +:+ to_string P (snd kv) +:+ "}"
         | value => fst kv +:+ "=" +:+ dquote +:+ to_string P value +:+ dquote
         end) (own mergedProps).

(** The indentation of [prepareSVGContent]: the first line trimmed, a
    later line trimmed and indented by six spaces unless it is blank. *)
Definition indent_line (index : nat) (line : string) : string :=
  let trimmed := trim line in
  match index with
  | O => trimmed
  | S _ =>
      if negb (String.eqb trimmed "") then "      " +:+ trimmed
      else EmptyString
  end.

(** [prepareSVGContent] *)
Definition prepareSVGContent (svg : ProcessedSVG) : string :=
  let content := content svg in
  let content := replace_all (replacing "" re_xml_declaration) content in
  let content := replace_all (replacing "" re_doctype) content in
  let content := replace_all (replacing "" re_comment) content in
  let content := replace_all (replacing " " re_spaces) content in
  let content := replace_all (replacing "><" re_gt_spaces_lt) content in
  let lines := split_on (ascii_of_N 10) content in
  join nl (imap indent_line lines).

(** [createComponentTemplate] *)
Definition createComponentTemplate (P : Platform) (svg : ProcessedSVG)
  (componentName : string) (options : IconifyLoaderOptions)
  : ReactComponentTemplate :=
  {| componentName := componentName;
     props := generateProps P svg options;
     svgContent := prepareSVGContent svg;
     template_typescript := flag (typescript options) |}.

(** The opening tag of the wrapper, the same in both templates. *)
Definition wrapper_open : list string :=
  [ "    <svg";
    "      width={size}";
    "      height={size}";
    "      fill={fill}";
    "      viewBox=" +:+ dquote +:+ "0 0 24 24" +:+ dquote;
    "      {...props}";
    "    >" ].

Definition wrapper_close (componentName : string) : list string :=
  [ "    </svg>";
    "  );";
    "};";
    "";
    "export default " +:+ componentName +:+ ";";
    "" ].

Definition signature (componentName : string) (typescript : bool)
  : list string :=
  if typescript then
    [ "import React from 'react';";
      "";
      "export interface " +:+ componentName
        +:+ "Props extends React.SVGProps<SVGSVGElement> {";
      "  size?: number | string;";
      "}";
      "";
      "const " +:+ componentName +:+ ": React.FC<" +:+ componentName
        +:+ "Props> = ({";
      "  size = '1em',";
      "  fill = 'currentColor',";
      "  ...props";
      "}) => {";
      "  return (" ]
  else
    [ "import React from 'react';";
      "";
      "const " +:+ componentName +:+ " = ({";
      "  size = '1em',";
      "  fill = 'currentColor',";
      "  ...props";
      "}) => {";
      "  return (" ].

(** [renderComponent]: the two template literals, line by line; [props]
    of the template is not used. *)
Definition renderComponent (template : ReactComponentTemplate) : string :=
  join nl
    (signature (componentName template) (template_typescript template)
     ++ wrapper_open
     ++ [svgContent template]
     ++ wrapper_close (componentName template)).

(** [generateComponentFile] *)
Definition generateComponentFile (P : Platform) (svg : ProcessedSVG)
  (options : IconifyLoaderOptions) : M string :=
  let componentName := getComponentName (name (metadata svg)) options in
  let template := createComponentTemplate P svg componentName options in
  let fileName :=
    match fileNameFormatter options with
    | Some formatter => formatter componentName
    | None =>
        componentName +:+ "."
          +:+ (if flag (typescript options) then "tsx" else "jsx")
    end in
  let filePath := output_path P options fileName in
  let content := renderComponent template in
  _ ← fs_call P (WriteFile filePath content);
  mret filePath.

(** [generateIndexFile]: both branches of the loop push the same export
    line; the type line is pushed for TypeScript only. *)
Definition generateIndexFile (P : Platform) (svgs : list ProcessedSVG)
  (options : IconifyLoaderOptions) : M string :=
  let names := map (fun svg => getComponentName (name (metadata svg)) options)
                 svgs in
  let exports :=
    map (fun componentName =>
           "export { default as " +:+ componentName +:+ " } from './"
             +:+ componentName +:+ "';") names in
  let types :=
    if flag (typescript options)
    then map (fun componentName =>
                "  " +:+ componentName +:+ ": typeof " +:+ componentName
                  +:+ ";") names
    else [] in
  let content := join nl exports in
  let content :=
    if flag (typescript options) && Nat.ltb 0 (length types)
    then content +:+ nl +:+ nl +:+ "export interface IconComponents {" +:+ nl
           +:+ join nl types +:+ nl +:+ "}" +:+ nl
    else content in
  let indexPath := output_path P options (index_name options) in
  _ ← fs_call P (WriteFile indexPath content);
  mret indexPath.

(** The body of the loop over [svgs] of [generateComponents]: a failure
    of the item is caught and recorded. *)
Definition generate_item (P : Platform) (options : IconifyLoaderOptions)
  (svg : ProcessedSVG) (result : GenerationResult) : M GenerationResult :=
  try_catch
    (componentFile ← generateComponentFile P svg options;
     _ ← when (flag (verbose options))
           (console_call
              (ConsoleLog ("Generated React component: " +:+ componentFile)));
     mret (push_file componentFile result))
    (fun error =>
       let errorMessage :=
         "Failed to generate component for " +:+ name (metadata svg)
           +:+ ": " +:+ message_of error in
       _ ← when (flag (verbose options))
             (console_call (ConsoleError errorMessage));
       mret (push_error errorMessage result)).

(** The loop itself. *)
Fixpoint generate_each (P : Platform) (options : IconifyLoaderOptions)
  (svgs : list ProcessedSVG) (result : GenerationResult)
  : M GenerationResult :=
  match svgs with
  | [] => mret result
  | svg :: rest =>
      result ← generate_item P options svg result;
      generate_each P options rest result
  end.

(** [if (options.generateIndex) { try { ... } catch { ... } }] *)
Definition generate_index (P : Platform) (options : IconifyLoaderOptions)
  (svgs : list ProcessedSVG) (result : GenerationResult)
  : M GenerationResult :=
  if flag (generateIndex options) then
    try_catch
      (indexFile ← generateIndexFile P svgs options;
       _ ← when (flag (verbose options))
             (console_call (ConsoleLog ("Generated index file: " +:+ indexFile)));
       mret (push_file indexFile result))
      (fun error =>
         mret (push_error ("Failed to generate index file: "
                           +:+ message_of error) result))
  else mret result.

(** [generateComponents]. Inside the outer [try] only the creation of the
    output directory is not under a [try] of its own, so [result] is
    still the initial one when the outer handler runs. *)
Definition generateComponents (P : Platform) (svgs : list ProcessedSVG)
  (options : IconifyLoaderOptions) : M GenerationResult :=
  let result := empty_result in
  try_catch
    (_ ← ensure_output P options;
     result ← generate_each P options svgs result;
     result ← generate_index P options svgs result;
     mret (settle result))
    (fun error =>
       mret (push_error ("Generation failed: " +:+ message_of error)
               (set_success false result))).

End ReactGenerator.

(* ===================================================================== *)
(** * SVGGenerator ([src/generators/svg-generator.ts]) *)
(* ===================================================================== *)

Module SVGGenerator.
Import JsString Types Runtime Generator.

(** The attributes [addCustomAttributes] appends: one per entry whose
    value is neither [undefined] nor [null], in the order of
    [Object.entries]. *)
Fixpoint new_attributes (P : Platform) (customProps : list (string * JsVal))
  : string :=
  match customProps with
  | [] => EmptyString
  | (key, value) :: rest =>
      match value with
      | JUndefined | JNull => new_attributes P rest
      | _ =>
          " " +:+ key +:+ "=" +:+ dquote +:+ to_string P value +:+ dquote
            +:+ new_attributes P rest
      end
  end.

(** [addCustomAttributes] *)
Definition addCustomAttributes (P : Platform) (svgContent : string)
  (customProps : list (string * JsVal)) : string :=
  match regex_match re_svg_open_tag svgContent with
  | None => svgContent
  | Some existingAttributes =>
      let newAttributes :=
        existingAttributes +:+ new_attributes P customProps in
      replace_first ("<svg" +:+ existingAttributes +:+ ">")
        ("<svg" +:+ newAttributes +:+ ">") svgContent
  end.

(** [formatSVGContent] *)
Definition formatSVGContent (content : string) : string :=
  let formatted := content in
  let formatted := replace_all (replacing " " re_spaces) formatted in
  let formatted := replace_all (replacing "><" re_gt_spaces_lt) formatted in
  let formatted := replace_all (replacing (">" +:+ nl +:+ "<") re_gt_lt)
                     formatted in
  let formatted := replace_all (replacing nl re_blank_lines) formatted in
  trim formatted.

(** [options.svgoOptions?.key !== false] *)
Definition svgo_not_false (options : IconifyLoaderOptions) (key : string)
  : bool :=
  match svgoOptions options with
  | Some o => is_not_false (default JUndefined (settings o !! key))
  | None => true
  end.

(** [prepareSVGContent] *)
Definition prepareSVGContent (P : Platform) (svg : ProcessedSVG)
  (options : IconifyLoaderOptions) : string :=
  let content := content svg in
  let content :=
    match svgProps options with
    | Some customProps => addCustomAttributes P content customProps
    | None => content
    end in
  let content :=
    if svgo_not_false options "removeComments"
    then replace_all (replacing "" re_comment) content
    else content in
  let content :=
    if svgo_not_false options "removeMetadata"
    then replace_all (replacing "" re_metadata) content
    else content in
  formatSVGContent content.

(** [s.replace(/^_+/, '')] and [s.replace(/_$/, '')] *)
Definition is_underscore (c : ascii) : bool := char_eqb c "_"%char.

Definition strip_leading_underscores (s : string) : string :=
  snd (span is_underscore s).

Fixpoint strip_final_underscore (s : string) : string :=
  match s with
  | EmptyString => EmptyString
  | String c EmptyString => if is_underscore c then EmptyString else s
  | String c rest => String c (strip_final_underscore rest)
  end.

(** [getVariableName] *)
Definition getVariableName (originalName : string)
  (options : IconifyLoaderOptions) : string :=
  match fileNameFormatter options with
  | Some formatter => formatter originalName
  | None =>
      strip_final_underscore
        (strip_leading_underscores
           (toLowerCase
              (replace_all (replacing "_" re_non_alnum) originalName)))
  end.

(** [generateSVGFile] *)
Definition generateSVGFile (P : Platform) (svg : ProcessedSVG)
  (options : IconifyLoaderOptions) : M string :=
  let fileName :=
    match fileNameFormatter options with
    | Some formatter => formatter (name (metadata svg))
    | None => name (metadata svg) +:+ ".svg"
    end in
  let filePath := output_path P options fileName in
  let content := prepareSVGContent P svg options in
  _ ← fs_call P (WriteFile filePath content);
  mret filePath.

(** The four escapes of [generateIndexFile], in the order applied. *)
Definition escape_for_literal (content : string) : string :=
  let content :=
    replace_all (replacing "\\" (re_char (fun c => char_eqb c "\"%char)))
      content in
  let content :=
    replace_all (replacing "\'" (re_char (fun c => char_eqb c "'"%char)))
      content in
  let content :=
    replace_all (replacing ("\" +:+ dquote)
                   (re_char (fun c => char_eqb c dquote_char))) content in
  replace_all (replacing "\n" (re_char is_newline)) content.

(** [generateIndexFile] *)
Definition generateIndexFile (P : Platform) (svgs : list ProcessedSVG)
  (options : IconifyLoaderOptions) : M string :=
  let names := map (fun svg => getVariableName (name (metadata svg)) options)
                 svgs in
  let exports :=
    map (fun svg =>
           "export const " +:+ getVariableName (name (metadata svg)) options
             +:+ " = '" +:+ escape_for_literal (prepareSVGContent P svg options)
             +:+ "';") svgs in
  let types :=
    if flag (typescript options)
    then map (fun variableName => "  " +:+ variableName +:+ ": string;") names
    else [] in
  let content := join (nl +:+ nl) exports in
  let content :=
    if flag (typescript options) && Nat.ltb 0 (length types)
    then content +:+ nl +:+ nl +:+ "export interface SVGIcons {" +:+ nl
           +:+ join nl types +:+ nl +:+ "}" +:+ nl
    else content in
  let indexPath := output_path P options (index_name options) in
  _ ← fs_call P (WriteFile indexPath content);
  mret indexPath.

(** The body of the loop over [svgs] of [generateSVGs]. *)
Definition generate_item (P : Platform) (options : IconifyLoaderOptions)
  (svg : ProcessedSVG) (result : GenerationResult) : M GenerationResult :=
  try_catch
    (svgFile ← generateSVGFile P svg options;
     _ ← when (flag (verbose options))
           (console_call (ConsoleLog ("Generated SVG file: " +:+ svgFile)));
     mret (push_file svgFile result))
    (fun error =>
       let errorMessage :=
         "Failed to generate SVG for " +:+ name (metadata svg)
           +:+ ": " +:+ message_of error in
       _ ← when (flag (verbose options))
             (console_call (ConsoleError errorMessage));
       mret (push_error errorMessage result)).

(** The loop itself. *)
Fixpoint generate_each (P : Platform) (options : IconifyLoaderOptions)
  (svgs : list ProcessedSVG) (result : GenerationResult)
  : M GenerationResult :=
  match svgs with
  | [] => mret result
  | svg :: rest =>
      result ← generate_item P options svg result;
      generate_each P options rest result
  end.

(** [if (options.generateIndex) { try { ... } catch { ... } }] *)
Definition generate_index (P : Platform) (options : IconifyLoaderOptions)
  (svgs : list ProcessedSVG) (result : GenerationResult)
  : M GenerationResult :=
  if flag (generateIndex options) then
    try_catch
      (indexFile ← generateIndexFile P svgs options;
       _ ← when (flag (verbose options))
             (console_call
                (ConsoleLog ("Generated SVG index file: " +:+ indexFile)));
       mret (push_file indexFile result))
      (fun error =>
         mret (push_error ("Failed to generate SVG index file: "
                           +:+ message_of error) result))
  else mret result.

(** [generateSVGs]; as in [ReactGenerator.generateComponents], [result]
    is the initial one when the outer handler runs. *)
Definition generateSVGs (P : Platform) (svgs : list ProcessedSVG)
  (options : IconifyLoaderOptions) : M GenerationResult :=
  let result := empty_result in
  try_catch
    (_ ← ensure_output P options;
     result ← generate_each P options svgs result;
     result ← generate_index P options svgs result;
     mret (settle result))
    (fun error =>
       mret (push_error ("SVG generation failed: " +:+ message_of error)
               (set_success false result))).

End SVGGenerator.

(* ===================================================================== *)
(** * JSONGenerator ([src/generators/json-generator.ts]) *)
(* ===================================================================== *)

Module JSONGenerator.
Import JsString Types Runtime Generator.

(** The eleven metadata properties both outputs start with. *)
Definition metadata_entries (svg : ProcessedSVG) : list (string * JsVal) :=
  let m := metadata svg in
  [ ("name", JStr (name m));
    ("originalName", JStr (originalName m));
    ("path", JStr (path m));
    ("size", JNum (num_of_nat (size m)));
    ("width", width m);
    ("height", height m);
    ("viewBox", viewBox m);
    ("fill", fill m);
    ("stroke", stroke m);
    ("strokeWidth", strokeWidth m);
    ("className", className m) ].

(** The key of an icon in the [icons] object. *)
Definition icon_key (svg : ProcessedSVG) (options : IconifyLoaderOptions)
  : string :=
  match fileNameFormatter options with
  | Some formatter => formatter (name (metadata svg))
  | None => name (metadata svg)
  end.

(** [createJSONOutput] *)
Definition createJSONOutput (P : Platform) (svgs : list ProcessedSVG)
  (options : IconifyLoaderOptions) : JsVal :=
  let icons :=
    fold_left
      (fun icons svg =>
         obj_set (icon_key svg options)
           (JObj (metadata_entries svg
                  ++ (if flag (verbose options)
                      then [("content", JStr (content svg))]
                      else [])))
           icons) svgs new_object in
  JObj
    [ ("icons", JObj (own icons));
      ("metadata",
       JObj [ ("totalIcons", JNum (num_of_nat (length svgs)));
              ("generatedAt", JStr (Date_toISOString P));
              ("version", JStr (package_version P));
              ("format", from_option JStr JUndefined (format options));
              ("optimized", JBool (flag (optimize options)));
              ("options",
               if flag (verbose options) then JObj [] else JUndefined) ]) ].

(** [createIndividualJSONOutput] *)
Definition createIndividualJSONOutput (P : Platform) (svg : ProcessedSVG)
  : JsVal :=
  JObj
    (metadata_entries svg
     ++ [ ("content", JStr (content svg));
          ("optimized", JBool (flag (optimized svg)));
          ("metadata",
           JObj [ ("generatedAt", JStr (Date_toISOString P));
                  ("version", JStr (package_version P)) ]) ]).

(** [options.verbose ? 2 : 0] *)
Definition indentation (options : IconifyLoaderOptions) : nat :=
  if flag (verbose options) then 2 else 0.

(** [generateJSONFile] *)
Definition generateJSONFile (P : Platform) (svgs : list ProcessedSVG)
  (options : IconifyLoaderOptions) : M string :=
  let jsonOutput := createJSONOutput P svgs options in
  let fileName :=
    match fileNameFormatter options with
    | Some formatter => formatter "icons" +:+ ".json"
    | None => "icons.json"
    end in
  let filePath := output_path P options fileName in
  let content := JSON_stringify P jsonOutput (indentation options) in
  _ ← fs_call P (WriteFile filePath content);
  mret filePath.

(** The body of the loop of [generateIndividualJSONFiles]: the failure
    of an item is thrown again as a [FileSystemError]. *)
Definition generate_individual_item (P : Platform)
  (options : IconifyLoaderOptions) (svg : ProcessedSVG)
  (files : list string) : M (list string) :=
  try_catch
    (let fileName :=
       match fileNameFormatter options with
       | Some formatter => formatter (name (metadata svg)) +:+ ".json"
       | None => name (metadata svg) +:+ ".json"
       end in
     let filePath := output_path P options fileName in
     let individualOutput := createIndividualJSONOutput P svg in
     let content :=
       JSON_stringify P individualOutput (indentation options) in
     _ ← fs_call P (WriteFile filePath content);
     mret (files ++ [filePath]))
    (fun error =>
       throw (MkError FileSystemError
                ("Failed to generate individual JSON file for "
                 +:+ name (metadata svg))
                (Some error) [("iconName", JStr (name (metadata svg)))])).

(** The loop itself: an item that throws ends it. *)
Fixpoint generateIndividualJSONFiles_from (P : Platform)
  (options : IconifyLoaderOptions) (svgs : list ProcessedSVG)
  (files : list string) : M (list string) :=
  match svgs with
  | [] => mret files
  | svg :: rest =>
      files ← generate_individual_item P options svg files;
      generateIndividualJSONFiles_from P options rest files
  end.

Definition generateIndividualJSONFiles (P : Platform)
  (svgs : list ProcessedSVG) (options : IconifyLoaderOptions)
  : M (list string) :=
  generateIndividualJSONFiles_from P options svgs [].

(** The first inner [try] of [generateJSON]: the main file. *)
Definition generate_main (P : Platform) (options : IconifyLoaderOptions)
  (svgs : list ProcessedSVG) (result : GenerationResult)
  : M GenerationResult :=
  try_catch
    (jsonFile ← generateJSONFile P svgs options;
     _ ← when (flag (verbose options))
           (console_call (ConsoleLog ("Generated JSON file: " +:+ jsonFile)));
     mret (push_file jsonFile result))
    (fun error =>
       let errorMessage :=
         "Failed to generate JSON file: " +:+ message_of error in
       _ ← when (flag (verbose options))
             (console_call (ConsoleError errorMessage));
       mret (push_error errorMessage result)).

(** The second: the files of the icons, when [generateIndex] is set. *)
Definition generate_individual (P : Platform)
  (options : IconifyLoaderOptions) (svgs : list ProcessedSVG)
  (result : GenerationResult) : M GenerationResult :=
  if flag (generateIndex options) then
    try_catch
      (individualFiles ← generateIndividualJSONFiles P svgs options;
       _ ← when (flag (verbose options))
             (console_call
                (ConsoleLog ("Generated " +:+ pretty (length individualFiles)
                             +:+ " individual JSON files")));
       mret (push_files individualFiles result))
      (fun error =>
         mret (push_error ("Failed to generate individual JSON files: "
                           +:+ message_of error) result))
  else mret result.

(** [generateJSON]; [result] is the initial one when the outer handler
    runs, as in the other two generators. *)
Definition generateJSON (P : Platform) (svgs : list ProcessedSVG)
  (options : IconifyLoaderOptions) : M GenerationResult :=
  let result := empty_result in
  try_catch
    (_ ← ensure_output P options;
     result ← generate_main P options svgs result;
     result ← generate_individual P options svgs result;
     mret (settle result))
    (fun error =>
       mret (push_error ("JSON generation failed: " +:+ message_of error)
               (set_success false result))).

(** [typeof v] *)
Definition typeof (v : JsVal) : string :=
  match v with
  | JUndefined => "undefined"
  | JBool _ => "boolean"
  | JNum _ => "number"
  | JStr _ => "string"
  | JNull | JArr _ | JObj _ => "object"
  end.

(** [v.k] for one of the keys of a [JSONOutput], which only an object can
    have; [v] is not [undefined] or [null] where the sources read it. *)
Definition property (v : JsVal) (k : string) : JsVal :=
  match v with
  | JObj fields => obj_get k fields
  | _ => JUndefined
  end.

(** [validateJSONOutput]; [jsonOutput] is an object, given by its
    entries. *)
Definition validateJSONOutput (jsonOutput : list (string * JsVal)) : bool :=
  let icons := obj_get "icons" jsonOutput in
  let metadata := obj_get "metadata" jsonOutput in
  if negb (truthy icons) || negb (String.eqb (typeof icons) "object")
  then false
  else if negb (truthy metadata)
          || negb (String.eqb (typeof metadata) "object")
  then false
  else if negb (String.eqb (typeof (property metadata "totalIcons")) "number")
  then false
  else if negb (truthy (property metadata "generatedAt"))
          || negb (String.eqb (typeof (property metadata "generatedAt"))
                     "string")
  then false
  else true.

(** A [JSONOutput] as [mergeJSONOutputs] reads it: its [icons] and its
    [metadata.totalIcons]. *)
Record JSONOutput := {
  output_icons : list (string * JsVal);
  output_totalIcons : float
}.

(** [mergeJSONOutputs] *)
Definition mergeJSONOutputs (P : Platform) (outputs : list JSONOutput)
  : JsVal :=
  let totalIcons :=
    fold_left (fun sum output => PrimFloat.add sum (output_totalIcons output))
      outputs 0%float in
  let mergedIcons :=
    fold_left (fun mergedIcons output =>
                 obj_assign mergedIcons (output_icons output))
      outputs new_object in
  JObj
    [ ("icons", JObj (own mergedIcons));
      ("metadata",
       JObj [ ("totalIcons", JNum totalIcons);
              ("generatedAt", JStr (Date_toISOString P));
              ("version", JStr (package_version P));
              ("merged", JBool true);
              ("sources", JNum (num_of_nat (length outputs))) ]) ].

End JSONGenerator.

(* ===================================================================== *)
(** * IconifyLoader ([src/core/iconify-loader.ts]) *)
(* ===================================================================== *)

Module IconifyLoader.
Import JsString Types Runtime.

(** An instance: its private [options]. *)
Record Loader := { options : IconifyLoaderOptions }.

(** [`${v}`] of an optional string *)
Definition interpolate (v : option string) : string := default "undefined" v.

Definition validFormats : list string := ["svg"; "react"; "json"].

(** [validateOptions] *)
Definition validateOptions (options : IconifyLoaderOptions) : Result unit :=
  if negb (nonempty (inputDir options)) then
    Throw (MkError ValidationError "Input directory is required" None [])
  else if negb (nonempty (format options)) then
    Throw (MkError ValidationError "Output format is required" None [])
  else if negb (bool_decide (default "" (format options) ∈ validFormats)) then
    Throw (MkError ValidationError
             ("Invalid format. Must be one of: " +:+ join ", " validFormats)
             None
             [("format", JStr (default "" (format options)));
              ("validFormats", JArr (map JStr validFormats))])
  else
    match svgoOptions options with
    | Some svgoOptions => SVGOptimizer.validateOptions svgoOptions
    | None => Ok ()
    end.

(** [constructor] *)
Definition new (options : IconifyLoaderOptions) : Result Loader :=
  _ ← validateOptions options;
  Ok {| options := options |}.

(** [readSVGs] *)
Definition readSVGs (P : Platform) (this : Loader) : M (list FileInfo) :=
  let inputDir := interpolate (inputDir (options this)) in
  try_catch
    (files ← FileReader.readSVGFiles P inputDir
               (includeSubdirs (options this)) (ignorePatterns (options this));
     if Nat.eqb (length files) 0 then
       throw (MkError ValidationError
                ("No SVG files found in directory: " +:+ inputDir) None
                [("inputDir", JStr inputDir)])
     else mret files)
    (fun error =>
       if instanceof error ValidationError then throw error
       else
         throw (MkError FileSystemError
                  ("Failed to read SVG files: " +:+ message_of error)
                  (Some error) [("inputDir", JStr inputDir)])).

(** [{ name, originalName, path, size, ...attributes }] *)
Definition metadata_of (file : FileInfo) : SVGMetadata :=
  let attributes := FileReader.extractSVGAttributes (file_content file) in
  {| name := file_name file;
     originalName := file_name file;
     path := file_path file;
     size := String.length (file_content file);
     width := from_option JStr JUndefined (FileReader.attr_width attributes);
     height := from_option JStr JUndefined (FileReader.attr_height attributes);
     viewBox := from_option JStr JUndefined (FileReader.attr_viewBox attributes);
     fill := from_option JStr JUndefined (FileReader.attr_fill attributes);
     stroke := from_option JStr JUndefined (FileReader.attr_stroke attributes);
     strokeWidth := JUndefined;
     className := JUndefined |}.

(** The message of the verbose statistics line. *)
Definition stats_message (P : Platform) (fileName original optimized : string)
  : string :=
  let stats := SVGOptimizer.getOptimizationStats original optimized in
  "Optimized " +:+ fileName +:+ ": "
    +:+ pretty (SVGOptimizer.bytesSaved stats) +:+ " bytes saved ("
    +:+ Number_toString P
          (PrimFloat.mul (SVGOptimizer.compressionRatio stats) 100)
    +:+ "%)".

(** The optimization step of one file: [content] and [optimized] start as
    the file's content and [false]; the inner [try] replaces them, and
    its handler only logs. *)
Definition optimize_file (P : Platform) (this : Loader) (file : FileInfo)
  : M (string * bool) :=
  let content := file_content file in
  let optimized := false in
  if flag (optimize (options this)) then
    try_catch
      (content' ← SVGOptimizer.optimizeSVG P content
                    (svgoOptions (options this)) (file_name file);
       _ ← when (flag (verbose (options this)))
             (console_call
                (ConsoleLog (stats_message P (file_name file)
                               (file_content file) content')));
       mret (content', true))
      (fun error =>
         _ ← when (flag (verbose (options this)))
               (console_call
                  (ConsoleWarn ("Failed to optimize " +:+ file_name file
                                +:+ ": " +:+ message_of error)));
         mret (content, optimized))
  else mret (content, optimized).

(** The body of the loop of [processSVGs] for one file. *)
Definition process_file (P : Platform) (this : Loader) (file : FileInfo)
  : M ProcessedSVG :=
  try_catch
    (_ ← lift (FileReader.validateSVGContent (file_content file)
                 (file_name file));
     let metadata := metadata_of file in
     r ← optimize_file P this file;
     mret {| metadata := metadata; content := fst r;
             optimized := Some (snd r) |})
    (fun error =>
       _ ← when (flag (verbose (options this)))
             (console_call
                (ConsoleError ("Failed to process " +:+ file_name file
                               +:+ ": " +:+ message_of error)));
       throw error).

(** [processSVGs] *)
Fixpoint processSVGs_from (P : Platform) (this : Loader)
  (files : list FileInfo) (processedSVGs : list ProcessedSVG)
  : M (list ProcessedSVG) :=
  match files with
  | [] => mret processedSVGs
  | file :: rest =>
      item ← process_file P this file;
      processSVGs_from P this rest (processedSVGs ++ [item])
  end.

Definition processSVGs (P : Platform) (this : Loader)
  (files : list FileInfo) : M (list ProcessedSVG) :=
  processSVGs_from P this files [].

(** [generateOutput] *)
Definition generateOutput (P : Platform) (this : Loader)
  (svgs : list ProcessedSVG) : M GenerationResult :=
  let format := interpolate (format (options this)) in
  if String.eqb format "react" then
    ReactGenerator.generateComponents P svgs (options this)
  else if String.eqb format "svg" then
    SVGGenerator.generateSVGs P svgs (options this)
  else if String.eqb format "json" then
    JSONGenerator.generateJSON P svgs (options this)
  else
    throw (MkError ValidationError
             ("Unsupported output format: " +:+ format) None
             [("format", JStr format)]).

Definition log_all (msgs : list string) : M unit :=
  foldr (fun msg rest => _ ← console_call (ConsoleLog msg); rest)
    (mret ()) msgs.

(** [process] *)
Definition process (P : Platform) (this : Loader) : M GenerationResult :=
  let verbose := flag (verbose (options this)) in
  try_catch
    (_ ← when verbose
           (log_all
              [ "Starting IconifyLoader process...";
                "Input directory: " +:+ interpolate (inputDir (options this));
                "Output format: " +:+ interpolate (format (options this));
                "Optimization: "
                  +:+ (if flag (optimize (options this))
                       then "enabled" else "disabled") ]);
     svgFiles ← readSVGs P this;
     _ ← when verbose
           (console_call
              (ConsoleLog ("Found " +:+ pretty (length svgFiles)
                           +:+ " SVG files")));
     processedSVGs ← processSVGs P this svgFiles;
     result ← generateOutput P this processedSVGs;
     _ ← when verbose
           (_ ← log_all
                  [ "Process completed successfully!";
                    "Generated " +:+ pretty (length (files result))
                      +:+ " files" ];
            _ ← when (Nat.ltb 0 (length (errors result)))
                  (console_call
                     (ConsoleWarn ("Errors: "
                                   +:+ pretty (length (errors result)))));
            when (Nat.ltb 0 (length (warnings result)))
              (console_call
                 (ConsoleWarn ("Warnings: "
                               +:+ pretty (length (warnings result))))));
     mret result)
    (fun error =>
       throw (MkError SVGProcessingError
                ("IconifyLoader process failed: " +:+ message_of error)
                (Some error) [])).

(** [load] *)
Definition load (P : Platform) (options : IconifyLoaderOptions)
  : M GenerationResult :=
  loader ← lift (new options);
  process P loader.

(** [getDefaultOptions]: a [Partial<IconifyLoaderOptions>]. *)
Definition getDefaultOptions : IconifyLoaderOptions :=
  {| inputDir_property := Absent;
     outputDir_property := Absent;
     format_property := Absent;
     svgoOptions_property := Absent;
     optimize_property := Value true;
     generateIndex_property := Value true;
     typescript_property := Value true;
     reactComponentName_property := Absent;
     svgProps_property := Absent;
     fileNameFormatter_property := Absent;
     includeSubdirs_property := Value true;
     ignorePatterns_property :=
       Value ["node_modules"; ".git"; "dist"; "build"];
     verbose_property := Value false |}.

(** [mergeOptions] *)
Definition mergeOptions (userOptions : IconifyLoaderOptions)
  : IconifyLoaderOptions :=
  let defaults := getDefaultOptions in
  {| inputDir_property :=
       spread_property (inputDir_property defaults)
         (inputDir_property userOptions);
     outputDir_property :=
       spread_property (outputDir_property defaults)
         (outputDir_property userOptions);
     format_property :=
       spread_property (format_property defaults)
         (format_property userOptions);
     svgoOptions_property :=
       spread_property (svgoOptions_property defaults)
         (svgoOptions_property userOptions);
     optimize_property :=
       spread_property (optimize_property defaults)
         (optimize_property userOptions);
     generateIndex_property :=
       spread_property (generateIndex_property defaults)
         (generateIndex_property userOptions);
     typescript_property :=
       spread_property (typescript_property defaults)
         (typescript_property userOptions);
     reactComponentName_property :=
       spread_property (reactComponentName_property defaults)
         (reactComponentName_property userOptions);
     svgProps_property :=
       spread_property (svgProps_property defaults)
         (svgProps_property userOptions);
     fileNameFormatter_property :=
       spread_property (fileNameFormatter_property defaults)
         (fileNameFormatter_property userOptions);
     includeSubdirs_property :=
       spread_property (includeSubdirs_property defaults)
         (includeSubdirs_property userOptions);
     ignorePatterns_property :=
       spread_property (ignorePatterns_property defaults)
         (ignorePatterns_property userOptions);
     verbose_property :=
       spread_property (verbose_property defaults)
         (verbose_property userOptions) |}.

End IconifyLoader.

(* ===================================================================== *)
(** * Vocabulary of the properties, and the scenarios they are tried on *)
(* ===================================================================== *)

Module Spec.
Import JsString Types Runtime.

(** A required string property that is missing: absent, or empty (which
    [!value] rejects as well). *)
Definition missing (v : option string) : Prop := v = None \/ v = Some "".

(** A [format] that is given and is none of the three literals. *)
Definition unsupported (v : option string) : Prop :=
  exists f, v = Some f /\ f ∉ IconifyLoader.validFormats.

(** The required-field checks of the loader pass. *)
Definition required_ok (o : IconifyLoaderOptions) : Prop :=
  ~ missing (inputDir o) /\ ~ missing (format o) /\ ~ unsupported (format o).

(** A number outside, and inside, the closed interval from 0 to 10. *)
Definition outside_0_10 (x : float) : Prop :=
  PrimFloat.ltb x 0 = true \/ PrimFloat.ltb 10 x = true.

Definition inside_0_10 (x : float) : Prop :=
  PrimFloat.leb 0 x = true /\ PrimFloat.leb x 10 = true.

(** The toggles of the preset's overrides other than [removeViewBox]. *)
Definition preset_toggles : list string :=
  [ "removeDimensions"; "removeAttrs"; "removeElementsByAttr";
    "addClassesToSVG"; "removeTitle"; "removeDesc";
    "removeUselessStrokeAndFill"; "removeUnusedNS"; "cleanupListOfValues";
    "sortAttrs"; "removeDoctype"; "removeXMLProcInst"; "removeComments";
    "removeMetadata"; "removeEditorsNSData"; "removeEmptyAttrs";
    "removeHiddenElems"; "removeEmptyText"; "removeEmptyContainers";
    "minifyStyles"; "convertStyleToAttrs"; "convertColors";
    "convertPathData"; "convertEllipseToCircle"; "convertUseToSymbol";
    "convertSymbolToPath"; "convertPolygonToPath"; "moveGroupAttrsToElems";
    "moveElemsAttrsToGroup"; "collapseGroups"; "convertGToUse";
    "reusePaths" ].

(** The preset entry with the given overrides. *)
Definition preset (ov : list (string * JsVal)) : Plugin :=
  {| plugin_name := "preset-default";
     plugin_params := Some [("overrides", JObj ov)] |}.

(** The text of a generated component around the embedded markup: from
    the default props to the end of the wrapper's opening tag, and the
    wrapper's closing tag. *)
Definition wrapper_before : string :=
  "  size = '1em',
  fill = 'currentColor',
  ...props
}) => {
  return (
    <svg
      width={size}
      height={size}
      fill={fill}
      viewBox=" +:+ dquote +:+ "0 0 24 24" +:+ dquote +:+ "
      {...props}
    >
".

Definition wrapper_after : string :=
  "
    </svg>
".

(** Markup as an optimizer leaves it: no [<?] or [<!] construct, and no
    whitespace but single spaces, each between two other characters and
    none between a [>] and a [<]. *)
Fixpoint single_spaced (s : string) : bool :=
  match s with
  | EmptyString => true
  | String c s' =>
      (if is_space c
       then char_eqb c " "%char
            && match s' with
               | String d _ => negb (is_space d)
               | EmptyString => false
               end
       else true)
      && single_spaced s'
  end.

Definition starts_clean (s : string) : bool :=
  match s with
  | String c _ => negb (is_space c)
  | EmptyString => true
  end.

Definition tidy (s : string) : Prop :=
  single_spaced s = true /\ starts_clean s = true
  /\ index_of "> <" s = None
  /\ index_of "<?" s = None /\ index_of "<!" s = None.

(** The same icon with other metadata. *)
Definition with_metadata (m : SVGMetadata) (svg : ProcessedSVG)
  : ProcessedSVG :=
  {| metadata := m; content := content svg; optimized := optimized svg |}.

(** A value with no quote character in it. *)
Definition no_quote (v : string) : Prop := index_of_char is_quote v = None.

(** The optimizer fails for a file: whatever the run has done before,
    [optimizeSVG] throws on its content. *)
Definition optimizer_fails (P : Platform) (o : IconifyLoaderOptions)
  (file : FileInfo) : Prop :=
  forall w, exists e,
    fst (SVGOptimizer.optimizeSVG P (file_content file) (svgoOptions o)
           (file_name file) w) = Throw e.

(** The walker finds no SVG file under [dir]. *)
Definition finds_no_svg (P : Platform) (dir : string)
  (o : IconifyLoaderOptions) : Prop :=
  forall w,
    fst (FileReader.readSVGFiles P dir (includeSubdirs o) (ignorePatterns o) w)
    = Ok [].

(** The two errors of an empty input directory: the one [readSVGs]
    throws, and the one [process] throws in its place. *)
Definition no_files_error (dir : string) : JsError :=
  MkError ValidationError ("No SVG files found in directory: " +:+ dir) None
    [("inputDir", JStr dir)].

Definition process_failed (cause : JsError) : JsError :=
  MkError SVGProcessingError
    ("IconifyLoader process failed: " +:+ message cause) (Some cause) [].

(** The error the loop of [generateIndividualJSONFiles] throws for an
    item whose write failed with [cause], and the entry of [errors] it
    ends as. *)
Definition item_error (svg : ProcessedSVG) (cause : JsError) : JsError :=
  MkError FileSystemError
    ("Failed to generate individual JSON file for " +:+ name (metadata svg))
    (Some cause) [("iconName", JStr (name (metadata svg)))].

Definition item_error_entry (svg : ProcessedSVG) : string :=
  "Failed to generate individual JSON files: "
    +:+ "Failed to generate individual JSON file for " +:+ name (metadata svg).

(** Computations that leave the record of engine calls as it is. *)
Definition engine_silent {A} (m : M A) : Prop :=
  forall w, engine_calls (snd (m w)) = engine_calls w.

(** The entry of [errors] for an item of the React, and of the SVG,
    generator whose write failed with [cause]. *)
Definition react_item_error (svg : ProcessedSVG) (cause : JsError) : string :=
  "Failed to generate component for " +:+ name (metadata svg) +:+ ": "
    +:+ message cause.

Definition svg_item_error (svg : ProcessedSVG) (cause : JsError) : string :=
  "Failed to generate SVG for " +:+ name (metadata svg) +:+ ": "
    +:+ message cause.

(** What one step of a generator does to the result: the written file is
    listed, or the entry of the failure is added to [errors]. *)
Definition step (f : string) (entry : JsError -> string)
  (r r' : GenerationResult) : Prop :=
  r' = Generator.push_file f r
  \/ exists cause, r' = Generator.push_error (entry cause) r.

(** A result that holds whatever an earlier one held. *)
Definition extends (r r' : GenerationResult) : Prop :=
  files r ⊆ files r' /\ errors r ⊆ errors r'.

(** The path each generator writes an item to. *)
Definition react_item_path (P : Platform) (o : IconifyLoaderOptions)
  (svg : ProcessedSVG) : string :=
  let componentName :=
    ReactGenerator.getComponentName (name (metadata svg)) o in
  Generator.output_path P o
    match fileNameFormatter o with
    | Some formatter => formatter componentName
    | None => componentName +:+ "."
                +:+ (if flag (typescript o) then "tsx" else "jsx")
    end.

Definition svg_item_path (P : Platform) (o : IconifyLoaderOptions)
  (svg : ProcessedSVG) : string :=
  Generator.output_path P o
    match fileNameFormatter o with
    | Some formatter => formatter (name (metadata svg))
    | None => name (metadata svg) +:+ ".svg"
    end.

Definition json_item_path (P : Platform) (o : IconifyLoaderOptions)
  (svg : ProcessedSVG) : string :=
  Generator.output_path P o
    match fileNameFormatter o with
    | Some formatter => formatter (name (metadata svg)) +:+ ".json"
    | None => name (metadata svg) +:+ ".json"
    end.

Definition json_main_path (P : Platform) (o : IconifyLoaderOptions) : string :=
  Generator.output_path P o
    match fileNameFormatter o with
    | Some formatter => formatter "icons" +:+ ".json"
    | None => "icons.json"
    end.

Definition index_path (P : Platform) (o : IconifyLoaderOptions) : string :=
  Generator.output_path P o (Generator.index_name o).

(** The index file a generator adds when [generateIndex] is set. *)
Definition index_paths (P : Platform) (o : IconifyLoaderOptions)
  : list string :=
  if flag (generateIndex o) then [index_path P o] else [].

(** An item is accounted for in a result of the React, and of the SVG,
    generator: its file is listed, or [errors] has its entry. *)
Definition react_item_settled (P : Platform) (o : IconifyLoaderOptions)
  (r : GenerationResult) (svg : ProcessedSVG) : Prop :=
  react_item_path P o svg ∈ files r
  \/ exists cause, react_item_error svg cause ∈ errors r.

Definition svg_item_settled (P : Platform) (o : IconifyLoaderOptions)
  (r : GenerationResult) (svg : ProcessedSVG) : Prop :=
  svg_item_path P o svg ∈ files r
  \/ exists cause, svg_item_error svg cause ∈ errors r.

(** Every character of [s] satisfies [p]. *)
Fixpoint all_chars (p : ascii -> bool) (s : string) : bool :=
  match s with
  | EmptyString => true
  | String c s' => p c && all_chars p s'
  end.

(** The first character of [s], if there is one, satisfies [p]. *)
Definition first_char (p : ascii -> bool) (s : string) : bool :=
  match s with
  | String c _ => p c
  | EmptyString => false
  end.

(** A character that is not whitespace, or is the space itself; and the
    same with the line feed allowed too. *)
Definition plain_space (c : ascii) : bool :=
  negb (is_space c) || char_eqb c " "%char.

Definition space_or_line_feed (c : ascii) : bool :=
  plain_space c || is_newline c.

(** A character that ends a line of JavaScript source: LF or CR. *)
Definition line_terminator (c : ascii) : bool :=
  is_newline c || (code c =? 13)%N.

(** The alphabet of a default variable name: [[a-z0-9_]]. *)
Definition variable_char (c : ascii) : bool :=
  is_lower c || is_digit c || SVGGenerator.is_underscore c.

(** The five scans of [extractSVGAttributes], as a list. *)
Definition scanned (a : FileReader.SVGAttributes) : list (option string) :=
  [ FileReader.attr_viewBox a; FileReader.attr_width a;
    FileReader.attr_height a; FileReader.attr_fill a;
    FileReader.attr_stroke a ].

(** An entry as a walk that does not enter directories sees it. *)
Definition shallow (entry : FileReader.Entry) : FileReader.Entry :=
  match entry with
  | FileReader.DirectoryEntry n _ => FileReader.DirectoryEntry n (Ok [])
  | _ => entry
  end.

(** No pattern of [ignorePatterns] matches [filePath]. *)
Definition kept (L : FileReader.Library) (ignorePatterns : list string)
  (filePath : string) : Prop :=
  FileReader.shouldIgnorePath L filePath ignorePatterns = Ok false.

(** The file [getFileInfo] describes: a file of [entries], listed under
    [dirPath], that could be read. *)
Definition child_of (P : Platform) (dirPath : string)
  (entries : list FileReader.Entry) (f : FileInfo) : Prop :=
  exists n c,
    FileReader.FileEntry n (Ok c) ∈ entries
    /\ file_path f = path_join P dirPath n /\ file_content f = c.

(** The configuration [optimizeSVG] hands to the engine for the
    [svgoOptions] of a run. *)
Definition engine_config (o : option SVGOOptions) : SVGOConfig :=
  SVGOptimizer.svgoConfig
    (SVGOptimizer.mergeOptions (default SVGOptimizer.empty_options o)).

(** What reading a property of merged options gives, [d] being the
    default of the property: the default only when the user's object
    does not have the property. *)
Definition merged_read {A} (d : A) (p : Property A) : option A :=
  match p with
  | Absent => Some d
  | Undefined => None
  | Value a => Some a
  end.

(** The plugins the user listed, none when there are no [svgoOptions]. *)
Definition user_plugins (o : option SVGOOptions) : list Plugin :=
  default [] (o ≫= plugins).

(** From [(r, w)] to [(r', w')] a generator has listed, in order, the
    files it has written, and no other; and has listed only files it
    has written. Neither touches [warnings]. *)
Definition lists_its_writes (r : GenerationResult) (w : World)
  (r' : GenerationResult) (w' : World) : Prop :=
  warnings r' = warnings r
  /\ exists new,
      written w' = written w ++ new /\ files r' = files r ++ new.*1.

Definition lists_only_writes (r : GenerationResult) (w : World)
  (r' : GenerationResult) (w' : World) : Prop :=
  warnings r' = warnings r
  /\ exists new listed,
      written w' = written w ++ new /\ files r' = files r ++ listed
      /\ listed ⊆ new.*1.

(** The result of a generator that could not create its output
    directory: the one error, under the generator's prefix. *)
Definition no_directory_result (prefix dir : string) : GenerationResult :=
  {| success := false; files := [];
     errors := [prefix +:+ "Failed to create output directory: " +:+ dir];
     warnings := [] |}.

(** A file passes the content check. *)
Definition valid_file (f : FileInfo) : Prop :=
  FileReader.validateSVGContent (file_content f) (file_name f) = Ok ().

(** What the walk of the input directory of a run finds, filtered as
    [readSVGFiles] does. *)
Definition svg_files_found (P : Platform) (o : IconifyLoaderOptions)
  : Result (list FileInfo) :=
  match directory_files P (IconifyLoader.interpolate (inputDir o))
          (default true (includeSubdirs o)) (default [] (ignorePatterns o))
  with
  | Ok all =>
      Ok (filter (fun f => file_extension f ∈ FileReader.SVG_EXTENSIONS) all)
  | Throw e => Throw e
  end.

(** The error [readSVGFiles] throws when the walk fails with [cause],
    and the one [readSVGs] throws in its place. *)
Definition walk_failed (dir : string) (cause : JsError) : JsError :=
  MkError FileSystemError
    ("Failed to read SVG files from directory: " +:+ dir) (Some cause)
    [("inputDir", JStr dir)].

Definition read_failed (dir : string) (cause : JsError) : JsError :=
  MkError FileSystemError ("Failed to read SVG files: " +:+ message cause)
    (Some cause) [("inputDir", JStr dir)].

(** From [w] to [w'] only the console was used; and: no file was
    written nor attempted. *)
Definition only_logged (w w' : World) : Prop :=
  fs_trace w' = fs_trace w /\ engine_calls w' = engine_calls w.

Definition nothing_written (w w' : World) : Prop :=
  attempted w' = attempted w /\ written w' = written w.

(** The item [processSVGs] makes of a file the engine has optimized to
    [data]. *)
Definition optimized_item (file : FileInfo) (data : string) : ProcessedSVG :=
  {| metadata := IconifyLoader.metadata_of file;
     content := data;
     optimized := Some true |}.

(** The message of what a run threw, if it threw. *)
Definition message_of_load_error (r : Result GenerationResult)
  : option string :=
  match r with
  | Ok _ => None
  | Throw e => Some (message e)
  end.

(** The same configuration with other [svgProps], with none, or with
    [svgProps: undefined]. *)
Definition with_svgProps (customProps : Property (list (string * JsVal)))
  (o : IconifyLoaderOptions) : IconifyLoaderOptions :=
  {| inputDir_property := inputDir_property o;
     outputDir_property := outputDir_property o;
     format_property := format_property o;
     svgoOptions_property := svgoOptions_property o;
     optimize_property := optimize_property o;
     generateIndex_property := generateIndex_property o;
     typescript_property := typescript_property o;
     reactComponentName_property := reactComponentName_property o;
     svgProps_property := customProps;
     fileNameFormatter_property := fileNameFormatter_property o;
     includeSubdirs_property := includeSubdirs_property o;
     ignorePatterns_property := ignorePatterns_property o;
     verbose_property := verbose_property o |}.

(** Two computations that do the same from every state. *)
Definition same_run {A} (m m' : M A) : Prop := forall w, m w = m' w.

(** The entries of the [icons] object of a JSON output, and its
    [metadata.totalIcons]. *)
Definition icons_of (output : JsVal) : list (string * JsVal) :=
  match JSONGenerator.property output "icons" with
  | JObj icons => icons
  | _ => []
  end.

Definition totalIcons_of (output : JsVal) : JsVal :=
  JSONGenerator.property (JSONGenerator.property output "metadata")
    "totalIcons".

(** The entry [createJSONOutput] makes for an icon. *)
Definition icon_entry (o : IconifyLoaderOptions) (svg : ProcessedSVG)
  : JsVal :=
  JObj (JSONGenerator.metadata_entries svg
        ++ (if flag (verbose o) then [("content", JStr (content svg))]
            else [])).

(** The output of [createJSONOutput] for a batch of icons, as
    [mergeJSONOutputs] reads it. *)
Definition output_of (P : Platform) (o : IconifyLoaderOptions)
  (batch : list ProcessedSVG) : JSONGenerator.JSONOutput :=
  {| JSONGenerator.output_icons :=
       icons_of (JSONGenerator.createJSONOutput P batch o);
     JSONGenerator.output_totalIcons := num_of_nat (length batch) |}.

(** Keys in the order in which [Object.keys] lists them: no key stands
    after one that it would be listed before. *)
Definition keys_in_order (keys : list string) : Prop :=
  StronglySorted (fun k k' => listed_before k' k = false) keys.

(** The entries of an object, if [v] is one. *)
Definition entries_of (v : JsVal) : option (list (string * JsVal)) :=
  match v with
  | JObj fields => Some fields
  | _ => None
  end.

(** A file as [getFileInfo] describes it with the library [L]: the
    extension is that of its path in lowercase, the name what
    [path.basename] leaves of the path without that extension. *)
Definition described_by (L : FileReader.Library) (f : FileInfo) : Prop :=
  file_extension f = toLowerCase (FileReader.path_extname L (file_path f))
  /\ file_name f
     = FileReader.path_basename L (file_path f) (file_extension f).

(** The item [processSVGs] makes of a file that passes the content
    check: the engine's [data] when [optimize] is set and the engine
    returns without an error, the file's own content otherwise. *)
Definition processed (P : Platform) (o : IconifyLoaderOptions)
  (file : FileInfo) : ProcessedSVG :=
  let unoptimized :=
    {| metadata := IconifyLoader.metadata_of file;
       content := file_content file;
       optimized := Some false |} in
  if flag (optimize o) then
    match svgo_optimize P (file_content file) (engine_config (svgoOptions o))
    with
    | EngineReturns data err =>
        if nonempty err then unoptimized else optimized_item file data
    | EngineThrows _ => unoptimized
    end
  else unoptimized.

(** A file system on which no call fails. *)
Definition reliable (P : Platform) : Prop :=
  forall trace c, fs_failure P trace c = None.

(** The result of a generator all of whose writes succeeded. *)
Definition all_written (paths : list string) : GenerationResult :=
  {| success := true; files := paths; errors := []; warnings := [] |}.

(** ** The layout [formatSVGContent] gives a text *)

Definition is_lt (c : ascii) : bool := char_eqb c "<"%char.

(** After the first replacement: every whitespace character is a
    space that follows a character that is not whitespace. [prev] is
    the character before [s]. *)
Fixpoint single_spaces (prev : ascii) (s : string) : bool :=
  match s with
  | EmptyString => true
  | String c s' =>
      (if is_space c then char_eqb c " "%char && negb (is_space prev)
       else true)
      && single_spaces c s'
  end.

(** After the second: no whitespace character between a [>] and a
    [<]. *)
Fixpoint no_gap (prev : ascii) (s : string) : bool :=
  match s with
  | EmptyString => true
  | String c s' =>
      negb (is_space c && is_gt prev && first_char is_lt s')
      && no_gap c s'
  end.

(** After the third: a whitespace character is a space as above,
    though not between a [>] and a [<], or it is a line feed between a
    [>] and a [<]; and no [<] follows a [>] at once. *)
Fixpoint lines_from (prev : ascii) (s : string) : bool :=
  match s with
  | EmptyString => true
  | String c s' =>
      (if is_space c then
         (char_eqb c " "%char && negb (is_space prev)
          && negb (is_gt prev && first_char is_lt s'))
         || (is_newline c && is_gt prev && first_char is_lt s')
       else negb (is_gt prev && is_lt c))
      && lines_from c s'
  end.

Fixpoint ends_with_space (s : string) : bool :=
  match s with
  | EmptyString => false
  | String c EmptyString => is_space c
  | String _ s' => ends_with_space s'
  end.

(** A text laid out as [formatSVGContent] leaves one: one space between
    words, a line feed between a [>] and the [<] after it, no whitespace
    at either end. *)
Definition laid_out (s : string) : bool :=
  negb (first_char is_space s) && lines_from "x"%char s
  && negb (ends_with_space s).

(** [s] with every whitespace character turned into a space, and [s]
    without its line feeds. *)
Definition blanked (s : string) : string :=
  map_chars (fun c => if is_space c then " "%char else c) s.

Fixpoint unbroken (s : string) : string :=
  match s with
  | EmptyString => EmptyString
  | String c s' =>
      if is_newline c then unbroken s' else String c (unbroken s')
  end.

End Spec.

Module Scenario.
Import JsString Types Runtime.

(** The options of a run with only the two required properties. *)
Definition options_of (dir fmt : option string) : IconifyLoaderOptions :=
  {| inputDir_property := property_of dir;
     outputDir_property := Absent;
     format_property := property_of fmt;
     svgoOptions_property := Absent;
     optimize_property := Absent;
     generateIndex_property := Absent;
     typescript_property := Absent;
     reactComponentName_property := Absent;
     svgProps_property := Absent;
     fileNameFormatter_property := Absent;
     includeSubdirs_property := Absent;
     ignorePatterns_property := Absent;
     verbose_property := Absent |}.

(** The same options with [optimize: undefined]. *)
Definition undefined_optimize : IconifyLoaderOptions :=
  {| inputDir_property := Value "icons";
     outputDir_property := Absent;
     format_property := Value "svg";
     svgoOptions_property := Absent;
     optimize_property := Undefined;
     generateIndex_property := Absent;
     typescript_property := Absent;
     reactComponentName_property := Absent;
     svgProps_property := Absent;
     fileNameFormatter_property := Absent;
     includeSubdirs_property := Absent;
     ignorePatterns_property := Absent;
     verbose_property := Absent |}.

Definition with_svgo (so : SVGOOptions) (o : IconifyLoaderOptions)
  : IconifyLoaderOptions :=
  {| inputDir_property := inputDir_property o;
     outputDir_property := outputDir_property o;
     format_property := format_property o;
     svgoOptions_property := Value so;
     optimize_property := optimize_property o;
     generateIndex_property := generateIndex_property o;
     typescript_property := typescript_property o;
     reactComponentName_property := reactComponentName_property o;
     svgProps_property := svgProps_property o;
     fileNameFormatter_property := fileNameFormatter_property o;
     includeSubdirs_property := includeSubdirs_property o;
     ignorePatterns_property := ignorePatterns_property o;
     verbose_property := verbose_property o |}.

Definition with_optimize (b : bool) (o : IconifyLoaderOptions)
  : IconifyLoaderOptions :=
  {| inputDir_property := inputDir_property o;
     outputDir_property := outputDir_property o;
     format_property := format_property o;
     svgoOptions_property := svgoOptions_property o;
     optimize_property := Value b;
     generateIndex_property := generateIndex_property o;
     typescript_property := typescript_property o;
     reactComponentName_property := reactComponentName_property o;
     svgProps_property := svgProps_property o;
     fileNameFormatter_property := fileNameFormatter_property o;
     includeSubdirs_property := includeSubdirs_property o;
     ignorePatterns_property := ignorePatterns_property o;
     verbose_property := verbose_property o |}.

Definition with_index (b : bool) (o : IconifyLoaderOptions)
  : IconifyLoaderOptions :=
  {| inputDir_property := inputDir_property o;
     outputDir_property := outputDir_property o;
     format_property := format_property o;
     svgoOptions_property := svgoOptions_property o;
     optimize_property := optimize_property o;
     generateIndex_property := Value b;
     typescript_property := typescript_property o;
     reactComponentName_property := reactComponentName_property o;
     svgProps_property := svgProps_property o;
     fileNameFormatter_property := fileNameFormatter_property o;
     includeSubdirs_property := includeSubdirs_property o;
     ignorePatterns_property := ignorePatterns_property o;
     verbose_property := verbose_property o |}.

Definition with_verbose (b : bool) (o : IconifyLoaderOptions)
  : IconifyLoaderOptions :=
  {| inputDir_property := inputDir_property o;
     outputDir_property := outputDir_property o;
     format_property := format_property o;
     svgoOptions_property := svgoOptions_property o;
     optimize_property := optimize_property o;
     generateIndex_property := generateIndex_property o;
     typescript_property := typescript_property o;
     reactComponentName_property := reactComponentName_property o;
     svgProps_property := svgProps_property o;
     fileNameFormatter_property := fileNameFormatter_property o;
     includeSubdirs_property := includeSubdirs_property o;
     ignorePatterns_property := ignorePatterns_property o;
     verbose_property := Value b |}.

Definition with_naming (formatter : string -> string)
  (customProps : list (string * JsVal)) (o : IconifyLoaderOptions)
  : IconifyLoaderOptions :=
  {| inputDir_property := inputDir_property o;
     outputDir_property := outputDir_property o;
     format_property := format_property o;
     svgoOptions_property := svgoOptions_property o;
     optimize_property := optimize_property o;
     generateIndex_property := generateIndex_property o;
     typescript_property := typescript_property o;
     reactComponentName_property := reactComponentName_property o;
     svgProps_property := Value customProps;
     fileNameFormatter_property := Value formatter;
     includeSubdirs_property := includeSubdirs_property o;
     ignorePatterns_property := ignorePatterns_property o;
     verbose_property := verbose_property o |}.

(** [<svg viewBox=... width=... height=...><path d=.../></svg>], the
    icon of the scenarios. *)
Definition arrow_content : string :=
  "<svg viewBox=" +:+ dquote +:+ "0 0 24 24" +:+ dquote
    +:+ " width=" +:+ dquote +:+ "16" +:+ dquote
    +:+ " height=" +:+ dquote +:+ "16" +:+ dquote
    +:+ "><path d=" +:+ dquote +:+ "M0 0h24v24H0z" +:+ dquote
    +:+ "/></svg>".

(** The same icon as [generateSVGFile] writes it with [fill] added: the
    root tag with the new attribute last, one tag per line. *)
Definition arrow_with_fill : string :=
  "<svg viewBox=" +:+ dquote +:+ "0 0 24 24" +:+ dquote
    +:+ " width=" +:+ dquote +:+ "16" +:+ dquote
    +:+ " height=" +:+ dquote +:+ "16" +:+ dquote
    +:+ " fill=" +:+ dquote +:+ "currentColor" +:+ dquote
    +:+ ">" +:+ Generator.nl
    +:+ "<path d=" +:+ dquote +:+ "M0 0h24v24H0z" +:+ dquote +:+ "/>"
    +:+ Generator.nl +:+ "</svg>".

Definition file_of (name content : string) : FileInfo :=
  {| file_path := "icons/" +:+ name +:+ ".svg";
     file_name := name;
     file_extension := ".svg";
     file_content := content |}.

Definition arrow_file : FileInfo := file_of "arrow" arrow_content.

(** A processed icon as [processSVGs] makes it without optimization. *)
Definition item_of (file : FileInfo) : ProcessedSVG :=
  {| metadata := IconifyLoader.metadata_of file;
     content := file_content file;
     optimized := Some false |}.

(** A platform for the scenarios: a flat [path.join], a directory
    holding [dir_files], an engine answering [engine], and a file system
    on which exactly the writes to [unwritable] fail. The three text
    built-ins are placeholders; no scenario reads their output. *)
Definition platform (dir_files : list FileInfo)
  (engine : string -> EngineOutcome) (unwritable : list string) : Platform :=
  {| path_join := fun dir file => dir +:+ "/" +:+ file;
     fs_failure := fun _ c =>
       match c with
       | WriteFile f _ =>
           if bool_decide (f ∈ unwritable)
           then Some (MkError PlainError
                        ("EACCES: permission denied, open '" +:+ f +:+ "'")
                        None [])
           else None
       | _ => None
       end;
     directory_files := fun _ _ _ => Ok dir_files;
     svgo_optimize := fun input _ => engine input;
     JSON_stringify := fun _ _ => "{}";
     Number_toString := fun _ => "0";
     Date_toISOString := "2024-01-01T00:00:00.000Z";
     package_version := "1.0.0" |}.

(** Optimizer options asking for a precision of 11, and to drop the
    viewBox and keep titles, with one plugin of the user's. *)
Definition precision_11 : SVGOOptions :=
  {| plugins_property := Absent; floatPrecision_property := Value 11%float;
     transformPrecision_property := Absent; settings := ∅ |}.

Definition precision_10_0 : SVGOOptions :=
  {| plugins_property := Absent; floatPrecision_property := Value 10%float;
     transformPrecision_property := Value 0%float; settings := ∅ |}.

(** Optimizer options with [floatPrecision: undefined] and nothing
    else. *)
Definition undefined_precision : SVGOOptions :=
  {| plugins_property := Absent;
     floatPrecision_property := Undefined;
     transformPrecision_property := Absent;
     settings := ∅ |}.

Definition user_plugin : Plugin :=
  {| plugin_name := "removeDimensions"; plugin_params := None |}.

Definition user_svgo : SVGOOptions :=
  {| plugins_property := Value [user_plugin];
     floatPrecision_property := Absent;
     transformPrecision_property := Absent;
     settings := {[ "removeViewBox" := JBool true;
                    "removeTitle" := JBool false ]} |}.

Definition two_icons : list ProcessedSVG :=
  [item_of (file_of "a" arrow_content); item_of (file_of "b" arrow_content)].

Definition engine_identity (input : string) : EngineOutcome :=
  EngineReturns input None.

Definition engine_broken (input : string) : EngineOutcome :=
  EngineReturns "" (Some "parse error").

(** The namer of the scenario: [name => `icon-${name.toLowerCase()}`]. *)
Definition icon_namer (name : string) : string := "icon-" +:+ toLowerCase name.

(** Stand-ins for Node's [path.extname] and [path.basename] on the paths
    of the scenarios (segments separated by [/], at most one dot in the
    last), and for [RegExp] on patterns without special characters,
    which match where they occur. *)
Fixpoint extension_of (s : string) : string :=
  match s with
  | EmptyString => EmptyString
  | String c s' =>
      match extension_of s' with
      | EmptyString => if char_eqb c "."%char then s else EmptyString
      | ext => ext
      end
  end.

Definition base_of (p ext : string) : string :=
  let segment := List.last (split_on "/"%char p) EmptyString in
  if negb (String.eqb ext "") && endsWith ext segment
  then take (String.length segment - String.length ext) segment
  else segment.

Definition node_library : FileReader.Library :=
  {| FileReader.path_extname := extension_of;
     FileReader.path_basename := base_of;
     FileReader.RegExp_test := fun pattern s => Ok (includes pattern s) |}.

(** An error of the file system. *)
Definition EACCES (f : string) : JsError :=
  MkError PlainError ("EACCES: permission denied, open '" +:+ f +:+ "'")
    None [].

(** A directory holding the arrow icon, notes that cannot be read, a
    dependency folder, and a folder with one more icon. *)
Definition icons_listing : list FileReader.Entry :=
  [ FileReader.FileEntry "arrow.svg" (Ok arrow_content);
    FileReader.DirectoryEntry "node_modules"
      (Throw (EACCES "icons/node_modules"));
    FileReader.DirectoryEntry "more"
      (Ok [FileReader.FileEntry "dot.svg" (Ok "<svg/>")]);
    FileReader.OtherEntry "socket" ].

Definition unreadable_notes : list FileReader.Entry :=
  [ FileReader.FileEntry "arrow.svg" (Ok arrow_content);
    FileReader.FileEntry "notes.txt" (Throw (EACCES "icons/notes.txt")) ].

Definition with_output (dir : string) (o : IconifyLoaderOptions)
  : IconifyLoaderOptions :=
  {| inputDir_property := inputDir_property o;
     outputDir_property := Value dir;
     format_property := format_property o;
     svgoOptions_property := svgoOptions_property o;
     optimize_property := optimize_property o;
     generateIndex_property := generateIndex_property o;
     typescript_property := typescript_property o;
     reactComponentName_property := reactComponentName_property o;
     svgProps_property := svgProps_property o;
     fileNameFormatter_property := fileNameFormatter_property o;
     includeSubdirs_property := includeSubdirs_property o;
     ignorePatterns_property := ignorePatterns_property o;
     verbose_property := verbose_property o |}.

(** The platform of the scenarios on a file system where no directory
    can be made. *)
Definition without_mkdir (P : Platform) : Platform :=
  {| path_join := path_join P;
     fs_failure := fun trace c =>
       match c with
       | Mkdir dir => Some (EACCES dir)
       | _ => fs_failure P trace c
       end;
     directory_files := directory_files P;
     svgo_optimize := svgo_optimize P;
     JSON_stringify := JSON_stringify P;
     Number_toString := Number_toString P;
     Date_toISOString := Date_toISOString P;
     package_version := package_version P |}.

(** The platform of the scenarios with a walk that fails. *)
Definition without_input (P : Platform) : Platform :=
  {| path_join := path_join P;
     fs_failure := fs_failure P;
     directory_files := fun dir _ _ =>
       Throw (MkError FileSystemError ("Failed to read directory: " +:+ dir)
                (Some (EACCES dir)) [("dirPath", JStr dir)]);
     svgo_optimize := svgo_optimize P;
     JSON_stringify := JSON_stringify P;
     Number_toString := Number_toString P;
     Date_toISOString := Date_toISOString P;
     package_version := package_version P |}.

(** An engine that drops the last character of its input. *)
Definition engine_shorter (input : string) : EngineOutcome :=
  EngineReturns (take (String.length input - 1) input) None.

(** A file that is not an SVG. *)
Definition broken_file : FileInfo := file_of "broken" "<html></html>".

(** An engine that answers with the names of the plugins it is given,
    and a platform with an engine that reads its configuration. *)
Definition plugin_names (input : string) (config : SVGOConfig)
  : EngineOutcome :=
  EngineReturns (join "," (map plugin_name (default [] (plugins config))))
    None.

Definition with_engine (engine : string -> SVGOConfig -> EngineOutcome)
  (P : Platform) : Platform :=
  {| path_join := path_join P;
     fs_failure := fs_failure P;
     directory_files := directory_files P;
     svgo_optimize := engine;
     JSON_stringify := JSON_stringify P;
     Number_toString := Number_toString P;
     Date_toISOString := Date_toISOString P;
     package_version := package_version P |}.

(** Five icons: two with the same name, the second from a subdirectory;
    between them one named as the accessor of the prototype is, and two
    named by numbers. *)
Definition mixed_icons : list ProcessedSVG :=
  [ item_of (file_of "a" arrow_content);
    item_of (file_of "__proto__" arrow_content);
    item_of (file_of "10" arrow_content);
    item_of (file_of "9" arrow_content);
    item_of {| file_path := "icons/more/a.svg"; file_name := "a";
               file_extension := ".svg"; file_content := "<svg/>" |} ].

(** A directory with an icon whose extension is in capitals. *)
Definition capital_listing : list FileReader.Entry :=
  [ FileReader.FileEntry "Arrow.SVG" (Ok arrow_content);
    FileReader.FileEntry "notes.txt" (Ok "to do") ].

End Scenario.

(* ===================================================================== *)
(** * Properties *)
(* ===================================================================== *)

(** ** Strings and scans *)

Section StringFacts.
Import JsString.

Lemma append_cons c s t : String c s +:+ t = String c (s +:+ t).
Proof. reflexivity. Qed.

Lemma append_nil_l s : "" +:+ s = s.
Proof. reflexivity. Qed.

Lemma append_assoc (a b c : string) : (a +:+ b) +:+ c = a +:+ b +:+ c.
Proof. induction a as [|x a IH]; [done|]. rewrite !append_cons, IH. done. Qed.

Lemma append_nil_r (a : string) : a +:+ "" = a.
Proof. induction a as [|x a IH]; [done|]. rewrite append_cons, IH. done. Qed.

Lemma find_from_None {A} (m : string -> option A) s :
  find_from m s = None -> forall i, m (drop i s) = None.
Proof.
  induction s as [|c s IH]; simpl.
  - destruct (m "") eqn:E; [discriminate|]. intros _ [|i]; exact E.
  - destruct (m (String c s)) eqn:E; [discriminate|].
    destruct (find_from m s) as [[j a]|] eqn:F; [discriminate|].
    intros _ [|i]; [exact E | apply IH; reflexivity].
Qed.

(** A scan skips a prefix none of whose positions matches. *)
Lemma find_from_app {A} (m : string -> option A) pre s :
  (forall i, i < String.length pre -> m (drop i pre +:+ s) = None) ->
  find_from m (pre +:+ s)
  = (fun r => (String.length pre + fst r, snd r)) <$> find_from m s.
Proof.
  induction pre as [|c pre IH]; intros H.
  - change ("" +:+ s) with s.
    destruct (find_from m s) as [[i a]|]; reflexivity.
  - rewrite append_cons. cbn [find_from].
    change (String c (pre +:+ s)) with (drop 0 (String c pre) +:+ s).
    rewrite (H 0) by (simpl; lia).
    rewrite IH by (intros i Hi; apply (H (S i)); simpl; lia).
    destruct (find_from m s) as [[i a]|]; reflexivity.
Qed.

Lemma drop_nonempty i s : i < String.length s -> drop i s <> "".
Proof.
  revert i; induction s as [|c s IH]; intros [|i]; simpl; try lia; try done.
  intros H. apply IH. lia.
Qed.



Lemma find_from_here {A} (m : string -> option A) s a :
  m s = Some a -> find_from m s = Some (0, a).
Proof. intros H. destruct s; simpl; rewrite H; reflexivity. Qed.

Lemma skip_spaces_nonspace c s :
  is_space c = false -> skip_spaces (String c s) = String c s.
Proof. intros H. unfold skip_spaces. simpl. rewrite H. reflexivity. Qed.


End StringFacts.


(** ** FileReader.extractSVGAttributes *)

Section AttributeScan.
Import JsString Types Runtime FileReader Spec.




End AttributeScan.

(** ** Option validation: IconifyLoader.validateOptions and the constructor *)

Section Validation.
Import JsString Types Runtime Spec Scenario.
Import IconifyLoader.

Lemma nonempty_missing v : nonempty v = false <-> missing v.
Proof.
  unfold nonempty, missing. destruct v as [s|].
  - destruct (String.eqb_spec s "") as [->|Hne]; simpl; split; auto;
      try discriminate.
    intros [H|H]; [discriminate|]. congruence.
  - split; auto.
Qed.

Lemma load_invalid P o e w :
  new o = Throw e -> load P o w = (Throw e, w).
Proof. intros H. unfold load, lift, mbind, M_bind. rewrite H. reflexivity. Qed.

(** C6. A configuration whose [inputDir] or [format] is missing, or whose
    [format] is none of svg, react and json, is rejected by the
    constructor with a [ValidationError]; [load] throws it with the world
    untouched, so before any file-system call: no file is written. *)
Theorem missing_or_bad_format_rejected (o : IconifyLoaderOptions) :
  missing (inputDir o) \/ missing (format o) \/ unsupported (format o) ->
  exists e,
    error_class e = ValidationError /\
    new o = Throw e /\
    (forall P w, load P o w = (Throw e, w)) /\
    (forall P, written (snd (load P o initial_world)) = []).
Proof.
  intros H.
  assert (exists e, error_class e = ValidationError /\ new o = Throw e)
    as (e & He & Hnew).
  { unfold new, validateOptions.
    destruct (nonempty (inputDir o)) eqn:Hi; simpl;
      [|eexists; (split; [|reflexivity]); reflexivity].
    destruct (nonempty (format o)) eqn:Hf; simpl;
      [|eexists; (split; [|reflexivity]); reflexivity].
    case_bool_decide as Hin; simpl; [|eexists; (split; [|reflexivity]); reflexivity].
    exfalso. destruct H as [H|[H|H]].
    - apply nonempty_missing in H. congruence.
    - apply nonempty_missing in H. congruence.
    - destruct H as (f & Hf' & Hnot). rewrite Hf' in Hin. simpl in Hin. done. }
  exists e. split; [done|]. split; [done|]. split.
  - intros P w. by apply load_invalid.
  - intros P. by rewrite (load_invalid P o e initial_world Hnew).
Qed.

Lemma SFcompare_antisym a b :
  SFcompare b a = CompOpp <$> SFcompare a b.
Proof.
  destruct a as [[]|[]| |[] m1 e1], b as [[]|[]| |[] m2 e2]; try reflexivity;
    simpl; rewrite (Z.compare_antisym e1 e2);
    destruct (e1 ?= e2)%Z; simpl; try reflexivity;
    rewrite (Pos.compare_cont_antisym m1 m2 Eq); simpl;
    rewrite ?CompOpp_involutive; reflexivity.
Qed.

(** On doubles, [a <= b] excludes [b < a]. *)
Lemma leb_not_gt a b : PrimFloat.leb a b = true -> PrimFloat.ltb b a = false.
Proof.
  rewrite leb_spec, ltb_spec. unfold SFleb, SFltb.
  rewrite (SFcompare_antisym (Prim2SF a) (Prim2SF b)).
  destruct (SFcompare (Prim2SF a) (Prim2SF b)) as [[]|]; simpl; congruence.
Qed.

Lemma inside_not_out_of_range x :
  inside_0_10 x -> SVGOptimizer.out_of_range x = false.
Proof.
  intros [H0 H10]. unfold SVGOptimizer.out_of_range.
  rewrite (leb_not_gt _ _ H0), (leb_not_gt _ _ H10). reflexivity.
Qed.

Lemma outside_out_of_range x :
  outside_0_10 x <-> SVGOptimizer.out_of_range x = true.
Proof.
  unfold outside_0_10, SVGOptimizer.out_of_range.
  rewrite orb_true_iff. reflexivity.
Qed.

Lemma required_ok_passes o :
  required_ok o ->
  validateOptions o =
    match svgoOptions o with
    | Some so => SVGOptimizer.validateOptions so
    | None => Ok ()
    end.
Proof.
  intros (Hi & Hf & Hu). unfold validateOptions.
  destruct (nonempty (inputDir o)) eqn:E1; simpl;
    [|exfalso; apply Hi, nonempty_missing, E1].
  destruct (nonempty (format o)) eqn:E2; simpl;
    [|exfalso; apply Hf, nonempty_missing, E2].
  case_bool_decide as Hin; simpl; [done|].
  exfalso. apply Hu. destruct (format o) as [f|]; [|done].
  exists f. done.
Qed.

(** C7, as amended. Once the checks of [inputDir] and [format] pass, a
    [floatPrecision] or [transformPrecision] below 0 or above 10 makes
    the constructor throw an [SVGProcessingError], which [load] throws
    with the world untouched; precisions from 0 to 10, both ends
    included, pass. *)
Theorem precision_checked_after_required_fields
  (o : IconifyLoaderOptions) (so : SVGOOptions) :
  required_ok o -> svgoOptions o = Some so ->
  ((exists x, (floatPrecision so = Some x \/ transformPrecision so = Some x)
              /\ outside_0_10 x) ->
   exists e, error_class e = SVGProcessingError /\ new o = Throw e /\
             forall P w, load P o w = (Throw e, w))
  /\
  ((forall x, floatPrecision so = Some x -> inside_0_10 x) ->
   (forall x, transformPrecision so = Some x -> inside_0_10 x) ->
   new o = Ok {| options := o |} /\ SVGOptimizer.validateOptions so = Ok ()).
Proof.
  intros Hreq Hso. split.
  - intros (x & Hx & Hout).
    assert (exists e, error_class e = SVGProcessingError /\ new o = Throw e)
      as (e & He & Hnew).
    { unfold new. rewrite (required_ok_passes o Hreq), Hso.
      apply outside_out_of_range in Hout.
      unfold SVGOptimizer.validateOptions.
      destruct (floatPrecision so) as [fp|] eqn:Efp; simpl.
      - destruct (SVGOptimizer.out_of_range fp) eqn:E; simpl;
          [eexists; (split; [|reflexivity]); reflexivity|].
        destruct Hx as [Hx|Hx]; [congruence|]. rewrite Hx, Hout. simpl.
        eexists; (split; [|reflexivity]); reflexivity.
      - destruct Hx as [Hx|Hx]; [congruence|]. rewrite Hx, Hout. simpl.
        eexists; (split; [|reflexivity]); reflexivity. }
    exists e. split; [done|]. split; [done|].
    intros P w. by apply load_invalid.
  - intros Hfp Htp.
    assert (SVGOptimizer.validateOptions so = Ok ()) as Hv.
    { unfold SVGOptimizer.validateOptions.
      destruct (floatPrecision so) as [fp|]; simpl.
      - rewrite (inside_not_out_of_range fp) by (by apply Hfp). simpl.
        destruct (transformPrecision so) as [tp|]; [|done].
        rewrite (inside_not_out_of_range tp) by (by apply Htp). done.
      - destruct (transformPrecision so) as [tp|]; [|done].
        rewrite (inside_not_out_of_range tp) by (by apply Htp). done. }
    split; [|done].
    unfold new. rewrite (required_ok_passes o Hreq), Hso, Hv. reflexivity.
Qed.

Lemma missing_None : missing None.
Proof. by left. Qed.

Lemma required_ok_icons fmt :
  fmt ∈ validFormats -> required_ok (options_of (Some "icons") (Some fmt)).
Proof.
  intros Hin. split; [|split].
  - intros [H|H]; discriminate.
  - intros [H|H]; [discriminate|]. injection H as ->.
    apply list_elem_of_In in Hin. simpl in Hin.
    destruct Hin as [H|[H|[H|[]]]]; discriminate.
  - intros (f & [= <-] & Hf). done.
Qed.

Lemma missing_or_bad_format_rejected_witness :
  (missing (inputDir (options_of None (Some "svg")))
   \/ missing (format (options_of None (Some "svg")))
   \/ unsupported (format (options_of None (Some "svg")))) /\
  exists e,
    error_class e = ValidationError /\
    new (options_of None (Some "svg")) = Throw e /\
    (forall P w, load P (options_of None (Some "svg")) w = (Throw e, w)) /\
    (forall P,
        written (snd (load P (options_of None (Some "svg")) initial_world))
        = []).
Proof.
  split; [left; apply missing_None|].
  apply (missing_or_bad_format_rejected (options_of None (Some "svg"))).
  left. apply missing_None.
Defined.

(** C7 as stated fails where an earlier check fails: with no [inputDir]
    and a [floatPrecision] of 11 the error is the [ValidationError] of
    the missing directory. *)
Lemma precision_error_preempted_by_missing_inputDir :
  (floatPrecision precision_11 = Some 11%float) /\
  outside_0_10 11 /\
  new (with_svgo precision_11 (options_of None (Some "svg")))
  = Throw (MkError ValidationError "Input directory is required" None []) /\
  (forall P w,
      load P (with_svgo precision_11 (options_of None (Some "svg"))) w
      = (Throw (MkError ValidationError "Input directory is required" None []),
         w)) /\
  ValidationError <> SVGProcessingError.
Proof.
  split; [reflexivity|]. split; [right; reflexivity|].
  split; [reflexivity|]. split; [reflexivity|]. discriminate.
Qed.

Lemma precision_checked_after_required_fields_witness :
  required_ok (with_svgo precision_11 (options_of (Some "icons") (Some "svg")))
  /\ (exists x, (floatPrecision precision_11 = Some x
                 \/ transformPrecision precision_11 = Some x)
                /\ outside_0_10 x)
  /\ (exists e, error_class e = SVGProcessingError /\
                new (with_svgo precision_11
                       (options_of (Some "icons") (Some "svg"))) = Throw e)
  /\ required_ok (with_svgo precision_10_0
                    (options_of (Some "icons") (Some "svg")))
  /\ new (with_svgo precision_10_0 (options_of (Some "icons") (Some "svg")))
     = Ok {| options := with_svgo precision_10_0
                          (options_of (Some "icons") (Some "svg")) |}.
Proof.
  assert (Hsvg : "svg" ∈ validFormats) by (apply list_elem_of_In; simpl; auto).
  assert (Hout : exists x, (floatPrecision precision_11 = Some x
                            \/ transformPrecision precision_11 = Some x)
                           /\ outside_0_10 x).
  { exists 11%float. split; [left; reflexivity | right; reflexivity]. }
  split; [apply (required_ok_icons "svg" Hsvg)|].
  split; [exact Hout|].
  split.
  - destruct (precision_checked_after_required_fields
                (with_svgo precision_11 (options_of (Some "icons") (Some "svg")))
                precision_11 (required_ok_icons "svg" Hsvg) eq_refl)
      as [Hbad _].
    destruct (Hbad Hout) as (e & He & Hnew & _). exists e. split; assumption.
  - split; [apply (required_ok_icons "svg" Hsvg)|].
    destruct (precision_checked_after_required_fields
                (with_svgo precision_10_0 (options_of (Some "icons") (Some "svg")))
                precision_10_0 (required_ok_icons "svg" Hsvg) eq_refl)
      as [_ Hgood].
    apply Hgood.
    + intros x [= <-]. split; reflexivity.
    + intros x [= <-]. split; reflexivity.
Defined.
End Validation.

(** ** SVGOptimizer: the plugin list *)

Section Plugins.
Import JsString Types Runtime Spec Scenario.
Import SVGOptimizer.

Lemma merged_plugins u : plugins (mergeOptions u) = Some (default [] (plugins u)).
Proof.
  unfold mergeOptions, spread, with_plugins, plugins.
  destruct (plugins_property u); reflexivity.
Qed.

Lemma merged_settings u :
  settings (mergeOptions u) = settings u ∪ settings defaultOptions.
Proof.
  unfold mergeOptions, spread, with_plugins, plugins.
  destruct (plugins_property u); reflexivity.
Qed.

Lemma merged_setting_user u k v :
  settings u !! k = Some v -> setting (mergeOptions u) k = v.
Proof.
  intros H. unfold setting. rewrite merged_settings.
  by rewrite (lookup_union_Some_l _ _ _ _ H).
Qed.

Lemma merged_setting_default u k :
  settings u !! k = None ->
  setting (mergeOptions u) k = setting defaultOptions k.
Proof.
  intros H. unfold setting. rewrite merged_settings.
  by rewrite (lookup_union_r _ _ _ H).
Qed.

(** What the overrides hold for a toggle: one of the two forms. *)
Ltac toggle_form :=
  match goal with
  | |- obj_get ?k (overrides ?o) = _ =>
      first
        [ change (obj_get k (overrides o))
            with (js_or (setting o k) (JBool false))
        | change (obj_get k (overrides o))
            with (JBool (is_not_false (setting o k))) ]
  end.

(** The list [buildSVGOPlugins] makes from the merged options is the
    one [preset-default] entry followed by the user's plugins, in their
    order and all of them. In the overrides of the entry [removeViewBox]
    is [false] whatever the user set; each other toggle is the boolean
    the user gave, or the default one where the user gave none. *)
Lemma built_plugins (u : SVGOOptions) :
  exists ov,
    buildSVGOPlugins (mergeOptions u) = preset ov :: default [] (plugins u)
    /\ obj_get "removeViewBox" ov = JBool false
    /\ (forall k b, k ∈ preset_toggles ->
                    settings u !! k = Some (JBool b) -> obj_get k ov = JBool b)
    /\ (forall k, k ∈ preset_toggles ->
                  settings u !! k = None ->
                  obj_get k ov = setting defaultOptions k).
Proof.
  exists (overrides (mergeOptions u)). split; [|split; [|split]].
  - unfold buildSVGOPlugins. rewrite merged_plugins. reflexivity.
  - reflexivity.
  - intros k b Hk Hu. unfold preset_toggles in Hk.
    repeat (apply elem_of_cons in Hk as [->|Hk]);
      [ .. | by apply elem_of_nil in Hk ];
      toggle_form; rewrite (merged_setting_user _ _ _ Hu); by destruct b.
  - intros k Hk Hu. unfold preset_toggles in Hk.
    repeat (apply elem_of_cons in Hk as [->|Hk]);
      [ .. | by apply elem_of_nil in Hk ];
      toggle_form; rewrite (merged_setting_default _ _ Hu); reflexivity.
Qed.

(** The configuration [optimizeSVG] hands to the engine spreads the
    merged options after the [plugins] key, and the merged options always
    carry [plugins]: the engine is given the user's plugins alone. *)
Remark svgoConfig_plugins (u : SVGOOptions) :
  plugins (svgoConfig (mergeOptions u)) = Some (default [] (plugins u)).
Proof.
  pose proof (merged_plugins u) as H. unfold svgoConfig, spread, plugins in *.
  cbn [plugins_property]. by destruct (plugins_property (mergeOptions u)).
Qed.

(** C5. [buildSVGOPlugins] makes the list the claim describes, the
    [preset-default] entry with [removeViewBox] false and the user's
    plugins after it, but that list never reaches the engine:
    [optimizeSVG] spreads the merged options, which always carry
    [plugins], after it, so the engine is given the user's plugins
    alone. At the scenario, with the user asking for one plugin, an
    engine that answers with the names of the plugins it is given
    answers with that plugin's name only. *)
Theorem engine_is_given_no_preset (u : SVGOOptions) :
  (exists ov,
      buildSVGOPlugins (mergeOptions u) = preset ov :: default [] (plugins u)
      /\ obj_get "removeViewBox" ov = JBool false)
  /\ plugins (svgoConfig (mergeOptions u)) = Some (default [] (plugins u))
  /\ plugins (svgoConfig (mergeOptions u))
     <> Some (buildSVGOPlugins (mergeOptions u))
  /\ plugins user_svgo = Some [user_plugin]
  /\ fst (optimizeSVG
            (with_engine plugin_names (platform [] engine_identity []))
            arrow_content (Some user_svgo) "arrow" initial_world)
     = Ok (plugin_name user_plugin).
Proof.
  destruct (built_plugins u) as (ov & Hlist & Hview & _).
  split; [by exists ov|]. split; [apply svgoConfig_plugins|].
  split; [|split; reflexivity].
  rewrite svgoConfig_plugins, Hlist. intros [= H].
  apply (f_equal length) in H. cbn [length] in H. lia.
Qed.

End Plugins.

(** ** Tidy markup *)

Section Tidy.
Import JsString Types Runtime Generator Spec Scenario.

Lemma replace_all_id r m s :
(forall i, m (drop i s) = None) -> replace_all (replacing r m) s = s.
Proof.
unfold replace_all. induction s as [|c s IH]; intros H; [done|].
cbn [replace_all_from]. unfold replacing at 1.
pose proof (H 0) as H0. cbn [drop] in H0. rewrite H0.
cbn. f_equal. apply IH. intros i. apply (H (S i)).
Qed.

Lemma index_of_None_drop p s i :
index_of p s = None -> strip_prefix p (drop i s) = None.
Proof.
unfold index_of. intros H. apply find_from_None.
destruct (find_from _ s); [discriminate|done].
Qed.

Lemma single_spaced_drop s i :
single_spaced s = true -> single_spaced (drop i s) = true.
Proof.
revert i. induction s as [|c s IH]; intros [|i] H; try done.
cbn [drop]. apply IH. cbn [single_spaced] in H.
apply andb_true_iff in H as [_ H]. exact H.
Qed.

Lemma tidy_spaces s :
single_spaced s = true -> replace_all (replacing " " re_spaces) s = s.
Proof.
unfold replace_all. induction s as [|c s IH]; intros H; [done|].
cbn [single_spaced] in H. apply andb_true_iff in H as [Hc Hs].
cbn [replace_all_from]. unfold replacing at 1, re_spaces at 1.
cbn [span]. destruct (is_space c) eqn:Ec.
- apply andb_true_iff in Hc as [Hblank Hnext].
  apply Ascii.eqb_eq in Hblank. subst c.
  destruct s as [|d s]; [done|].
  cbn [span]. apply negb_true_iff in Hnext. rewrite Hnext.
  cbn. f_equal. by apply IH.
- cbn. f_equal. by apply IH.
Qed.

Lemma tidy_gaps s :
single_spaced s = true -> index_of "> <" s = None ->
replace_all (replacing "><" re_gt_spaces_lt) s = s.
Proof.
intros Hs Hgap. apply replace_all_id. intros i.
pose proof (single_spaced_drop s i Hs) as Hi.
pose proof (index_of_None_drop "> <" s i Hgap) as Hp.
destruct (drop i s) as [|c t]; [done|].
unfold re_gt_spaces_lt.
destruct (Ascii.eqb_spec c ">") as [->|Hne].
- cbn [single_spaced] in Hi. apply andb_true_iff in Hi as [_ Hi].
  destruct t as [|d t]; [done|].
  cbn [span]. destruct (is_space d) eqn:Ed; [|done].
  cbn [single_spaced] in Hi. rewrite Ed in Hi.
  apply andb_true_iff in Hi as [Hd _].
  apply andb_true_iff in Hd as [Hblank Hnext].
  apply Ascii.eqb_eq in Hblank. subst d.
  destruct t as [|e t]; [done|].
  apply negb_true_iff in Hnext. cbn [span]. rewrite Hnext.
  destruct (Ascii.eqb_spec e "<") as [->|Hne]; [discriminate Hp|].
  destruct e as [[] [] [] [] [] [] [] []]; try done.
- destruct c as [[] [] [] [] [] [] [] []]; try done.
Qed.

Lemma strip_prefix_shorter a b p s :
  strip_prefix (String a (String b EmptyString)) s = None ->
  strip_prefix (String a (String b p)) s = None.
Proof.
  unfold strip_prefix. cbn [strip_prefix_by].
  destruct s as [|x [|y s]]; try done.
  destruct (char_eqb a x); [|done]. destruct (char_eqb b y); done.
Qed.

Lemma tidy_no_declaration s :
  index_of "<?" s = None ->
  replace_all (replacing "" re_xml_declaration) s = s.
Proof.
  intros H. apply replace_all_id. intros i. unfold re_xml_declaration.
  rewrite (strip_prefix_shorter "<" "?" "xml" _ (index_of_None_drop _ s i H)).
  reflexivity.
Qed.

Lemma tidy_no_doctype s :
  index_of "<!" s = None -> replace_all (replacing "" re_doctype) s = s.
Proof.
  intros H. apply replace_all_id. intros i. unfold re_doctype.
  rewrite (strip_prefix_shorter "<" "!" "DOCTYPE" _ (index_of_None_drop _ s i H)).
  reflexivity.
Qed.

Lemma tidy_no_comment s :
  index_of "<!" s = None -> replace_all (replacing "" re_comment) s = s.
Proof.
  intros H. apply replace_all_id. intros i. unfold re_comment.
  rewrite (strip_prefix_shorter "<" "!" "--" _ (index_of_None_drop _ s i H)).
  reflexivity.
Qed.

Lemma tidy_one_line s :
  single_spaced s = true -> split_on (ascii_of_N 10) s = [s].
Proof.
  induction s as [|c s IH]; intros H; [done|].
  cbn [single_spaced] in H. apply andb_true_iff in H as [Hc Hs].
  cbn [split_on]. rewrite (IH Hs).
  destruct (char_eqb c (ascii_of_N 10)) eqn:E; [|done].
  apply Ascii.eqb_eq in E. subst c. discriminate Hc.
Qed.

Lemma tidy_trimEnd s : single_spaced s = true -> trimEnd s = s.
Proof.
  induction s as [|c s IH]; intros H; [done|].
  cbn [single_spaced] in H. apply andb_true_iff in H as [Hc Hs].
  cbn [trimEnd]. rewrite (IH Hs).
  destruct s as [|d s]; [|done].
  destruct (is_space c); [|done].
  apply andb_true_iff in Hc as [_ Hc]. discriminate Hc.
Qed.

Lemma tidy_trim s :
  single_spaced s = true -> starts_clean s = true -> trim s = s.
Proof.
  intros Hs Hc. unfold trim, trimStart, skip_spaces.
  destruct s as [|c s]; [done|].
  cbn [starts_clean] in Hc. apply negb_true_iff in Hc.
  cbn [span]. rewrite Hc. cbn [snd]. by apply tidy_trimEnd.
Qed.

(** On tidy markup [prepareSVGContent] changes nothing. *)
Lemma prepare_tidy svg :
  tidy (content svg) -> ReactGenerator.prepareSVGContent svg = content svg.
Proof.
  intros (Hs & Hc & Hgap & Hq & Hb).
  unfold ReactGenerator.prepareSVGContent.
  rewrite (tidy_no_declaration _ Hq), (tidy_no_doctype _ Hb),
    (tidy_no_comment _ Hb), (tidy_spaces _ Hs), (tidy_gaps _ Hs Hgap),
    (tidy_one_line _ Hs).
  cbn [imap join ReactGenerator.indent_line]. by apply tidy_trim.
Qed.
End Tidy.

(** ** ReactGenerator: the component text *)

Section ReactComponent.
Import JsString Types Runtime Spec Scenario Generator.
Import ReactGenerator.

(** C8. For every icon, component name and configuration, the text of
    the component is: a head, the default props [size] and [fill] with
    the props spread, the opening tag of the wrapper with its
    [viewBox] of 0 0 24 24, the markup [prepareSVGContent] made from the
    icon's content, put there as it is, the closing tag, a tail. On tidy
    markup, as an optimizer leaves it, what is put there is the content
    itself. The text does not depend on the icon's metadata, its viewBox
    included. *)
Theorem component_wraps_markup_in_fixed_viewBox
  (P : Platform) (svg : ProcessedSVG) (componentName : string)
  (o : IconifyLoaderOptions) :
  (exists head tail,
      renderComponent (createComponentTemplate P svg componentName o)
      = head +:+ wrapper_before +:+ prepareSVGContent svg
          +:+ wrapper_after +:+ tail)
  /\ (tidy (content svg) -> prepareSVGContent svg = content svg)
  /\ (forall m,
         renderComponent
           (createComponentTemplate P (with_metadata m svg) componentName o)
         = renderComponent (createComponentTemplate P svg componentName o)).
Proof.
  split; [|split; [apply prepare_tidy | reflexivity]].
  unfold renderComponent, createComponentTemplate.
  cbn [Types.componentName template_typescript svgContent].
  destruct (flag (typescript o)).
  - exists ("import React from 'react';" +:+ nl +:+ nl
            +:+ "export interface " +:+ componentName
            +:+ "Props extends React.SVGProps<SVGSVGElement> {" +:+ nl
            +:+ "  size?: number | string;" +:+ nl +:+ "}" +:+ nl +:+ nl
            +:+ "const " +:+ componentName +:+ ": React.FC<" +:+ componentName
            +:+ "Props> = ({" +:+ nl),
      ("  );" +:+ nl +:+ "};" +:+ nl +:+ nl
       +:+ "export default " +:+ componentName +:+ ";" +:+ nl).
    cbn [signature wrapper_open wrapper_close app join].
    rewrite !append_assoc. reflexivity.
  - exists ("import React from 'react';" +:+ nl +:+ nl
            +:+ "const " +:+ componentName +:+ " = ({" +:+ nl),
      ("  );" +:+ nl +:+ "};" +:+ nl +:+ nl
       +:+ "export default " +:+ componentName +:+ ";" +:+ nl).
    cbn [signature wrapper_open wrapper_close app join].
    rewrite !append_assoc. reflexivity.
Qed.

(** The arrow icon, whose markup is tidy, in a component [Arrow]. *)
Lemma component_wraps_markup_in_fixed_viewBox_witness :
  tidy arrow_content
  /\ exists head tail,
      renderComponent
        (createComponentTemplate (platform [] engine_identity [])
           (item_of arrow_file) "Arrow"
           (options_of (Some "icons") (Some "react")))
      = head +:+ wrapper_before +:+ arrow_content +:+ wrapper_after +:+ tail.
Proof.
  assert (Htidy : tidy arrow_content) by (repeat split; reflexivity).
  split; [exact Htidy|].
  destruct (component_wraps_markup_in_fixed_viewBox
              (platform [] engine_identity []) (item_of arrow_file) "Arrow"
              (options_of (Some "icons") (Some "react")))
    as ((head & tail & Htext) & Hsame & _).
  exists head, tail. rewrite Htext, (Hsame Htidy). reflexivity.
Defined.

End ReactComponent.

(** ** The runtime *)

Section RuntimeFacts.
Import Types Runtime Spec.

Lemma bind_run {A B} (m : M A) (f : A -> M B) w :
  (m ≫= f) w = match m w with
               | (Ok a, w') => f a w'
               | (Throw e, w') => (Throw e, w')
               end.
Proof. reflexivity. Qed.

Lemma try_catch_run {A} (m : M A) h w :
  try_catch m h w = match m w with
                    | (Ok a, w') => (Ok a, w')
                    | (Throw e, w') => h e w'
                    end.
Proof. reflexivity. Qed.

Lemma when_run b (m : M unit) w :
  when b m w = if b then m w else (Ok (), w).
Proof. destruct b; reflexivity. Qed.

Lemma lift_run {A} (r : Result A) w : lift r w = (r, w).
Proof. reflexivity. Qed.

Lemma silent_ret {A} (a : A) : engine_silent (mret a).
Proof. intros w. reflexivity. Qed.

Lemma silent_throw {A} e : engine_silent (@throw A e).
Proof. intros w. reflexivity. Qed.

Lemma silent_lift {A} (r : Result A) : engine_silent (lift r).
Proof. intros w. reflexivity. Qed.

Lemma silent_bind {A B} (m : M A) (f : A -> M B) :
  engine_silent m -> (forall a, engine_silent (f a)) -> engine_silent (m ≫= f).
Proof.
  intros Hm Hf w. rewrite bind_run. specialize (Hm w).
  destruct (m w) as [[a|e] w']; simpl in *; [|done].
  rewrite Hf. done.
Qed.

Lemma silent_try_catch {A} (m : M A) h :
  engine_silent m -> (forall e, engine_silent (h e)) ->
  engine_silent (try_catch m h).
Proof.
  intros Hm Hh w. rewrite try_catch_run. specialize (Hm w).
  destruct (m w) as [[a|e] w']; simpl in *; [done|].
  rewrite Hh. done.
Qed.

Lemma silent_fs_call P c : engine_silent (fs_call P c).
Proof. intros w. unfold fs_call. destruct (fs_failure _ _ _); reflexivity. Qed.

Lemma silent_console_call c : engine_silent (console_call c).
Proof. intros w. reflexivity. Qed.

Lemma silent_when b m : engine_silent m -> engine_silent (when b m).
Proof. intros H. destruct b; [done|apply silent_ret]. Qed.

Lemma silent_if {A} (b : bool) (m1 m2 : M A) :
  engine_silent m1 -> engine_silent m2 -> engine_silent (if b then m1 else m2).
Proof. by destruct b. Qed.
End RuntimeFacts.

Import Types Runtime Spec.
Create HintDb silent discriminated.
#[local] Hint Resolve silent_ret silent_throw silent_lift silent_fs_call
silent_console_call silent_when silent_if : silent.
#[local] Hint Extern 2 (engine_silent (_ ≫= _)) =>
apply silent_bind; [|intros ?] : silent.
#[local] Hint Extern 2 (engine_silent (try_catch _ _)) =>
apply silent_try_catch; [|intros ?] : silent.

(** ** The generators never call the engine *)

Section GeneratorsSilent.
Import Types Runtime Generator.

Lemma silent_react_each P o svgs r :
  engine_silent (ReactGenerator.generate_each P o svgs r).
Proof.
  revert r. induction svgs as [|svg svgs IH]; intros r; simpl.
  - auto with silent.
  - apply silent_bind; [|intros ?; apply IH].
    unfold ReactGenerator.generate_item, ReactGenerator.generateComponentFile.
    auto 10 with silent.
Qed.

Lemma silent_react P svgs o :
  engine_silent (ReactGenerator.generateComponents P svgs o).
Proof.
  unfold ReactGenerator.generateComponents, ReactGenerator.generate_index,
    ReactGenerator.generateIndexFile, ensure_output, ensureOutputDirectory.
  pose proof (silent_react_each P o svgs).
  auto 12 with silent.
Qed.
Lemma silent_svg_each P o svgs r :
  engine_silent (SVGGenerator.generate_each P o svgs r).
Proof.
  revert r. induction svgs as [|svg svgs IH]; intros r; simpl.
  - auto with silent.
  - apply silent_bind; [|intros ?; apply IH].
    unfold SVGGenerator.generate_item, SVGGenerator.generateSVGFile.
    auto 10 with silent.
Qed.

Lemma silent_svg P svgs o :
  engine_silent (SVGGenerator.generateSVGs P svgs o).
Proof.
  unfold SVGGenerator.generateSVGs, SVGGenerator.generate_index,
    SVGGenerator.generateIndexFile, ensure_output, ensureOutputDirectory.
  pose proof (silent_svg_each P o svgs).
  auto 12 with silent.
Qed.

Lemma silent_json_each P o svgs fs :
  engine_silent (JSONGenerator.generateIndividualJSONFiles_from P o svgs fs).
Proof.
  revert fs. induction svgs as [|svg svgs IH]; intros fs; simpl.
  - auto with silent.
  - apply silent_bind; [|intros ?; apply IH].
    unfold JSONGenerator.generate_individual_item. auto 10 with silent.
Qed.

Lemma silent_json P svgs o :
  engine_silent (JSONGenerator.generateJSON P svgs o).
Proof.
  unfold JSONGenerator.generateJSON, JSONGenerator.generate_main,
    JSONGenerator.generate_individual, JSONGenerator.generateJSONFile,
    JSONGenerator.generateIndividualJSONFiles,
    ensure_output, ensureOutputDirectory.
  pose proof (silent_json_each P o svgs []).
  auto 12 with silent.
Qed.

End GeneratorsSilent.

(** ** The generators: what they attempt and what they return *)

Section GeneratorRuns.
Import JsString Generator Spec.

Lemma attempted_record_fs ev w :
  attempted (record_fs ev w)
  = attempted w ++ match call ev with WriteFile f _ => [f] | _ => [] end.
Proof.
  unfold attempted, record_fs. cbn [fs_trace]. rewrite omap_app. f_equal.
  simpl. destruct (call ev); reflexivity.
Qed.

Lemma attempted_record_console c w :
  attempted (record_console c w) = attempted w.
Proof. reflexivity. Qed.

Lemma fs_call_run P c w :
  fs_call P c w
  = (match fs_failure P (fs_trace w) c with
     | Some e => Throw e
     | None => Ok ()
     end,
     record_fs {| call := c; failure := fs_failure P (fs_trace w) c |} w).
Proof. unfold fs_call. destruct (fs_failure _ _ _); reflexivity. Qed.

Lemma extends_refl r : extends r r.
Proof. split; done. Qed.

Lemma extends_trans r1 r2 r3 : extends r1 r2 -> extends r2 r3 -> extends r1 r3.
Proof. intros [H1 H2] [H3 H4]. split; set_solver. Qed.

Lemma extends_push_file f r : extends r (push_file f r).
Proof. split; cbn; set_solver. Qed.

Lemma extends_push_error msg r : extends r (push_error msg r).
Proof. split; cbn; set_solver. Qed.

Lemma step_extends f entry r r' : step f entry r r' -> extends r r'.
Proof.
  intros [->|(cause & ->)]; [apply extends_push_file|apply extends_push_error].
Qed.

Lemma step_length f entry r r' :
  step f entry r r' ->
  length (files r') + length (errors r')
  = S (length (files r) + length (errors r)).
Proof.
  intros [->|(cause & ->)]; cbn; rewrite length_app; simpl; lia.
Qed.

(** The script for a step that writes one file under a [try]. *)
Ltac write_step :=
  match goal with |- context [WriteFile _ ?d] => generalize d end;
  intros data;
  rewrite try_catch_run, !bind_run, fs_call_run;
  destruct (fs_failure _ _ _) as [cause|];
  match goal with
  | o : IconifyLoaderOptions |- _ => destruct (flag (verbose o))
  end;
  (eexists _, _; split; [reflexivity|]);
  cbn [record_console];
  rewrite ?attempted_record_console, attempted_record_fs;
  (split; [reflexivity|]);
  first [ by left | right; by exists cause ].

(** One item of the React loop: the write of its file is attempted, and
    the item ends in [files] or in [errors]. *)
Lemma react_item_run P o svg r w :
  exists r' w',
    ReactGenerator.generate_item P o svg r w = (Ok r', w')
    /\ attempted w' = attempted w ++ [react_item_path P o svg]
    /\ step (react_item_path P o svg) (react_item_error svg) r r'.
Proof.
  unfold ReactGenerator.generate_item, ReactGenerator.generateComponentFile.
  fold (react_item_path P o svg). unfold step, react_item_error.
  write_step.
Qed.

Lemma svg_item_run P o svg r w :
  exists r' w',
    SVGGenerator.generate_item P o svg r w = (Ok r', w')
    /\ attempted w' = attempted w ++ [svg_item_path P o svg]
    /\ step (svg_item_path P o svg) (svg_item_error svg) r r'.
Proof.
  unfold SVGGenerator.generate_item, SVGGenerator.generateSVGFile.
  fold (svg_item_path P o svg). unfold step, svg_item_error.
  write_step.
Qed.

Lemma settled_step_react P o svg r r' :
  step (react_item_path P o svg) (react_item_error svg) r r' ->
  react_item_settled P o r' svg.
Proof.
  intros [->|(cause & ->)]; [left|right; exists cause]; cbn; set_solver.
Qed.

Lemma settled_step_svg P o svg r r' :
  step (svg_item_path P o svg) (svg_item_error svg) r r' ->
  svg_item_settled P o r' svg.
Proof.
  intros [->|(cause & ->)]; [left|right; exists cause]; cbn; set_solver.
Qed.

Lemma react_settled_extends P o r r' svg :
  extends r r' -> react_item_settled P o r svg -> react_item_settled P o r' svg.
Proof.
  intros [Hf He] [H|(cause & H)]; [left|right; exists cause]; set_solver.
Qed.

Lemma svg_settled_extends P o r r' svg :
  extends r r' -> svg_item_settled P o r svg -> svg_item_settled P o r' svg.
Proof.
  intros [Hf He] [H|(cause & H)]; [left|right; exists cause]; set_solver.
Qed.

(** The loops: every item is attempted and accounted for. *)
Lemma react_each_run P o svgs r w :
  exists r' w',
    ReactGenerator.generate_each P o svgs r w = (Ok r', w')
    /\ attempted w' = attempted w ++ map (react_item_path P o) svgs
    /\ length (files r') + length (errors r')
       = length (files r) + length (errors r) + length svgs
    /\ extends r r'
    /\ Forall (react_item_settled P o r') svgs.
Proof.
  revert r w. induction svgs as [|svg svgs IH]; intros r w.
  - exists r, w. simpl. rewrite app_nil_r.
    split; [done|]. split; [done|]. split; [lia|].
    split; [apply extends_refl|constructor].
  - cbn [ReactGenerator.generate_each]. rewrite bind_run.
    destruct (react_item_run P o svg r w) as (r1 & w1 & -> & Hatt1 & Hstep).
    destruct (IH r1 w1) as (r' & w' & Hrun & Hatt & Hlen & Hext & Hall).
    exists r', w'. split; [exact Hrun|]. split; [|split; [|split]].
    + rewrite Hatt, Hatt1, <- app_assoc. reflexivity.
    + rewrite Hlen, (step_length _ _ _ _ Hstep). simpl. lia.
    + exact (extends_trans _ _ _ (step_extends _ _ _ _ Hstep) Hext).
    + constructor; [|exact Hall].
      exact (react_settled_extends _ _ _ _ _ Hext
               (settled_step_react _ _ _ _ _ Hstep)).
Qed.

Lemma svg_each_run P o svgs r w :
  exists r' w',
    SVGGenerator.generate_each P o svgs r w = (Ok r', w')
    /\ attempted w' = attempted w ++ map (svg_item_path P o) svgs
    /\ length (files r') + length (errors r')
       = length (files r) + length (errors r) + length svgs
    /\ extends r r'
    /\ Forall (svg_item_settled P o r') svgs.
Proof.
  revert r w. induction svgs as [|svg svgs IH]; intros r w.
  - exists r, w. simpl. rewrite app_nil_r.
    split; [done|]. split; [done|]. split; [lia|].
    split; [apply extends_refl|constructor].
  - cbn [SVGGenerator.generate_each]. rewrite bind_run.
    destruct (svg_item_run P o svg r w) as (r1 & w1 & -> & Hatt1 & Hstep).
    destruct (IH r1 w1) as (r' & w' & Hrun & Hatt & Hlen & Hext & Hall).
    exists r', w'. split; [exact Hrun|]. split; [|split; [|split]].
    + rewrite Hatt, Hatt1, <- app_assoc. reflexivity.
    + rewrite Hlen, (step_length _ _ _ _ Hstep). simpl. lia.
    + exact (extends_trans _ _ _ (step_extends _ _ _ _ Hstep) Hext).
    + constructor; [|exact Hall].
      exact (svg_settled_extends _ _ _ _ _ Hext
               (settled_step_svg _ _ _ _ _ Hstep)).
Qed.

(** The index: one more step when [generateIndex] is set, nothing
    otherwise. *)
Lemma react_index_run P o svgs r w :
  exists r' w',
    ReactGenerator.generate_index P o svgs r w = (Ok r', w')
    /\ attempted w' = attempted w ++ index_paths P o
    /\ length (files r') + length (errors r')
       = length (files r) + length (errors r) + length (index_paths P o)
    /\ extends r r'.
Proof.
  unfold ReactGenerator.generate_index, index_paths.
  destruct (flag (generateIndex o)).
  - assert (exists r' w',
               try_catch
                 (indexFile ← ReactGenerator.generateIndexFile P svgs o;
                  _ ← when (flag (verbose o))
                        (console_call
                           (ConsoleLog ("Generated index file: " +:+ indexFile)));
                  mret (push_file indexFile r))
                 (fun error =>
                    mret (push_error ("Failed to generate index file: "
                                      +:+ message_of error) r)) w
               = (Ok r', w')
               /\ attempted w' = attempted w ++ [index_path P o]
               /\ step (index_path P o)
                    (fun e => "Failed to generate index file: " +:+ message e)
                    r r') as (r' & w' & Hrun & Hatt & Hstep).
    { unfold ReactGenerator.generateIndexFile. fold (index_path P o).
      unfold step.
      match goal with |- context [WriteFile _ ?d] => generalize d end.
      intros data.
      rewrite try_catch_run, !bind_run, fs_call_run.
      destruct (fs_failure _ _ _) as [cause|], (flag (verbose o));
        (eexists _, _; split; [reflexivity|]);
        cbn [record_console];
        rewrite ?attempted_record_console, attempted_record_fs;
        (split; [reflexivity|]);
        first [ by left | right; by exists cause ]. }
    exists r', w'. split; [exact Hrun|]. split; [exact Hatt|].
    split; [|exact (step_extends _ _ _ _ Hstep)].
    rewrite (step_length _ _ _ _ Hstep). simpl. lia.
  - exists r, w. rewrite app_nil_r. simpl.
    split; [done|]. split; [done|]. split; [lia|apply extends_refl].
Qed.

Lemma svg_index_run P o svgs r w :
  exists r' w',
    SVGGenerator.generate_index P o svgs r w = (Ok r', w')
    /\ attempted w' = attempted w ++ index_paths P o
    /\ length (files r') + length (errors r')
       = length (files r) + length (errors r) + length (index_paths P o)
    /\ extends r r'.
Proof.
  unfold SVGGenerator.generate_index, index_paths.
  destruct (flag (generateIndex o)).
  - assert (exists r' w',
               try_catch
                 (indexFile ← SVGGenerator.generateIndexFile P svgs o;
                  _ ← when (flag (verbose o))
                        (console_call
                           (ConsoleLog ("Generated SVG index file: "
                                        +:+ indexFile)));
                  mret (push_file indexFile r))
                 (fun error =>
                    mret (push_error ("Failed to generate SVG index file: "
                                      +:+ message_of error) r)) w
               = (Ok r', w')
               /\ attempted w' = attempted w ++ [index_path P o]
               /\ step (index_path P o)
                    (fun e => "Failed to generate SVG index file: "
                              +:+ message e)
                    r r') as (r' & w' & Hrun & Hatt & Hstep).
    { unfold SVGGenerator.generateIndexFile. fold (index_path P o).
      unfold step.
      match goal with |- context [WriteFile _ ?d] => generalize d end.
      intros data.
      rewrite try_catch_run, !bind_run, fs_call_run.
      destruct (fs_failure _ _ _) as [cause|], (flag (verbose o));
        (eexists _, _; split; [reflexivity|]);
        cbn [record_console];
        rewrite ?attempted_record_console, attempted_record_fs;
        (split; [reflexivity|]);
        first [ by left | right; by exists cause ]. }
    exists r', w'. split; [exact Hrun|]. split; [exact Hatt|].
    split; [|exact (step_extends _ _ _ _ Hstep)].
    rewrite (step_length _ _ _ _ Hstep). simpl. lia.
  - exists r, w. rewrite app_nil_r. simpl.
    split; [done|]. split; [done|]. split; [lia|apply extends_refl].
Qed.

(** The creation of the output directory writes no file. *)
Lemma ensure_output_run P o w :
  attempted (snd (ensure_output P o w)) = attempted w.
Proof.
  unfold ensure_output, ensureOutputDirectory.
  destruct (nonempty (outputDir o)); [|reflexivity].
  rewrite try_catch_run, fs_call_run.
  destruct (fs_failure P _ _); cbn [fst snd throw]; rewrite attempted_record_fs;
    cbn [call]; apply app_nil_r.
Qed.

Lemma settle_iff r : success (settle r) = true <-> errors (settle r) = [].
Proof.
  unfold settle, set_success. cbn [success errors].
  destruct (errors r); simpl; split; done.
Qed.

Lemma failed_iff msg :
  success (push_error msg (set_success false empty_result)) = true
  <-> errors (push_error msg (set_success false empty_result)) = [].
Proof. simpl. split; done. Qed.

(** [generateComponents] returns, with [success] telling whether
    [errors] is empty; once the output directory is there, the write of
    every item, then of the index, is attempted. *)
Lemma react_run P svgs o w :
  exists r w',
    ReactGenerator.generateComponents P svgs o w = (Ok r, w')
    /\ (success r = true <-> errors r = [])
    /\ (fst (ensure_output P o w) = Ok () ->
        attempted w'
        = attempted w ++ map (react_item_path P o) svgs ++ index_paths P o
        /\ length (files r) + length (errors r)
           = length svgs + length (index_paths P o)
        /\ Forall (react_item_settled P o r) svgs)
    /\ (fst (ensure_output P o w) <> Ok () ->
        attempted w' = attempted w /\ files r = [] /\ success r = false).
Proof.
  unfold ReactGenerator.generateComponents.
  rewrite try_catch_run, bind_run.
  pose proof (ensure_output_run P o w) as Hens.
  destruct (ensure_output P o w) as [[[]|e] w0]; cbn [fst snd] in *.
  - rewrite bind_run.
    destruct (react_each_run P o svgs empty_result w0)
      as (r1 & w1 & -> & Hatt1 & Hlen1 & _ & Hall1).
    rewrite bind_run.
    destruct (react_index_run P o svgs r1 w1)
      as (r2 & w2 & -> & Hatt2 & Hlen2 & Hext2).
    exists (settle r2), w2. split; [reflexivity|]. split; [apply settle_iff|].
    split; [|done]. intros _. split; [|split].
    + rewrite Hatt2, Hatt1, Hens, <- app_assoc. reflexivity.
    + cbn [settle set_success files errors]. rewrite Hlen2, Hlen1. simpl. lia.
    + eapply Forall_impl; [exact Hall1|]. intros svg Hsvg.
      exact (react_settled_extends P o r1 (settle r2) svg Hext2 Hsvg).
  - eexists _, _. split; [reflexivity|]. split; [apply failed_iff|].
    split; [done|]. intros _. split; [exact Hens|]. split; reflexivity.
Qed.

Lemma svg_run P svgs o w :
  exists r w',
    SVGGenerator.generateSVGs P svgs o w = (Ok r, w')
    /\ (success r = true <-> errors r = [])
    /\ (fst (ensure_output P o w) = Ok () ->
        attempted w'
        = attempted w ++ map (svg_item_path P o) svgs ++ index_paths P o
        /\ length (files r) + length (errors r)
           = length svgs + length (index_paths P o)
        /\ Forall (svg_item_settled P o r) svgs)
    /\ (fst (ensure_output P o w) <> Ok () ->
        attempted w' = attempted w /\ files r = [] /\ success r = false).
Proof.
  unfold SVGGenerator.generateSVGs.
  rewrite try_catch_run, bind_run.
  pose proof (ensure_output_run P o w) as Hens.
  destruct (ensure_output P o w) as [[[]|e] w0]; cbn [fst snd] in *.
  - rewrite bind_run.
    destruct (svg_each_run P o svgs empty_result w0)
      as (r1 & w1 & -> & Hatt1 & Hlen1 & _ & Hall1).
    rewrite bind_run.
    destruct (svg_index_run P o svgs r1 w1)
      as (r2 & w2 & -> & Hatt2 & Hlen2 & Hext2).
    exists (settle r2), w2. split; [reflexivity|]. split; [apply settle_iff|].
    split; [|done]. intros _. split; [|split].
    + rewrite Hatt2, Hatt1, Hens, <- app_assoc. reflexivity.
    + cbn [settle set_success files errors]. rewrite Hlen2, Hlen1. simpl. lia.
    + eapply Forall_impl; [exact Hall1|]. intros svg Hsvg.
      exact (svg_settled_extends P o r1 (settle r2) svg Hext2 Hsvg).
  - eexists _, _. split; [reflexivity|]. split; [apply failed_iff|].
    split; [done|]. intros _. split; [exact Hens|]. split; reflexivity.
Qed.

End GeneratorRuns.
(** ** JSONGenerator: the loop over the icons *)

Section JsonLoop.
Import JsString Generator Spec Scenario.

Lemma json_item_run P o svg fs w :
  attempted (snd (JSONGenerator.generate_individual_item P o svg fs w))
  = attempted w ++ [json_item_path P o svg]
  /\ (fst (JSONGenerator.generate_individual_item P o svg fs w)
      = Ok (fs ++ [json_item_path P o svg])
      \/ exists cause,
          fst (JSONGenerator.generate_individual_item P o svg fs w)
          = Throw (item_error svg cause)).
Proof.
  unfold JSONGenerator.generate_individual_item.
  fold (json_item_path P o svg).
  match goal with |- context [WriteFile _ ?d] => generalize d end.
  intros data.
  rewrite try_catch_run, !bind_run, fs_call_run.
  destruct (fs_failure P _ _) as [e|]; cbn [fst snd throw mret M_ret];
    rewrite attempted_record_fs; (split; [reflexivity|]).
  - right. by exists e.
  - by left.
Qed.

(** The loop either writes every item, or stops at the first item whose
    write fails: the items after it are not attempted. *)
Lemma json_each_run P o svgs fs w :
  (fst (JSONGenerator.generateIndividualJSONFiles_from P o svgs fs w)
   = Ok (fs ++ map (json_item_path P o) svgs)
   /\ attempted (snd (JSONGenerator.generateIndividualJSONFiles_from
                        P o svgs fs w))
      = attempted w ++ map (json_item_path P o) svgs)
  \/ (exists before svg after cause,
         svgs = before ++ svg :: after
         /\ fst (JSONGenerator.generateIndividualJSONFiles_from P o svgs fs w)
            = Throw (item_error svg cause)
         /\ attempted (snd (JSONGenerator.generateIndividualJSONFiles_from
                              P o svgs fs w))
            = attempted w ++ map (json_item_path P o) (before ++ [svg])).
Proof.
  revert fs w. induction svgs as [|svg svgs IH]; intros fs w.
  - left. simpl. rewrite !app_nil_r. done.
  - cbn [JSONGenerator.generateIndividualJSONFiles_from]. rewrite bind_run.
    destruct (json_item_run P o svg fs w) as [Hatt [Hok|(cause & Hthrow)]];
      destruct (JSONGenerator.generate_individual_item P o svg fs w)
        as [res w1]; cbn [fst snd] in *; subst res.
    + destruct (IH (fs ++ [json_item_path P o svg]) w1)
        as [[Hres Hatt']|(before & svg' & after & cause & -> & Hres & Hatt')].
      * left. rewrite Hres, Hatt', Hatt, <- !app_assoc. done.
      * right. exists (svg :: before), svg', after, cause.
        rewrite Hres, Hatt', Hatt, <- !app_assoc. done.
    + right. exists [], svg, svgs, cause. cbn [fst snd]. done.
Qed.

(** [generateJSON] with the files of the icons asked for. *)
Lemma json_run_individual P svgs o w :
  flag (generateIndex o) = true ->
  fst (ensure_output P o w) = Ok () ->
  exists r w',
    JSONGenerator.generateJSON P svgs o w = (Ok r, w')
    /\ ((attempted w'
         = attempted w ++ json_main_path P o :: map (json_item_path P o) svgs
         /\ exists main, files r = main ++ map (json_item_path P o) svgs)
        \/ (exists before svg after,
               svgs = before ++ svg :: after
               /\ attempted w'
                  = attempted w
                    ++ json_main_path P o
                       :: map (json_item_path P o) (before ++ [svg])
               /\ last (errors r) = Some (item_error_entry svg)
               /\ success r = false
               /\ (files r = [] \/ files r = [json_main_path P o]))).
Proof.
  intros Hidx Hens.
  unfold JSONGenerator.generateJSON.
  rewrite try_catch_run, bind_run.
  pose proof (ensure_output_run P o w) as Hatt0.
  destruct (ensure_output P o w) as [res w0]. cbn [fst snd] in *. subst res.
  rewrite bind_run.
  assert (Hmain : exists r1 w1,
             JSONGenerator.generate_main P o svgs empty_result w0 = (Ok r1, w1)
             /\ attempted w1 = attempted w0 ++ [json_main_path P o]
             /\ (files r1 = [] \/ files r1 = [json_main_path P o])).
  { unfold JSONGenerator.generate_main, JSONGenerator.generateJSONFile.
    fold (json_main_path P o).
    match goal with |- context [WriteFile _ ?d] => generalize d end.
    intros data.
    rewrite try_catch_run, !bind_run, fs_call_run.
    destruct (fs_failure P _ _) as [e|], (flag (verbose o));
      (eexists _, _; split; [reflexivity|]);
      cbn [record_console];
      rewrite ?attempted_record_console, attempted_record_fs;
      (split; [reflexivity|]); cbn; tauto. }
  destruct Hmain as (r1 & w1 & -> & Hatt1 & Hlen1).
  rewrite bind_run.
  unfold JSONGenerator.generate_individual,
    JSONGenerator.generateIndividualJSONFiles.
  rewrite Hidx, try_catch_run, bind_run.
  destruct (json_each_run P o svgs [] w1)
    as [[Hres Hatt]|(before & svg & after & cause & Hsvgs & Hres & Hatt)];
    destruct (JSONGenerator.generateIndividualJSONFiles_from P o svgs [] w1)
      as [res w2]; cbn [fst snd] in *; subst res.
  - rewrite bind_run, when_run.
    destruct (flag (verbose o));
      (eexists _, _; split; [reflexivity|]); left;
      cbn [record_console console_call snd];
      rewrite ?attempted_record_console, Hatt, Hatt1, Hatt0, <- app_assoc;
      (split; [reflexivity|]); exists (files r1); reflexivity.
  - eexists _, _. split; [reflexivity|]. right.
    exists before, svg, after. split; [exact Hsvgs|].
    split; [rewrite Hatt, Hatt1, Hatt0, <- app_assoc; reflexivity|].
    split; [cbn; apply last_snoc|].
    split; [|cbn; exact Hlen1].
    cbn. rewrite length_app. simpl.
    destruct (length (errors r1) + 1) eqn:E; [lia|reflexivity].
Qed.
End JsonLoop.

(** ** The three generators: success and errors *)

Section GeneratorResults.
Import JsString Generator Spec Scenario.

Lemma json_main_run P o svgs r w :
  exists r' w',
    JSONGenerator.generate_main P o svgs r w = (Ok r', w')
    /\ attempted w' = attempted w ++ [json_main_path P o].
Proof.
  unfold JSONGenerator.generate_main, JSONGenerator.generateJSONFile.
  fold (json_main_path P o).
  match goal with |- context [WriteFile _ ?d] => generalize d end.
  intros data.
  rewrite try_catch_run, !bind_run, fs_call_run.
  destruct (fs_failure P _ _) as [e|], (flag (verbose o));
    (eexists _, _; split; [reflexivity|]);
    cbn [record_console]; rewrite ?attempted_record_console, attempted_record_fs;
    reflexivity.
Qed.

Lemma json_individual_returns P o svgs r w :
  exists r' w', JSONGenerator.generate_individual P o svgs r w = (Ok r', w').
Proof.
  unfold JSONGenerator.generate_individual.
  destruct (flag (generateIndex o)); [|by exists r, w].
  rewrite try_catch_run, bind_run.
  destruct (JSONGenerator.generateIndividualJSONFiles P svgs o w)
    as [[fs|e] w1]; [|by eexists _, _].
  rewrite bind_run.
  destruct (flag (verbose o)); by eexists _, _.
Qed.

Lemma json_run P svgs o w :
  exists r w',
    JSONGenerator.generateJSON P svgs o w = (Ok r, w')
    /\ (success r = true <-> errors r = [])
    /\ (generateIndex o = None ->
        attempted w' = attempted w ++ [json_main_path P o]
        \/ attempted w' = attempted w).
Proof.
  unfold JSONGenerator.generateJSON.
  rewrite try_catch_run, bind_run.
  pose proof (ensure_output_run P o w) as Hens.
  destruct (ensure_output P o w) as [[[]|e] w0]; cbn [fst snd] in *.
  - rewrite bind_run.
    destruct (json_main_run P o svgs empty_result w0)
      as (r1 & w1 & -> & Hatt1).
    rewrite bind_run.
    destruct (json_individual_returns P o svgs r1 w1) as (r2 & w2 & Hrun).
    rewrite Hrun.
    exists (settle r2), w2. split; [reflexivity|]. split; [apply settle_iff|].
    intros Hidx. left.
    unfold JSONGenerator.generate_individual in Hrun. rewrite Hidx in Hrun.
    injection Hrun as _ <-. rewrite Hatt1, Hens. reflexivity.
  - eexists _, _. split; [reflexivity|]. split; [apply failed_iff|].
    intros _. right. exact Hens.
Qed.

(** C1, as amended. Each of the three generators returns a result whose
    [success] is true exactly when its [errors] list is empty. Once the
    output directory is there (or none is asked for), the React and the
    SVG generator attempt the write of every item, in order, and then of
    the index when one is asked for; every attempt ends as one entry of
    [files] or one entry of [errors], and every item has its file listed
    or its failure among the errors. The JSON generator, asked for
    the files of the icons, either attempts and lists them all, or stops
    at the first icon whose write fails: the icons after it are not
    attempted, [errors] ends with the entry of that icon, and of the
    files of the icons none is listed. *)
Theorem success_iff_no_errors
  (P : Platform) (svgs : list ProcessedSVG) (o : IconifyLoaderOptions)
  (w : World) :
  (exists r w',
      ReactGenerator.generateComponents P svgs o w = (Ok r, w')
      /\ (success r = true <-> errors r = [])
      /\ (fst (ensure_output P o w) = Ok () ->
          attempted w'
          = attempted w ++ map (react_item_path P o) svgs ++ index_paths P o
          /\ length (files r) + length (errors r)
             = length svgs + length (index_paths P o)
          /\ Forall (react_item_settled P o r) svgs))
  /\ (exists r w',
         SVGGenerator.generateSVGs P svgs o w = (Ok r, w')
         /\ (success r = true <-> errors r = [])
         /\ (fst (ensure_output P o w) = Ok () ->
             attempted w'
             = attempted w ++ map (svg_item_path P o) svgs ++ index_paths P o
             /\ length (files r) + length (errors r)
                = length svgs + length (index_paths P o)
             /\ Forall (svg_item_settled P o r) svgs))
  /\ (exists r w',
         JSONGenerator.generateJSON P svgs o w = (Ok r, w')
         /\ (success r = true <-> errors r = [])
         /\ (flag (generateIndex o) = true ->
             fst (ensure_output P o w) = Ok () ->
             (attempted w'
              = attempted w
                ++ json_main_path P o :: map (json_item_path P o) svgs
              /\ exists main, files r = main ++ map (json_item_path P o) svgs)
             \/ (exists before svg after,
                    svgs = before ++ svg :: after
                    /\ attempted w'
                       = attempted w
                         ++ json_main_path P o
                            :: map (json_item_path P o) (before ++ [svg])
                    /\ last (errors r) = Some (item_error_entry svg)
                    /\ success r = false
                    /\ (files r = [] \/ files r = [json_main_path P o])))).
Proof.
  split; [|split].
  - destruct (react_run P svgs o w) as (r & w' & Hrun & Hiff & Hall & _).
    by exists r, w'.
  - destruct (svg_run P svgs o w) as (r & w' & Hrun & Hiff & Hall & _).
    by exists r, w'.
  - destruct (json_run P svgs o w) as (r & w' & Hrun & Hiff & _).
    exists r, w'. split; [exact Hrun|]. split; [exact Hiff|].
    intros Hidx Hens.
    destruct (json_run_individual P svgs o w Hidx Hens)
      as (r2 & w2 & Hrun2 & Hcases).
    rewrite Hrun in Hrun2. injection Hrun2 as <- <-. exact Hcases.
Qed.

(** Two icons through the React generator, the second unwritable: both
    writes and that of the index are attempted. *)
Lemma success_iff_no_errors_witness :
  let P := platform [] engine_identity ["./B.jsx"] in
  let o := with_index true (options_of (Some "icons") (Some "react")) in
  fst (ensure_output P o initial_world) = Ok ()
  /\ exists r w',
      ReactGenerator.generateComponents P two_icons o initial_world
      = (Ok r, w')
      /\ (success r = true <-> errors r = [])
      /\ attempted w' = ["./A.jsx"; "./B.jsx"; "./index.js"]
      /\ length (files r) + length (errors r) = 3.
Proof.
  cbv zeta. split; [reflexivity|].
  destruct (success_iff_no_errors
              (platform [] engine_identity ["./B.jsx"]) two_icons
              (with_index true (options_of (Some "icons") (Some "react")))
              initial_world)
    as [(r & w' & Hrun & Hiff & Hall) _].
  destruct (Hall eq_refl) as (Hatt & Hlen & _).
  exists r, w'. split; [exact Hrun|]. split; [exact Hiff|].
  split; [rewrite Hatt; reflexivity | rewrite Hlen; reflexivity].
Defined.

(** C1 as stated fails for the JSON generator: with two icons and the
    files of the icons asked for, the failure of the first icon's write
    ends the loop; the second icon, whose write would succeed, is never
    attempted. *)
Lemma json_item_failure_stops_the_rest :
  let P := platform [] engine_identity ["./a.json"] in
  let o := with_index true (options_of (Some "icons") (Some "json")) in
  let run := JSONGenerator.generateJSON P two_icons o initial_world in
  fs_failure P [] (WriteFile "./b.json" "{}") = None
  /\ fst run
     = Ok {| success := false;
             files := ["./icons.json"];
             errors := ["Failed to generate individual JSON files: "
                        +:+ "Failed to generate individual JSON file for a"];
             warnings := [] |}
  /\ attempted (snd run) = ["./icons.json"; "./a.json"]
  /\ "./b.json" ∉ attempted (snd run).
Proof.
  cbv zeta. split; [reflexivity|]. split; [reflexivity|].
  split; [reflexivity|].
  replace (attempted _) with ["./icons.json"; "./a.json"] by reflexivity.
  intros H. apply list_elem_of_In in H. simpl in H.
  destruct H as [H|[H|[]]]; discriminate.
Qed.

End GeneratorResults.

(** ** IconifyLoader.processSVGs: a failing optimizer *)

Section OptimizerFailure.
Import JsString Generator Spec Scenario.
Import IconifyLoader.

(** [optimizeSVG] records its call of the engine, whatever comes of it. *)
Lemma optimizeSVG_world P c so n w :
  snd (SVGOptimizer.optimizeSVG P c so n w) = record_engine c w.
Proof.
  unfold SVGOptimizer.optimizeSVG, engine_call.
  rewrite try_catch_run, bind_run.
  cbn [fst snd].
  destruct (svgo_optimize P c _) as [data err|e].
  - destruct (nonempty err); reflexivity.
  - cbn. destruct (instanceof e SVGProcessingError); reflexivity.
Qed.

(** C4. With optimization enabled, a file that passes the content check
    and on which the optimizer fails is not lost and does not stop the
    batch: its iteration returns the item with the file's own content
    and [optimized] false, the failure is logged as a console warning
    when [verbose] is set and otherwise dropped, no file-system call is
    made, and the loop goes on with the remaining files. *)
Theorem optimizer_failure_is_skipped
  (P : Platform) (this : Loader) (file : FileInfo) (rest : list FileInfo)
  (done : list ProcessedSVG) (w : World) :
  flag (optimize (options this)) = true ->
  FileReader.validateSVGContent (file_content file) (file_name file) = Ok () ->
  optimizer_fails P (options this) file ->
  exists e w',
    fst (SVGOptimizer.optimizeSVG P (file_content file)
           (svgoOptions (options this)) (file_name file) w) = Throw e
    /\ process_file P this file w = (Ok (item_of file), w')
    /\ fs_trace w' = fs_trace w
    /\ console w'
       = console w
         ++ (if flag (verbose (options this))
             then [ConsoleWarn ("Failed to optimize " +:+ file_name file
                                +:+ ": " +:+ message e)]
             else [])
    /\ processSVGs_from P this (file :: rest) done w
       = processSVGs_from P this rest (done ++ [item_of file]) w'.
Proof.
  intros Hopt Hvalid Hfails.
  destruct (Hfails w) as (e & He).
  pose proof (optimizeSVG_world P (file_content file)
                (svgoOptions (options this)) (file_name file) w) as Hw.
  assert (Hstep : exists w',
             process_file P this file w = (Ok (item_of file), w')
             /\ fs_trace w' = fs_trace w
             /\ console w'
                = console w
                  ++ (if flag (verbose (options this))
                      then [ConsoleWarn ("Failed to optimize "
                                         +:+ file_name file
                                         +:+ ": " +:+ message e)]
                      else [])).
  { unfold process_file, optimize_file.
    rewrite Hopt, Hvalid.
    rewrite try_catch_run, bind_run, lift_run, bind_run, try_catch_run, bind_run.
    destruct (SVGOptimizer.optimizeSVG P _ _ _ w) as [res w1].
    cbn [fst snd] in He, Hw. subst res w1.
    rewrite bind_run, when_run.
    destruct (flag (verbose (options this)));
      (eexists; split; [reflexivity|]); cbn; rewrite ?app_nil_r; done. }
  destruct Hstep as (w' & Hstep & Hfs & Hcon).
  exists e, w'. split; [exact He|]. split; [exact Hstep|].
  split; [exact Hfs|]. split; [exact Hcon|].
  cbn [processSVGs_from]. rewrite bind_run, Hstep. reflexivity.
Qed.

(** The arrow icon with an engine that reports an error, verbosely. *)
Lemma optimizer_failure_is_skipped_witness :
  let P := platform [arrow_file] engine_broken [] in
  let this := {| options := with_verbose true
                              (with_optimize true
                                 (options_of (Some "icons") (Some "svg"))) |} in
  flag (optimize (options this)) = true
  /\ FileReader.validateSVGContent (file_content arrow_file)
       (file_name arrow_file) = Ok ()
  /\ optimizer_fails P (options this) arrow_file
  /\ exists e w',
      process_file P this arrow_file initial_world
      = (Ok (item_of arrow_file), w')
      /\ console w'
         = [ConsoleWarn ("Failed to optimize arrow: " +:+ message e)]
      /\ processSVGs_from P this [arrow_file] [] initial_world
         = (Ok [item_of arrow_file], w').
Proof.
  cbv zeta.
  assert (Hfails : optimizer_fails (platform [arrow_file] engine_broken [])
                     (with_verbose true
                        (with_optimize true
                           (options_of (Some "icons") (Some "svg"))))
                     arrow_file).
  { intros w. eexists. reflexivity. }
  split; [reflexivity|]. split; [reflexivity|]. split; [exact Hfails|].
  destruct (optimizer_failure_is_skipped
              (platform [arrow_file] engine_broken [])
              {| options := with_verbose true
                              (with_optimize true
                                 (options_of (Some "icons") (Some "svg"))) |}
              arrow_file [] [] initial_world eq_refl eq_refl Hfails)
    as (e & w' & _ & Hstep & _ & Hcon & Hloop).
  exists e, w'. split; [exact Hstep|]. split; [exact Hcon|]. exact Hloop.
Defined.

(** C4 as stated fails: with [verbose] not set the failure of the
    optimizer leaves no warning. The run of the scenario, on an engine
    that reports an error, succeeds with no warning in its result, and
    nothing at all is logged. *)
Lemma optimizer_failure_leaves_no_warning :
  let P := platform [arrow_file] engine_broken [] in
  let o := with_optimize true (options_of (Some "icons") (Some "svg")) in
  optimizer_fails P o arrow_file
  /\ fst (load P o initial_world)
     = Ok {| success := true; files := ["./arrow.svg"];
             errors := []; warnings := [] |}
  /\ console (snd (load P o initial_world)) = [].
Proof.
  cbv zeta. split; [intros w; eexists; reflexivity|]. split; reflexivity.
Qed.

End OptimizerFailure.

(** ** IconifyLoader.load: the defaults *)

Section Defaults.
Import JsString Generator Spec Scenario.
Import IconifyLoader.

Lemma silent_readSVGFiles P dir sub ign :
  engine_silent (FileReader.readSVGFiles P dir sub ign).
Proof.
  intros w. unfold FileReader.readSVGFiles.
  destruct (directory_files P dir _ _); reflexivity.
Qed.

Lemma silent_log_all msgs : engine_silent (log_all msgs).
Proof.
  induction msgs as [|m msgs IH]; simpl; auto with silent.
Qed.

(** Without the [optimize] flag the iteration for a file is the content
    check alone. *)
Lemma process_file_unoptimized P this file w :
  flag (optimize (options this)) = false ->
  process_file P this file w
  = match FileReader.validateSVGContent (file_content file) (file_name file)
    with
    | Ok _ => (Ok (item_of file), w)
    | Throw e =>
        (Throw e,
         if flag (verbose (options this))
         then record_console
                (ConsoleError ("Failed to process " +:+ file_name file
                               +:+ ": " +:+ message e)) w
         else w)
    end.
Proof.
  intros Hopt. unfold process_file, optimize_file. rewrite Hopt.
  rewrite try_catch_run, bind_run, lift_run.
  destruct (FileReader.validateSVGContent _ _) as [[]|e].
  - reflexivity.
  - rewrite bind_run, when_run. destruct (flag (verbose (options this)));
      reflexivity.
Qed.

Lemma processSVGs_from_unoptimized P this files done w :
  flag (optimize (options this)) = false ->
  engine_calls (snd (processSVGs_from P this files done w)) = engine_calls w
  /\ (forall items,
         fst (processSVGs_from P this files done w) = Ok items ->
         items = done ++ map item_of files)
  /\ (Forall (fun f => FileReader.validateSVGContent (file_content f)
                         (file_name f) = Ok ()) files ->
      fst (processSVGs_from P this files done w)
      = Ok (done ++ map item_of files)).
Proof.
  intros Hopt. revert done w.
  induction files as [|file files IH]; intros done w.
  - simpl. rewrite app_nil_r. split; [done|]. split; [|done].
    intros items [= <-]. done.
  - cbn [processSVGs_from]. rewrite bind_run.
    rewrite (process_file_unoptimized P this file w Hopt).
    destruct (FileReader.validateSVGContent _ _) as [[]|e] eqn:Hv.
    + destruct (IH (done ++ [item_of file]) w) as (Hs & Hitems & Hall).
      split; [exact Hs|]. cbn [map]. split.
      * intros items H. rewrite (Hitems items H), <- app_assoc. done.
      * intros Hf. apply Forall_cons in Hf as [_ Hf].
        rewrite (Hall Hf), <- app_assoc. done.
    + split; [by destruct (flag (verbose (options this)))|].
      split; [intros items; discriminate|].
      intros Hf. apply Forall_cons in Hf as [Hf _]. congruence.
Qed.

Lemma new_ok o l : new o = Ok l -> l = {| options := o |}.
Proof.
  unfold new. destruct (validateOptions o); simpl; [|discriminate].
  by intros [= <-].
Qed.

Lemma silent_process_unoptimized P this :
  optimize (options this) = None -> engine_silent (process P this).
Proof.
  intros Hopt.
  assert (Hflag : flag (optimize (options this)) = false) by by rewrite Hopt.
  assert (Hproc : forall files, engine_silent (processSVGs P this files)).
  { intros files w.
    apply (processSVGs_from_unoptimized P this files [] w Hflag). }
  pose proof (silent_react P) as Hr.
  pose proof (silent_svg P) as Hs.
  pose proof (silent_json P) as Hj.
  pose proof silent_log_all as Hl.
  pose proof (silent_readSVGFiles P) as Hread.
  unfold process, readSVGs, generateOutput.
  auto 20 with silent.
Qed.

Lemma silent_load_unoptimized P o :
  optimize o = None -> engine_silent (load P o).
Proof.
  intros Hopt w. unfold load. rewrite bind_run, lift_run.
  destruct (new o) as [l|e] eqn:Hnew; [|reflexivity].
  apply new_ok in Hnew as ->.
  by apply silent_process_unoptimized.
Qed.

(** C9. [getDefaultOptions] declares [optimize] and [generateIndex]
    true, but [load] and [process] run on the configuration as given.
    With [optimize] omitted the engine is never called, by [processSVGs]
    or anywhere in [load]; every item [processSVGs] returns carries the
    file's own content with [optimized] false, and it returns them all
    when every file passes the content check. With [generateIndex]
    omitted the React and SVG generators attempt the writes of the items
    and no other, and the JSON generator that of the main file alone
    (none at all when the output directory cannot be made). *)
Theorem defaults_are_not_applied (P : Platform) (o : IconifyLoaderOptions) :
  (optimize getDefaultOptions = Some true
   /\ generateIndex getDefaultOptions = Some true)
  /\ (optimize o = None ->
      engine_silent (load P o)
      /\ forall files w,
          engine_calls (snd (processSVGs P {| options := o |} files w))
          = engine_calls w
          /\ (forall items,
                 fst (processSVGs P {| options := o |} files w) = Ok items ->
                 items = map item_of files)
          /\ (Forall (fun f => FileReader.validateSVGContent (file_content f)
                                 (file_name f) = Ok ()) files ->
              fst (processSVGs P {| options := o |} files w)
              = Ok (map item_of files)))
  /\ (generateIndex o = None ->
      forall svgs w,
        (attempted (snd (ReactGenerator.generateComponents P svgs o w))
         = attempted w ++ map (react_item_path P o) svgs
         \/ attempted (snd (ReactGenerator.generateComponents P svgs o w))
            = attempted w)
        /\ (attempted (snd (SVGGenerator.generateSVGs P svgs o w))
            = attempted w ++ map (svg_item_path P o) svgs
            \/ attempted (snd (SVGGenerator.generateSVGs P svgs o w))
               = attempted w)
        /\ (attempted (snd (JSONGenerator.generateJSON P svgs o w))
            = attempted w ++ [json_main_path P o]
            \/ attempted (snd (JSONGenerator.generateJSON P svgs o w))
               = attempted w)).
Proof.
  split; [split; reflexivity|]. split.
  - intros Hopt. split; [by apply silent_load_unoptimized|].
    intros files w.
    assert (Hflag : flag (optimize (options {| options := o |})) = false)
      by (cbn; by rewrite Hopt).
    apply (processSVGs_from_unoptimized P {| options := o |} files [] w Hflag).
  - intros Hidx svgs w.
    assert (Hnone : index_paths P o = []) by (unfold index_paths; by rewrite Hidx).
    split; [|split].
    + destruct (react_run P svgs o w) as (r & w' & -> & _ & Hall & Hfail).
      cbn [snd].
      destruct (fst (ensure_output P o w)) as [[]|e] eqn:He.
      * left. destruct (Hall eq_refl) as [-> _]. rewrite Hnone, app_nil_r. done.
      * right. by destruct Hfail as [-> _].
    + destruct (svg_run P svgs o w) as (r & w' & -> & _ & Hall & Hfail).
      cbn [snd].
      destruct (fst (ensure_output P o w)) as [[]|e] eqn:He.
      * left. destruct (Hall eq_refl) as [-> _]. rewrite Hnone, app_nil_r. done.
      * right. by destruct Hfail as [-> _].
    + destruct (json_run P svgs o w) as (r & w' & -> & _ & Hmain).
      cbn [snd]. by apply Hmain.
Qed.
(** A run with neither flag given, on an engine that would fail. *)
Lemma defaults_are_not_applied_witness :
  let P := platform [arrow_file] engine_broken [] in
  let o := options_of (Some "icons") (Some "react") in
  optimize o = None /\ generateIndex o = None
  /\ optimize (mergeOptions o) = Some true
  /\ engine_calls (snd (load P o initial_world)) = []
  /\ fst (processSVGs P {| options := o |} [arrow_file] initial_world)
     = Ok [item_of arrow_file]
  /\ optimized (item_of arrow_file) = Some false
  /\ attempted (snd (load P o initial_world)) = ["./Arrow.jsx"].
Proof.
  cbv zeta.
  destruct (defaults_are_not_applied
              (platform [arrow_file] engine_broken [])
              (options_of (Some "icons") (Some "react")))
    as (_ & Hopt & _).
  destruct (Hopt eq_refl) as [Hsilent Hproc].
  destruct (Hproc [arrow_file] initial_world) as (_ & _ & Hall).
  split; [reflexivity|]. split; [reflexivity|]. split; [reflexivity|].
  split; [exact (Hsilent initial_world)|].
  split; [apply Hall; repeat constructor|].
  split; reflexivity.
Defined.

End Defaults.

(** ** IconifyLoader.load: an empty input directory *)

Section EmptyInput.
Import JsString Generator Spec Scenario.
Import IconifyLoader.

Lemma readSVGFiles_world P dir sub ign w :
  attempted (snd (FileReader.readSVGFiles P dir sub ign w)) = attempted w.
Proof.
  unfold FileReader.readSVGFiles.
  destruct (directory_files P dir _ _); cbn [snd];
    rewrite attempted_record_fs; cbn [call]; apply app_nil_r.
Qed.

Lemma attempted_log_all msgs w :
  attempted (snd (log_all msgs w)) = attempted w
  /\ fst (log_all msgs w) = Ok ().
Proof.
  revert w. induction msgs as [|m msgs IH]; intros w; [done|].
  cbn [log_all foldr]. rewrite bind_run. cbn [console_call].
  apply (IH (record_console (ConsoleLog m) w)).
Qed.

(** [readSVGs] on an input directory without SVG files. *)
Lemma readSVGs_empty P this dir w :
  inputDir (options this) = Some dir ->
  finds_no_svg P dir (options this) ->
  fst (readSVGs P this w) = Throw (no_files_error dir)
  /\ attempted (snd (readSVGs P this w)) = attempted w.
Proof.
  intros Hdir Hnone. unfold readSVGs. rewrite Hdir.
  change (interpolate (Some dir)) with dir.
  rewrite try_catch_run, bind_run.
  pose proof (Hnone w) as Hfst.
  pose proof (readSVGFiles_world P dir (includeSubdirs (options this))
                (ignorePatterns (options this)) w) as Hsnd.
  destruct (FileReader.readSVGFiles P dir _ _ w) as [res w1].
  cbn [fst snd] in Hfst, Hsnd. subst res. cbn. done.
Qed.

(** C2, as amended. When the walker finds no SVG file under the input
    directory of a valid configuration, [readSVGs] throws a
    [ValidationError] saying that no SVG files were found; [process], and
    so [load], throws in its place an [SVGProcessingError] whose message
    is that one after a prefix and whose [originalError] is the
    [ValidationError]. No write is attempted. *)
Theorem empty_input_fails_the_run
  (P : Platform) (o : IconifyLoaderOptions) (dir : string) (w : World) :
  validateOptions o = Ok () ->
  inputDir o = Some dir ->
  finds_no_svg P dir o ->
  fst (readSVGs P {| options := o |} w) = Throw (no_files_error dir)
  /\ error_class (no_files_error dir) = ValidationError
  /\ fst (load P o w) = Throw (process_failed (no_files_error dir))
  /\ error_class (process_failed (no_files_error dir)) = SVGProcessingError
  /\ originalError (process_failed (no_files_error dir))
     = Some (no_files_error dir)
  /\ attempted (snd (load P o w)) = attempted w.
Proof.
  intros Hvalid Hdir Hnone.
  split; [by apply (readSVGs_empty P {| options := o |} dir w)|].
  split; [reflexivity|].
  assert (Hload : fst (load P o w) = Throw (process_failed (no_files_error dir))
                  /\ attempted (snd (load P o w)) = attempted w).
  { unfold load, new. rewrite Hvalid. cbn [mbind Result_bind].
    rewrite bind_run, lift_run. unfold process. cbn [options].
    rewrite try_catch_run, bind_run, when_run.
    destruct (flag (verbose o)).
    - match goal with |- context [log_all ?msgs w] =>
        destruct (attempted_log_all msgs w) as [Hatt Hok];
        destruct (log_all msgs w) as [res w1] end.
      cbn [fst snd] in Hatt, Hok. subst res. rewrite bind_run.
      destruct (readSVGs_empty P {| options := o |} dir w1 Hdir Hnone)
        as [Hfst Hsnd].
      destruct (readSVGs P {| options := o |} w1) as [res w2].
      cbn [fst snd] in Hfst, Hsnd. subst res. cbn. split; [done|congruence].
    - rewrite bind_run.
      destruct (readSVGs_empty P {| options := o |} dir w Hdir Hnone)
        as [Hfst Hsnd].
      destruct (readSVGs P {| options := o |} w) as [res w2].
      cbn [fst snd] in Hfst, Hsnd. subst res. cbn. split; [done|congruence]. }
  destruct Hload as [Hl1 Hl2].
  split; [exact Hl1|]. split; [reflexivity|]. split; [reflexivity|]. exact Hl2.
Qed.

Lemma empty_input_fails_the_run_witness :
  let P := platform [] engine_identity [] in
  let o := options_of (Some "icons") (Some "svg") in
  validateOptions o = Ok ()
  /\ inputDir o = Some "icons"
  /\ finds_no_svg P "icons" o
  /\ fst (load P o initial_world)
     = Throw (process_failed (no_files_error "icons"))
  /\ attempted (snd (load P o initial_world)) = [].
Proof.
  cbv zeta.
  assert (Hnone : finds_no_svg (platform [] engine_identity []) "icons"
                    (options_of (Some "icons") (Some "svg")))
    by (intros w; reflexivity).
  split; [reflexivity|]. split; [reflexivity|]. split; [exact Hnone|].
  destruct (empty_input_fails_the_run
              (platform [] engine_identity [])
              (options_of (Some "icons") (Some "svg")) "icons" initial_world
              eq_refl eq_refl Hnone)
    as (_ & _ & Hload & _ & _ & Hatt).
  split; [exact Hload | exact Hatt].
Defined.

(** C2 as stated fails: the error [load] throws for an empty input
    directory is not a [ValidationError] but the [SVGProcessingError]
    that wraps it. *)
Lemma empty_input_error_is_not_a_ValidationError :
  let P := platform [] engine_identity [] in
  let o := options_of (Some "icons") (Some "svg") in
  finds_no_svg P "icons" o
  /\ fst (load P o initial_world)
     = Throw (MkError SVGProcessingError
                "IconifyLoader process failed: No SVG files found in directory: icons"
                (Some (MkError ValidationError
                         "No SVG files found in directory: icons" None
                         [("inputDir", JStr "icons")])) [])
  /\ instanceof (MkError SVGProcessingError
                "IconifyLoader process failed: No SVG files found in directory: icons"
                (Some (MkError ValidationError
                         "No SVG files found in directory: icons" None
                         [("inputDir", JStr "icons")])) []) ValidationError = false.
Proof.
  cbv zeta. split; [intros w; reflexivity|]. split; reflexivity.
Qed.

End EmptyInput.

(** ** SVGGenerator.generateSVGFile: the name of the file *)

Section FileNamer.
Import JsString Generator Spec Scenario.
Import IconifyLoader.

(** C3, at the scenario. With the namer [icon-<lowercased name>], format
    svg and a [fill] among [svgProps], the one file written for
    [arrow.svg] is [./icon-arrow], without the extension: the namer's
    result is the whole file name. Its content is the icon with [fill]
    appended to the attributes of the root tag, the others kept. *)
Theorem formatter_names_svg_file_without_extension :
  let P := platform [arrow_file] engine_identity [] in
  let o := with_naming icon_namer [("fill", JStr "currentColor")]
             (options_of (Some "icons") (Some "svg")) in
  fst (load P o initial_world)
  = Ok {| success := true; files := ["./icon-arrow"];
          errors := []; warnings := [] |}
  /\ written (snd (load P o initial_world)) = [("./icon-arrow", arrow_with_fill)]
  /\ "./icon-arrow" <> "./icon-arrow.svg".
Proof.
  cbv zeta. split; [reflexivity|]. split; [reflexivity|]. discriminate.
Qed.
End FileNamer.

(* ===================================================================== *)
(** * Further properties of the code *)
(* ===================================================================== *)

(** ** Characters of a text *)

Section CharacterFacts.
Import JsString.

Lemma all_chars_app p a b :
  all_chars p (a +:+ b) = all_chars p a && all_chars p b.
Proof.
  induction a as [|c a IH]; [done|].
  rewrite append_cons. simpl. rewrite IH. apply andb_assoc.
Qed.

Lemma all_chars_impl (p q : ascii -> bool) s :
  (forall c, p c = true -> q c = true) ->
  all_chars p s = true -> all_chars q s = true.
Proof.
  intros H. induction s as [|c s IH]; [done|]. simpl.
  intros [Hc Hs]%andb_true_iff. rewrite (H c Hc), (IH Hs). done.
Qed.

(** A global replacement maps a text over one alphabet to a text over
    another when the replacements are over the latter and so is every
    character that no match starts at. *)
Lemma replace_all_chars (p q : ascii -> bool) m skip s :
  all_chars p s = true ->
  (forall t n r, m t = Some (n, r) -> all_chars q r = true) ->
  (forall c t, p c = true -> m (String c t) = None -> q c = true) ->
  all_chars q (replace_all_from m skip s) = true.
Proof.
  intros Hs Hr Hc. revert skip Hs.
  induction s as [|c s IH]; intros skip Hs; [done|].
  simpl in Hs. apply andb_true_iff in Hs as [Hpc Hs].
  cbn [replace_all_from]. destruct skip as [|k]; [|by apply IH].
  destruct (m (String c s)) as [[n r]|] eqn:E.
  - rewrite all_chars_app, (Hr _ _ _ E), IH; done.
  - simpl. rewrite (Hc c s Hpc E), IH; done.
Qed.

Lemma all_chars_map_chars (p q : ascii -> bool) f s :
  (forall c, p c = true -> q (f c) = true) ->
  all_chars p s = true -> all_chars q (map_chars f s) = true.
Proof.
  intros H. induction s as [|c s IH]; [done|]. simpl.
  intros [Hc Hs]%andb_true_iff. rewrite (H c Hc), (IH Hs). done.
Qed.

Lemma all_chars_span p q s :
  all_chars p s = true ->
  all_chars p (fst (span q s)) = true /\ all_chars p (snd (span q s)) = true.
Proof.
  induction s as [|c s IH]; [done|]. simpl.
  intros [Hc Hs]%andb_true_iff. destruct (q c).
  - destruct (span q s) as [a b]. destruct (IH Hs) as [Ha Hb].
    simpl in *. rewrite Hc, Ha. done.
  - simpl. rewrite Hc, Hs. done.
Qed.

Lemma span_rest_first p s : first_char p (snd (span p s)) = false.
Proof.
  induction s as [|c s IH]; [done|]. simpl. destruct (p c) eqn:E.
  - destruct (span p s). exact IH.
  - simpl. exact E.
Qed.

Lemma all_chars_trimEnd p s :
  all_chars p s = true -> all_chars p (trimEnd s) = true.
Proof.
  induction s as [|c s IH]; [done|]. simpl.
  intros [Hc Hs]%andb_true_iff. specialize (IH Hs).
  destruct (trimEnd s).
  - destruct (is_space c); simpl; rewrite ?Hc; done.
  - simpl in *. rewrite Hc. exact IH.
Qed.

Lemma all_chars_trim p s : all_chars p s = true -> all_chars p (trim s) = true.
Proof.
  intros H. unfold trim, trimStart, skip_spaces.
  apply all_chars_trimEnd. by apply all_chars_span.
Qed.

Lemma all_chars_split p sep s :
  all_chars (fun c => p c || char_eqb c sep) s = true ->
  Forall (fun w => all_chars p w = true) (split_on sep s)
  /\ split_on sep s <> [].
Proof.
  induction s as [|c s IH]; [by split; [repeat constructor|]|].
  simpl. intros [Hc Hs]%andb_true_iff. destruct (IH Hs) as [Hall Hne].
  destruct (split_on sep s) as [|w ws]; [done|].
  apply Forall_cons in Hall as [Hw Hws].
  destruct (char_eqb c sep) eqn:E.
  - split; [|done]. by repeat constructor.
  - split; [|done]. rewrite orb_false_r in Hc.
    constructor; [|done]. simpl. rewrite Hc, Hw. done.
Qed.

Lemma split_on_absent sep s :
  all_chars (fun c => negb (char_eqb c sep)) s = true -> split_on sep s = [s].
Proof.
  induction s as [|c s IH]; [done|]. simpl.
  intros [Hc Hs]%andb_true_iff. rewrite (IH Hs).
  apply negb_true_iff in Hc. rewrite Hc. done.
Qed.

Lemma all_chars_join p sep ws :
  all_chars p sep = true -> Forall (fun w => all_chars p w = true) ws ->
  all_chars p (join sep ws) = true.
Proof.
  intros Hsep. induction 1 as [|w ws Hw Hws IH]; [done|].
  destruct ws as [|w' ws]; [exact Hw|].
  change (join sep (w :: w' :: ws)) with (w +:+ sep +:+ join sep (w' :: ws)).
  rewrite !all_chars_app, Hw, Hsep, IH. done.
Qed.

Lemma alnum_upper c : is_alnum c = true -> is_alnum (upper_char c) = true.
Proof. destruct c as [[] [] [] [] [] [] [] []]; done. Qed.

Lemma alnum_lower c : is_alnum c = true -> is_alnum (lower_char c) = true.
Proof. destruct c as [[] [] [] [] [] [] [] []]; done. Qed.

Lemma upper_not_lower c : is_lower (upper_char c) = false.
Proof. destruct c as [[] [] [] [] [] [] [] []]; done. Qed.

Lemma non_alnum_unmatched c t : re_non_alnum (String c t) = None -> is_alnum c = true.
Proof. simpl. by destruct (is_alnum c). Qed.

Lemma replacing_Some r (m : string -> option nat) t n r' :
  replacing r m t = Some (n, r') -> r' = r /\ m t = Some n.
Proof.
  unfold replacing. destruct (m t); simpl; [|done]. by intros [= <- <-].
Qed.

End CharacterFacts.

(** ** The names the generators give *)

Section Names.
Import JsString Scenario.

Lemma capitalize_alnum w :
  all_chars is_alnum w = true ->
  all_chars is_alnum (ReactGenerator.capitalize w) = true.
Proof.
  destruct w as [|c w]; [done|]. simpl.
  intros [Hc Hw]%andb_true_iff. rewrite (alnum_upper c Hc). simpl.
  by apply (all_chars_map_chars is_alnum), Hw; apply alnum_lower.
Qed.

Lemma join_capitalized_first ws :
  first_char is_lower (join "" (map ReactGenerator.capitalize ws)) = false.
Proof.
  induction ws as [|w ws IH]; [done|].
  destruct ws as [|w' ws].
  - destruct w as [|c w]; [done|]. simpl. apply upper_not_lower.
  - change (join "" (map ReactGenerator.capitalize (w :: w' :: ws)))
      with (ReactGenerator.capitalize w +:+ ""
            +:+ join "" (map ReactGenerator.capitalize (w' :: ws))).
    rewrite append_nil_l.
    destruct w as [|c w]; [exact IH|]. simpl. apply upper_not_lower.
Qed.

(** X1. Without a [reactComponentName] function the name of a component
    is made of ASCII letters and digits only, whatever the name of the
    icon, and it does not begin with a lowercase letter. *)
Theorem default_component_name_is_alphanumeric
  (originalName : string) (o : IconifyLoaderOptions) :
  reactComponentName o = None ->
  all_chars is_alnum (ReactGenerator.getComponentName originalName o) = true
  /\ first_char is_lower (ReactGenerator.getComponentName originalName o)
     = false.
Proof.
  intros Hnone. unfold ReactGenerator.getComponentName. rewrite Hnone.
  set (spaced := replace_all (replacing " " re_non_alnum) originalName).
  assert (Hspaced : all_chars (fun c => is_alnum c || char_eqb c " ") spaced
                    = true).
  { apply (replace_all_chars (fun _ => true)).
    - clear. induction originalName as [|c s IH]; done.
    - intros t n r [-> _]%replacing_Some. done.
    - intros c t _ H. unfold replacing in H.
      destruct (re_non_alnum (String c t)) eqn:E; [done|].
      by rewrite (non_alnum_unmatched c t E). }
  destruct (all_chars_split is_alnum " " spaced Hspaced) as [Hwords _].
  set (words := split_on " " spaced) in *.
  assert (Hjoined : all_chars is_alnum
                      (join "" (map ReactGenerator.capitalize words)) = true).
  { apply all_chars_join; [done|]. apply Forall_map.
    eapply Forall_impl; [exact Hwords|]. intros w. apply capitalize_alnum. }
  pose proof (join_capitalized_first words) as Hfirst.
  destruct (join "" (map ReactGenerator.capitalize words)) as [|c rest];
    [done|].
  unfold ReactGenerator.upper_first.
  destruct (is_newline c || (code c =? 13)%N); [done|].
  simpl in *. apply andb_true_iff in Hjoined as [Hc Hrest].
  rewrite (alnum_upper c Hc), Hrest, upper_not_lower. done.
Qed.

Lemma default_component_name_is_alphanumeric_witness :
  reactComponentName (options_of (Some "icons") (Some "react")) = None
  /\ ReactGenerator.getComponentName "arrow-left_2"
       (options_of (Some "icons") (Some "react")) = "ArrowLeft2"
  /\ all_chars is_alnum
       (ReactGenerator.getComponentName "arrow-left_2"
          (options_of (Some "icons") (Some "react"))) = true.
Proof.
  split; [reflexivity|]. split; [reflexivity|].
  exact (proj1 (default_component_name_is_alphanumeric "arrow-left_2"
                  (options_of (Some "icons") (Some "react")) eq_refl)).
Defined.

Lemma strip_final_underscore_chars p s :
  all_chars p s = true ->
  all_chars p (SVGGenerator.strip_final_underscore s) = true.
Proof.
  induction s as [|c s IH]; [done|].
  intros H. pose proof H as [Hc Hs]%andb_true_iff.
  destruct s as [|d s].
  - simpl. destruct (SVGGenerator.is_underscore c); simpl; rewrite ?Hc; done.
  - change (SVGGenerator.strip_final_underscore (String c (String d s)))
      with (String c (SVGGenerator.strip_final_underscore (String d s))).
    simpl all_chars at 1. rewrite Hc. exact (IH Hs).
Qed.

Lemma strip_final_underscore_first s :
  first_char SVGGenerator.is_underscore s = false ->
  first_char SVGGenerator.is_underscore (SVGGenerator.strip_final_underscore s)
  = false.
Proof.
  destruct s as [|c [|d s]]; [done| |intros H; exact H].
  simpl. intros H. rewrite H. exact H.
Qed.

Lemma variable_char_lower c :
  is_alnum c || char_eqb c "_" = true -> variable_char (lower_char c) = true.
Proof. destruct c as [[] [] [] [] [] [] [] []]; done. Qed.

(** X2. Without a [fileNameFormatter] the name of an export of the SVG
    index is made of lowercase ASCII letters, digits and underscores
    only, and does not begin with an underscore. *)
Theorem default_variable_name_alphabet
  (originalName : string) (o : IconifyLoaderOptions) :
  fileNameFormatter o = None ->
  all_chars variable_char (SVGGenerator.getVariableName originalName o) = true
  /\ first_char SVGGenerator.is_underscore
       (SVGGenerator.getVariableName originalName o) = false.
Proof.
  intros Hnone. unfold SVGGenerator.getVariableName. rewrite Hnone.
  set (scored := replace_all (replacing "_" re_non_alnum) originalName).
  assert (Hscored : all_chars (fun c => is_alnum c || char_eqb c "_") scored
                    = true).
  { apply (replace_all_chars (fun _ => true)).
    - clear. induction originalName as [|c s IH]; done.
    - intros t n r [-> _]%replacing_Some. done.
    - intros c t _ H. unfold replacing in H.
      destruct (re_non_alnum (String c t)) eqn:E; [done|].
      by rewrite (non_alnum_unmatched c t E). }
  assert (Hlower : all_chars variable_char (toLowerCase scored) = true).
  { eapply all_chars_map_chars; [|exact Hscored]. apply variable_char_lower. }
  unfold SVGGenerator.strip_leading_underscores. split.
  - apply strip_final_underscore_chars. by apply all_chars_span.
  - apply strip_final_underscore_first, span_rest_first.
Qed.

Lemma default_variable_name_alphabet_witness :
  fileNameFormatter (options_of (Some "icons") (Some "svg")) = None
  /\ SVGGenerator.getVariableName "--Arrow Left--"
       (options_of (Some "icons") (Some "svg")) = "arrow_left_"
  /\ all_chars variable_char
       (SVGGenerator.getVariableName "--Arrow Left--"
          (options_of (Some "icons") (Some "svg"))) = true.
Proof.
  split; [reflexivity|]. split; [reflexivity|].
  exact (proj1 (default_variable_name_alphabet "--Arrow Left--"
                  (options_of (Some "icons") (Some "svg")) eq_refl)).
Defined.

End Names.

(** ** Whitespace in what the generators embed *)

Section Whitespace.
Import JsString Generator Scenario.

Lemma all_chars_true s : all_chars (fun _ => true) s = true.
Proof. induction s as [|c s IH]; done. Qed.

Lemma spaces_unmatched c t :
  replacing " " re_spaces (String c t) = None -> is_space c = false.
Proof.
  unfold replacing, re_spaces. simpl. destruct (is_space c); [|done].
  destruct (span is_space t). done.
Qed.

(** After [replace(/\s+/g, ' ')] the only whitespace is the space. *)
Lemma collapsed_spaces s :
  all_chars plain_space (replace_all (replacing " " re_spaces) s) = true.
Proof.
  apply (replace_all_chars (fun _ => true)); [apply all_chars_true|..].
  - intros t n r [-> _]%replacing_Some. done.
  - intros c t _ H. unfold plain_space.
    by rewrite (spaces_unmatched c t H).
Qed.

(** A replacement by text of an alphabet keeps a text of that alphabet
    in it. *)
Lemma replace_all_keeps p r m s :
  all_chars p r = true -> all_chars p s = true ->
  all_chars p (replace_all (replacing r m) s) = true.
Proof.
  intros Hr Hs. apply (replace_all_chars p); [exact Hs| |done].
  intros t n r' [-> _]%replacing_Some. exact Hr.
Qed.

(** X3. The markup [prepareSVGContent] of the React generator returns
    has no whitespace but single space characters; in particular it is
    one line, so the six-space indentation of later lines never applies:
    the result is the trimmed text after the five replacements. *)
Theorem component_markup_is_one_line (svg : ProcessedSVG) :
  all_chars plain_space (ReactGenerator.prepareSVGContent svg) = true
  /\ all_chars (fun c => negb (is_newline c))
       (ReactGenerator.prepareSVGContent svg) = true
  /\ ReactGenerator.prepareSVGContent svg
     = trim (replace_all (replacing "><" re_gt_spaces_lt)
               (replace_all (replacing " " re_spaces)
                  (replace_all (replacing "" re_comment)
                     (replace_all (replacing "" re_doctype)
                        (replace_all (replacing "" re_xml_declaration)
                           (content svg)))))).
Proof.
  unfold ReactGenerator.prepareSVGContent.
  set (cleaned := replace_all (replacing "" re_comment) _).
  set (flat := replace_all (replacing "><" re_gt_spaces_lt)
                 (replace_all (replacing " " re_spaces) cleaned)).
  assert (Hflat : all_chars plain_space flat = true).
  { apply replace_all_keeps; [done|apply collapsed_spaces]. }
  assert (Hline : all_chars (fun c => negb (char_eqb c (ascii_of_N 10))) flat
                  = true).
  { eapply all_chars_impl; [|exact Hflat].
    intros c. destruct c as [[] [] [] [] [] [] [] []]; done. }
  rewrite (split_on_absent _ _ Hline).
  change (join nl (imap ReactGenerator.indent_line [flat])) with (trim flat).
  split; [by apply all_chars_trim|]. split; [|reflexivity].
  apply all_chars_trim. eapply all_chars_impl; [|exact Hflat].
  intros c. destruct c as [[] [] [] [] [] [] [] []]; done.
Qed.

Lemma formatted_chars content :
  all_chars space_or_line_feed (SVGGenerator.formatSVGContent content) = true.
Proof.
  unfold SVGGenerator.formatSVGContent.
  apply all_chars_trim.
  apply replace_all_keeps; [done|].
  apply replace_all_keeps; [done|].
  eapply all_chars_impl;
    [|apply replace_all_keeps; [|apply collapsed_spaces]; done].
  intros c H. unfold space_or_line_feed. by rewrite H.
Qed.

Lemma escape_keeps p content :
  p "\"%char = true -> p "'"%char = true -> p dquote_char = true ->
  all_chars p content = true ->
  all_chars p
    (replace_all (replacing ("\" +:+ dquote)
                    (re_char (fun c => char_eqb c dquote_char)))
       (replace_all (replacing "\'" (re_char (fun c => char_eqb c "'"%char)))
          (replace_all (replacing "\\"
                          (re_char (fun c => char_eqb c "\"%char)))
             content))) = true.
Proof.
  intros Hb Hq Hd H.
  apply replace_all_keeps; [simpl; by rewrite Hb, Hd|].
  apply replace_all_keeps; [simpl; by rewrite Hb, Hq|].
  apply replace_all_keeps; [simpl; by rewrite Hb|]. exact H.
Qed.

(** X4. The text [escape_for_literal] puts between the quotes of an
    export of the SVG index holds no line feed, whatever the content;
    for the content [prepareSVGContent] gives it holds no carriage
    return either, so every export literal stays on one line. *)
Theorem index_export_is_one_line
  (P : Platform) (svg : ProcessedSVG) (o : IconifyLoaderOptions)
  (content : string) :
  all_chars (fun c => negb (is_newline c))
    (SVGGenerator.escape_for_literal content) = true
  /\ all_chars (fun c => negb (line_terminator c))
       (SVGGenerator.escape_for_literal
          (SVGGenerator.prepareSVGContent P svg o)) = true.
Proof.
  unfold SVGGenerator.escape_for_literal. split.
  - apply (replace_all_chars (fun _ => true)); [apply all_chars_true|..].
    + intros t n r [-> _]%replacing_Some. done.
    + intros c t _ H. unfold replacing, re_char in H.
      by destruct (is_newline c).
  - apply (replace_all_chars space_or_line_feed).
    + apply escape_keeps; [done..|].
      unfold SVGGenerator.prepareSVGContent. apply formatted_chars.
    + intros t n r [-> _]%replacing_Some. done.
    + intros c t Hc H. unfold replacing, re_char in H.
      destruct c as [[] [] [] [] [] [] [] []]; done.
Qed.

End Whitespace.

(** ** SVGGenerator.addCustomAttributes *)

Section CustomAttributes.
Import JsString Generator Scenario.

Lemma find_from_all_None {A} (m : string -> option A) s :
  (forall i, m (drop i s) = None) -> find_from m s = None.
Proof.
  induction s as [|c s IH]; intros H.
  - pose proof (H 0) as H0. cbn [drop] in H0. simpl. by rewrite H0.
  - cbn [find_from]. pose proof (H 0) as H0. cbn [drop] in H0. rewrite H0.
    rewrite IH; [done|]. intros i. exact (H (S i)).
Qed.

Lemma strip_prefix_by_app eq p q t :
  strip_prefix_by eq (p +:+ q) t
  = strip_prefix_by eq p t ≫= strip_prefix_by eq q.
Proof.
  revert t. induction p as [|a p IH]; intros t; [done|].
  rewrite append_cons. cbn [strip_prefix_by].
  destruct t as [|b t]; [done|]. destruct (eq a b); [apply IH|done].
Qed.

Lemma strip_prefix_self p s : strip_prefix p (p +:+ s) = Some s.
Proof.
  unfold strip_prefix. induction p as [|a p IH]; [done|].
  rewrite append_cons. cbn [strip_prefix_by]. unfold char_eqb at 1.
  rewrite Ascii.eqb_refl. exact IH.
Qed.

Lemma strip_prefix_ci_of_exact p t r :
  strip_prefix p t = Some r -> strip_prefix_ci p t = Some r.
Proof.
  unfold strip_prefix, strip_prefix_ci. revert t.
  induction p as [|a p IH]; intros t; [done|]. cbn [strip_prefix_by].
  destruct t as [|b t]; [done|]. unfold char_eqb at 1.
  destruct (Ascii.eqb_spec a b) as [->|]; [|done].
  unfold char_eqb_ci at 1. rewrite Ascii.eqb_refl. apply IH.
Qed.

(** A text without a lowercase [<svg] has no occurrence of a pattern
    that begins with it. *)
Lemma index_of_longer p q s : index_of p s = None -> index_of (p +:+ q) s = None.
Proof.
  unfold index_of. intros H.
  destruct (find_from (strip_prefix p) s) as [[i r]|] eqn:E; [done|].
  rewrite find_from_all_None; [done|]. intros i.
  unfold strip_prefix. rewrite strip_prefix_by_app.
  pose proof (find_from_None _ _ E i) as Hi. unfold strip_prefix in Hi.
  by rewrite Hi.
Qed.

(** X5. [addCustomAttributes] leaves alone a content without a
    lowercase [<svg]: the scan for the root tag ignores case, but the
    replacement looks for the tag spelled [<svg], so the attributes of a
    root tag written [<SVG ...>] are never extended. *)
Theorem attributes_need_a_lowercase_tag
  (P : Platform) (svgContent : string) (customProps : list (string * JsVal)) :
  index_of "<svg" svgContent = None ->
  SVGGenerator.addCustomAttributes P svgContent customProps = svgContent.
Proof.
  intros H. unfold SVGGenerator.addCustomAttributes.
  destruct (regex_match re_svg_open_tag svgContent) as [existing|]; [|done].
  unfold replace_first.
  change ("<svg" +:+ existing +:+ ">") with ("<svg" +:+ (existing +:+ ">")).
  by rewrite (index_of_longer "<svg" (existing +:+ ">") svgContent H).
Qed.

Lemma attributes_need_a_lowercase_tag_witness :
  let P := platform [] engine_identity [] in
  index_of "<svg" "<SVG width='16'><path d='M0 0'/></SVG>" = None
  /\ regex_match re_svg_open_tag "<SVG width='16'><path d='M0 0'/></SVG>"
     = Some " width='16'"
  /\ SVGGenerator.addCustomAttributes P
       "<SVG width='16'><path d='M0 0'/></SVG>"
       [("fill", JStr "currentColor")]
     = "<SVG width='16'><path d='M0 0'/></SVG>".
Proof.
  cbv zeta. split; [reflexivity|]. split; [reflexivity|].
  exact (attributes_need_a_lowercase_tag (platform [] engine_identity [])
           "<SVG width='16'><path d='M0 0'/></SVG>"
           [("fill", JStr "currentColor")] eq_refl).
Defined.

Lemma length_append a b :
  String.length (a +:+ b) = String.length a + String.length b.
Proof. induction a as [|c a IH]; [done|]. rewrite append_cons. simpl. lia. Qed.

Lemma take_append a b : take (String.length a) (a +:+ b) = a.
Proof.
  induction a as [|c a IH]; [by destruct b|].
  rewrite append_cons. simpl. by rewrite IH.
Qed.

Lemma drop_append a b : drop (String.length a) (a +:+ b) = b.
Proof. induction a as [|c a IH]; [done|]. rewrite append_cons. exact IH. Qed.

Lemma drop_within i a b :
  i <= String.length a -> drop i (a +:+ b) = drop i a +:+ b.
Proof.
  revert i. induction a as [|c a IH]; intros [|i] Hi; try done.
  - simpl in Hi. lia.
  - rewrite append_cons. simpl. apply IH. simpl in Hi. lia.
Qed.

Lemma drop_add i j s : drop (i + j) s = drop j (drop i s).
Proof.
  revert s. induction i as [|i IH]; intros s; [done|].
  destruct s as [|c s]; [by destruct j|]. apply IH.
Qed.

Lemma index_of_char_stop p a c r :
  all_chars (fun x => negb (p x)) a = true -> p c = true ->
  index_of_char p (a +:+ String c r) = Some (String.length a).
Proof.
  intros Ha Hc. induction a as [|x a IH].
  - simpl. by rewrite Hc.
  - rewrite append_cons. simpl in *.
    apply andb_true_iff in Ha as [Hx Ha]. apply negb_true_iff in Hx.
    rewrite Hx, (IH Ha). done.
Qed.

(** With no [$] in it a replacement text stands for itself. *)
Lemma expand_plain matched before after r :
  all_chars (fun c => negb (char_eqb c "$")) r = true ->
  expand_replacement matched before after r = r.
Proof.
  unfold expand_replacement. induction r as [|c r IH]; [done|].
  simpl. intros [Hc Hr]%andb_true_iff. apply negb_true_iff in Hc.
  rewrite Hc, (IH Hr). done.
Qed.

(** An occurrence of [<svg] cannot begin in a text and end in a [<svg]
    that follows it, unless one begins in the text followed by [<sv]. *)
Lemma tag_not_straddling t r :
  t <> "" -> strip_prefix_ci "<svg" (t +:+ "<sv") = None ->
  strip_prefix_ci "<svg" (t +:+ "<svg" +:+ r) = None.
Proof.
  intros Ht H.
  destruct t as [|a [|b [|c [|d t]]]]; [done|..];
    cbv [String.append] in *; unfold strip_prefix_ci in *;
    cbn [strip_prefix_by] in *;
    repeat match goal with
           | |- context [if char_eqb_ci ?x ?y then _ else _] =>
               destruct (char_eqb_ci x y) eqn:?
           | H : context [if char_eqb_ci ?x ?y then _ else _] |- _ =>
               destruct (char_eqb_ci x y) eqn:?
           end; try reflexivity; try discriminate.
Qed.

Lemma before_root_tag pre rest i :
  index_of_ci "<svg" (pre +:+ "<sv") = None -> i < String.length pre ->
  strip_prefix_ci "<svg" (drop i pre +:+ "<svg" +:+ rest) = None.
Proof.
  unfold index_of_ci. intros H Hi.
  destruct (find_from (strip_prefix_ci "<svg") (pre +:+ "<sv")) as [[j x]|] eqn:E;
    [done|].
  pose proof (find_from_None _ _ E i) as Hnone.
  rewrite drop_within in Hnone by lia.
  apply tag_not_straddling; [by apply drop_nonempty|exact Hnone].
Qed.

(** X6. When the root tag is spelled [<svg], is the first [<svg] of the
    content in any case, and neither its attributes nor the new ones
    hold a [$], [addCustomAttributes] keeps everything and inserts the
    new attributes, in the order of the entries, after the existing ones
    of the root tag. *)
Theorem custom_attributes_are_appended
  (P : Platform) (pre attrs post : string)
  (customProps : list (string * JsVal)) :
  index_of_ci "<svg" (pre +:+ "<sv") = None ->
  all_chars (fun c => negb (is_gt c)) attrs = true ->
  all_chars (fun c => negb (char_eqb c "$"))
    (attrs +:+ SVGGenerator.new_attributes P customProps) = true ->
  SVGGenerator.addCustomAttributes P
    (pre +:+ "<svg" +:+ attrs +:+ ">" +:+ post) customProps
  = pre +:+ "<svg" +:+ attrs +:+ SVGGenerator.new_attributes P customProps
      +:+ ">" +:+ post.
Proof.
  intros Hfirst Hattrs Hplain.
  set (new := SVGGenerator.new_attributes P customProps) in *.
  unfold SVGGenerator.addCustomAttributes. fold new.
  assert (Hscan : regex_match re_svg_open_tag
                    (pre +:+ "<svg" +:+ attrs +:+ ">" +:+ post) = Some attrs).
  { unfold regex_match. rewrite find_from_app.
    - assert (Hhere : re_svg_open_tag ("<svg" +:+ attrs +:+ ">" +:+ post)
                      = Some attrs).
      { unfold re_svg_open_tag.
        change (strip_prefix_ci "<svg" ("<svg" +:+ attrs +:+ ">" +:+ post))
          with (Some (attrs +:+ String ">" post)).
        cbn [mbind option_bind].
        rewrite (index_of_char_stop is_gt attrs ">" post Hattrs eq_refl).
        cbn [mbind option_bind]. by rewrite take_append. }
      by rewrite (find_from_here _ _ _ Hhere).
    - intros i Hi. unfold re_svg_open_tag.
      by rewrite (before_root_tag pre (attrs +:+ ">" +:+ post) i Hfirst Hi). }
  rewrite Hscan. unfold replace_first.
  assert (Hindex : index_of ("<svg" +:+ attrs +:+ ">")
                     (pre +:+ "<svg" +:+ attrs +:+ ">" +:+ post)
                   = Some (String.length pre)).
  { unfold index_of. rewrite find_from_app.
    - assert (Hhere : strip_prefix ("<svg" +:+ attrs +:+ ">")
                        ("<svg" +:+ attrs +:+ ">" +:+ post) = Some post).
      { replace ("<svg" +:+ attrs +:+ ">" +:+ post)
          with (("<svg" +:+ attrs +:+ ">") +:+ post)
          by (by rewrite !append_assoc).
        apply strip_prefix_self. }
      rewrite (find_from_here _ _ _ Hhere). simpl. f_equal. lia.
    - intros i Hi.
      destruct (strip_prefix ("<svg" +:+ attrs +:+ ">")
                  (drop i pre +:+ "<svg" +:+ attrs +:+ ">" +:+ post))
        as [r|] eqn:E; [|done].
      change ("<svg" +:+ attrs +:+ ">") with ("<svg" +:+ (attrs +:+ ">")) in E.
      unfold strip_prefix in E. rewrite strip_prefix_by_app in E.
      pose proof (before_root_tag pre (attrs +:+ ">" +:+ post) i Hfirst Hi)
        as Hci.
      destruct (strip_prefix_by char_eqb "<svg"
                  (drop i pre +:+ "<svg" +:+ attrs +:+ ">" +:+ post))
        as [r'|] eqn:E'; [|done].
      apply strip_prefix_ci_of_exact in E'. congruence. }
  rewrite Hindex. cbv zeta.
  rewrite take_append, drop_add, drop_append.
  replace ("<svg" +:+ attrs +:+ ">" +:+ post)
    with (("<svg" +:+ attrs +:+ ">") +:+ post) by (by rewrite !append_assoc).
  rewrite drop_append, expand_plain.
  - by rewrite !append_assoc.
  - change ("<svg" +:+ (attrs +:+ new) +:+ ">")
      with ("<svg" +:+ ((attrs +:+ new) +:+ ">")).
    rewrite all_chars_app, (all_chars_app _ (attrs +:+ new)), Hplain. done.
Qed.

Lemma custom_attributes_are_appended_witness :
  let P := platform [] engine_identity [] in
  let props := [("fill", JStr "currentColor"); ("role", JNull);
                ("focusable", JBool false)] in
  index_of_ci "<svg" ("<?xml version='1.0'?>" +:+ "<sv") = None
  /\ all_chars (fun c => negb (is_gt c)) " width='16'" = true
  /\ all_chars (fun c => negb (char_eqb c "$"))
       (" width='16'" +:+ SVGGenerator.new_attributes P props) = true
  /\ SVGGenerator.addCustomAttributes P
       ("<?xml version='1.0'?>" +:+ "<svg" +:+ " width='16'" +:+ ">"
        +:+ "<path d='M0 0'/></svg>") props
     = "<?xml version='1.0'?>" +:+ "<svg" +:+ " width='16'"
         +:+ (" fill=" +:+ dquote +:+ "currentColor" +:+ dquote
              +:+ " focusable=" +:+ dquote +:+ "false" +:+ dquote)
         +:+ ">" +:+ "<path d='M0 0'/></svg>".
Proof.
  cbv zeta. split; [reflexivity|]. split; [reflexivity|].
  split; [reflexivity|].
  exact (custom_attributes_are_appended (platform [] engine_identity [])
           "<?xml version='1.0'?>" " width='16'" "<path d='M0 0'/></svg>"
           [("fill", JStr "currentColor"); ("role", JNull);
            ("focusable", JBool false)] eq_refl eq_refl eq_refl).
Defined.

End CustomAttributes.

(** ** FileReader.validateSVGContent *)

Section ContentCheck.
Import JsString Scenario.

Lemma find_from_Some {A} (m : string -> option A) s i a :
  find_from m s = Some (i, a) -> m (drop i s) = Some a.
Proof.
  revert i. induction s as [|c s IH]; intros i; cbn [find_from].
  - destruct (m "") eqn:F; [|done]. by intros [= <- <-].
  - destruct (m (String c s)) eqn:F; [by intros [= <- <-]|].
    destruct (find_from m s) as [[j x]|] eqn:G; [|done].
    intros [= <- <-]. by apply IH.
Qed.

(** [p] occurs in [s]. *)
Lemma includes_occurs p s :
  includes p s = true <-> exists i r, strip_prefix p (drop i s) = Some r.
Proof.
  unfold includes, index_of. split.
  - destruct (find_from (strip_prefix p) s) as [[i r]|] eqn:E; [|done].
    intros _. exists i, r. by apply find_from_Some.
  - intros (i & r & H).
    destruct (find_from (strip_prefix p) s) as [[j x]|] eqn:E; [done|].
    by rewrite (find_from_None _ _ E i) in H.
Qed.

Lemma startsWith_includes p s : startsWith p s = true -> includes p s = true.
Proof.
  unfold startsWith. destruct (strip_prefix p s) as [r|] eqn:E; [|done].
  intros _. apply includes_occurs. by exists 0, r.
Qed.

Lemma skip_spaces_drop s : exists k, skip_spaces s = drop k s.
Proof.
  unfold skip_spaces. induction s as [|c s [k IH]]; [by exists 0|].
  simpl. destruct (is_space c); [|by exists 0].
  destruct (span is_space s). by exists (S k).
Qed.

Lemma occurs_skip_spaces a p s :
  is_space a = false ->
  (exists i r, strip_prefix (String a p) (drop i s) = Some r) ->
  exists i r, strip_prefix (String a p) (drop i (skip_spaces s)) = Some r.
Proof.
  intros Ha (i & r & H). revert i H.
  induction s as [|c s IH]; intros i H.
  - destruct i; done.
  - destruct (is_space c) eqn:Hc.
    + assert (Hskip : skip_spaces (String c s) = skip_spaces s).
      { unfold skip_spaces. simpl. rewrite Hc. by destruct (span is_space s). }
      rewrite Hskip. destruct i as [|i]; [|by apply (IH i)].
      exfalso. unfold strip_prefix in H. cbn in H. unfold char_eqb in H.
      destruct (Ascii.eqb_spec a c) as [->|]; [congruence|done].
    + rewrite skip_spaces_nonspace by done. by exists i, r.
Qed.

Lemma strip_prefix_trimEnd p s r :
  all_chars (fun c => negb (is_space c)) p = true ->
  strip_prefix p s = Some r -> exists r', strip_prefix p (trimEnd s) = Some r'.
Proof.
  unfold strip_prefix. revert s r.
  induction p as [|a p IH]; intros s r Hp H; [by eexists|].
  simpl in Hp. apply andb_true_iff in Hp as [Ha Hp].
  apply negb_true_iff in Ha.
  destruct s as [|c s]; [done|]. cbn [strip_prefix_by] in H.
  unfold char_eqb in H at 1.
  destruct (Ascii.eqb_spec a c) as [<-|]; [|done].
  destruct (IH s r Hp H) as (r' & Hr').
  cbn [trimEnd]. destruct (trimEnd s) as [|d t] eqn:E.
  - rewrite Ha. cbn [strip_prefix_by]. unfold char_eqb at 1.
    rewrite Ascii.eqb_refl. destruct p; [by eexists|done].
  - cbn [strip_prefix_by]. unfold char_eqb at 1.
    rewrite Ascii.eqb_refl. by exists r'.
Qed.

Lemma occurs_trimEnd a p s :
  all_chars (fun c => negb (is_space c)) (String a p) = true ->
  (exists i r, strip_prefix (String a p) (drop i s) = Some r) ->
  exists i r, strip_prefix (String a p) (drop i (trimEnd s)) = Some r.
Proof.
  intros Hp (i & r & H). revert i r H.
  induction s as [|c s IH]; intros i r H.
  - destruct i; done.
  - destruct i as [|i].
    + destruct (strip_prefix_trimEnd _ _ _ Hp H) as (r' & Hr').
      by exists 0, r'.
    + cbn [drop] in H. destruct (IH i r H) as (j & r' & Hj).
      cbn [trimEnd]. destruct (trimEnd s) as [|d t] eqn:E.
      * destruct j; done.
      * by exists (S j), r'.
Qed.

Lemma strip_prefix_extend p s w r :
  strip_prefix p s = Some r -> strip_prefix p (s +:+ w) = Some (r +:+ w).
Proof.
  unfold strip_prefix. revert s.
  induction p as [|a p IH]; intros s H; [by injection H as ->|].
  destruct s as [|c s]; [done|]. rewrite append_cons.
  cbn [strip_prefix_by] in *. destruct (char_eqb a c); [by apply IH|done].
Qed.

Lemma trimEnd_prefix s : exists w, s = trimEnd s +:+ w.
Proof.
  induction s as [|c s [w IH]]; [by exists ""|].
  cbn [trimEnd]. destruct (trimEnd s) as [|d t] eqn:E.
  - destruct (is_space c); [by eexists|].
    exists w. by rewrite append_cons, append_nil_l, IH at 1.
  - exists w. rewrite append_cons. by rewrite IH at 1.
Qed.

Lemma drop_all i s : String.length s <= i -> drop i s = "".
Proof.
  revert i. induction s as [|c s IH]; intros [|i] H; try done.
  - simpl in H. lia.
  - apply IH. simpl in H. lia.
Qed.

Lemma occurs_of_trimEnd a p s :
  (exists i r, strip_prefix (String a p) (drop i (trimEnd s)) = Some r) ->
  exists i r, strip_prefix (String a p) (drop i s) = Some r.
Proof.
  intros (i & r & H). destruct (trimEnd_prefix s) as [w Hw].
  destruct (Nat.le_gt_cases i (String.length (trimEnd s))) as [Hi|Hi].
  - exists i, (r +:+ w). rewrite Hw at 1. rewrite drop_within by done.
    by apply strip_prefix_extend.
  - rewrite drop_all in H by lia. done.
Qed.

(** Trimming neither adds nor removes an occurrence of a text without
    whitespace. *)
Lemma includes_trim a p s :
  all_chars (fun c => negb (is_space c)) (String a p) = true ->
  includes (String a p) (trim s) = includes (String a p) s.
Proof.
  intros Hp. apply eq_true_iff_eq. rewrite !includes_occurs.
  unfold trim, trimStart. split.
  - intros H%occurs_of_trimEnd. destruct H as (i & r & H).
    destruct (skip_spaces_drop s) as [k Hk]. rewrite Hk, <- drop_add in H.
    by exists (k + i), r.
  - intros H. apply occurs_trimEnd; [done|]. apply occurs_skip_spaces; [|done].
    simpl in Hp. apply andb_true_iff in Hp as [Ha _].
    by apply negb_true_iff.
Qed.

(** X7. [validateSVGContent] accepts exactly the non-empty contents that
    hold [<svg] somewhere and either hold [</svg>] somewhere or end,
    trailing whitespace apart, with [/>]; nothing is asked of their
    order or of what surrounds them. An empty content is rejected with a
    [ValidationError], any other rejected content with an
    [SVGProcessingError]. *)
Theorem content_check_accepts_iff (content fileName : string) :
  (FileReader.validateSVGContent content fileName = Ok ()
   <-> content <> ""
       /\ includes "<svg" content = true
       /\ (includes "</svg>" content = true
           \/ endsWith "/>" (trim content) = true))
  /\ (forall e,
         FileReader.validateSVGContent content fileName = Throw e ->
         error_class e
         = if String.eqb content "" then ValidationError
           else SVGProcessingError).
Proof.
  unfold FileReader.validateSVGContent.
  rewrite (includes_trim "<" "svg" content eq_refl).
  rewrite (includes_trim "<" "/svg>" content eq_refl).
  destruct (String.eqb_spec content "") as [->|Hne].
  { split; [split; [done|by intros [? _]]|]. intros e He; first [discriminate He | by injection He as <-]. }
  assert (Hcases :
            forall found closed short : bool,
              ((if negb found
                then Throw (MkError SVGProcessingError
                              ("File does not appear to be a valid SVG: "
                               +:+ fileName) None
                              [("fileName", JStr fileName);
                               ("contentPreview",
                                JStr (take 100 (trim content)))])
                else if negb closed && negb short
                     then Throw (MkError SVGProcessingError
                                   ("SVG file appears to be malformed: "
                                    +:+ fileName) None
                                   [("fileName", JStr fileName);
                                    ("contentPreview",
                                     JStr (take 100 (trim content)))])
                     else Ok ()) = Ok ()
               <-> content <> "" /\ found = true
                   /\ (closed = true \/ short = true))
              /\ (forall e,
                     (if negb found
                      then Throw (MkError SVGProcessingError
                                    ("File does not appear to be a valid SVG: "
                                     +:+ fileName) None
                                    [("fileName", JStr fileName);
                                     ("contentPreview",
                                      JStr (take 100 (trim content)))])
                      else if negb closed && negb short
                           then Throw (MkError SVGProcessingError
                                         ("SVG file appears to be malformed: "
                                          +:+ fileName) None
                                         [("fileName", JStr fileName);
                                          ("contentPreview",
                                           JStr (take 100 (trim content)))])
                           else Ok ()) = Throw e ->
                     error_class e = SVGProcessingError)).
  { intros [] [] []; cbn [negb andb];
      (split; [|intros e He; first [discriminate He | by injection He as <-]]);
      (split; [intros H; first [discriminate H | tauto]
              |intros (_ & Hf & [Hc|Hc]); done]). }
  destruct (startsWith "<svg" (trim content)) eqn:Hstart.
  - pose proof (startsWith_includes _ _ Hstart) as Hinc.
    rewrite (includes_trim "<" "svg" content eq_refl) in Hinc.
    rewrite Hinc. cbn [negb andb].
    specialize (Hcases true). cbn [negb] in Hcases. apply Hcases.
  - cbn [negb andb]. apply Hcases.
Qed.

End ContentCheck.

(** ** FileReader.extractSVGAttributes: the values *)

Section AttributeValues.
Import JsString Scenario.

Lemma span_fst_chars p s : all_chars p (fst (span p s)) = true.
Proof.
  induction s as [|c s IH]; [done|]. simpl. destruct (p c) eqn:E; [|done].
  destruct (span p s). simpl in *. by rewrite E, IH.
Qed.

Lemma no_quote_chars v :
  all_chars (fun c => negb (is_quote c)) v = true -> no_quote v.
Proof.
  unfold no_quote. induction v as [|c v IH]; [done|]. simpl.
  intros [Hc Hv]%andb_true_iff. apply negb_true_iff in Hc.
  by rewrite Hc, (IH Hv).
Qed.

Lemma re_attribute_value name s v :
  re_attribute name s = Some v -> v <> "" /\ no_quote v.
Proof.
  unfold re_attribute. destruct (strip_prefix_ci name s) as [s1|]; [|done].
  cbn [mbind option_bind].
  destruct (skip_spaces s1) as [|e s2]; [done|].
  destruct (Ascii.eqb_spec e "=") as [->|Hne];
    [|by destruct e as [[] [] [] [] [] [] [] []]].
  destruct (skip_spaces s2) as [|q s3]; [done|].
  destruct (is_quote q); [|done].
  pose proof (span_fst_chars (fun c => negb (is_quote c)) s3) as Hv.
  destruct (span (fun c => negb (is_quote c)) s3) as [v' rest].
  destruct v' as [|c v']; [done|]. destruct rest; [done|].
  intros [= <-]. split; [done|]. by apply no_quote_chars.
Qed.

Lemma regex_match_value name s v :
  regex_match (re_attribute name) s = Some v -> v <> "" /\ no_quote v.
Proof.
  unfold regex_match.
  destruct (find_from (re_attribute name) s) as [[i x]|] eqn:E; [|done].
  intros [= <-]. apply find_from_Some in E.
  by apply (re_attribute_value name (drop i s)).
Qed.

(** X8. A value [extractSVGAttributes] reports, for any of the five
    attributes, is never empty and holds no quote character of either
    kind. *)
Theorem extracted_values_are_plain (content v : string) :
  Some v ∈ scanned (FileReader.extractSVGAttributes content) ->
  v <> "" /\ no_quote v.
Proof.
  unfold scanned, FileReader.extractSVGAttributes. cbn.
  rewrite !elem_of_cons, elem_of_nil.
  intros [H|[H|[H|[H|[H|[]]]]]]; symmetry in H;
    by apply regex_match_value in H.
Qed.

Lemma extracted_values_are_plain_witness :
  Some "0 0 24 24" ∈ scanned (FileReader.extractSVGAttributes arrow_content)
  /\ "0 0 24 24" <> "" /\ no_quote "0 0 24 24".
Proof.
  assert (H : Some "0 0 24 24"
              ∈ scanned (FileReader.extractSVGAttributes arrow_content))
    by (apply list_elem_of_In; left; reflexivity).
  split; [exact H|].
  exact (extracted_values_are_plain arrow_content "0 0 24 24" H).
Defined.

End AttributeValues.

(** ** FileReader.readDirectoryRecursive *)

Section Walk.
Import JsString Scenario.
Import FileReader.

(** Induction on a directory tree. *)
Lemma Entry_tree_ind (Q : Entry -> Prop) :
  (forall n r, Q (FileEntry n r)) ->
  (forall n entries, Forall Q entries -> Q (DirectoryEntry n (Ok entries))) ->
  (forall n e, Q (DirectoryEntry n (Throw e))) ->
  (forall n, Q (OtherEntry n)) ->
  forall entry, Q entry.
Proof.
  intros Hfile Hdir Hfail Hother.
  fix IH 1. intros [n r|n [entries|e]|n].
  - apply Hfile.
  - apply Hdir. induction entries as [|entry entries IHentries].
    + constructor.
    + constructor; [apply IH|exact IHentries].
  - apply Hfail.
  - apply Hother.
Qed.

(** What a loop adds when each of its steps adds files with [Q]. *)
Lemma for_entries_adds (Q : FileInfo -> Prop) body entries :
  Forall (fun entry =>
            forall files result,
              body entry files = Ok result ->
              exists found, result = files ++ found /\ Forall Q found)
    entries ->
  forall files result,
    for_entries body entries files = Ok result ->
    exists found, result = files ++ found /\ Forall Q found.
Proof.
  induction 1 as [|entry entries Hentry _ IH]; intros files result.
  - intros [= <-]. exists []. by rewrite app_nil_r.
  - cbn [for_entries]. destruct (body entry files) as [files1|e] eqn:E; [|done].
    intros Hrest. destruct (Hentry files files1 E) as (found1 & -> & H1).
    destruct (IH _ _ Hrest) as (found2 & -> & H2).
    exists (found1 ++ found2). rewrite app_assoc. split; [done|].
    by apply Forall_app.
Qed.

Lemma directory_failure_Ok dirPath r files :
  directory_failure dirPath r = Ok files -> r = Ok files.
Proof. destruct r; [by intros [= <-]|done]. Qed.

Lemma getFileInfo_Ok L filePath read f :
  getFileInfo L filePath read = Ok f ->
  file_path f = filePath /\ read = Ok (file_content f).
Proof. unfold getFileInfo. destruct read; [by intros [= <-]|done]. Qed.

Lemma read_entry_kept P L sub ign entry :
  forall dirPath files result,
    read_entry P L sub ign dirPath entry files = Ok result ->
    exists found,
      result = files ++ found
      /\ Forall (fun f => kept L ign (file_path f)) found.
Proof.
  induction entry as [n r|n entries IH|n e|n] using Entry_tree_ind;
    intros dirPath files result; cbn [read_entry entry_name];
    destruct (shouldIgnorePath L _ ign) as [[]|] eqn:Hign; try done;
    try (intros [= <-]; exists []; by rewrite app_nil_r).
  - destruct (getFileInfo L _ r) as [f|] eqn:E; [|done].
    intros [= <-]. exists [f]. split; [done|]. repeat constructor.
    apply getFileInfo_Ok in E as [-> _]. exact Hign.
  - destruct sub; [|intros [= <-]; exists []; by rewrite app_nil_r].
    intros H%directory_failure_Ok. revert files result H.
    apply for_entries_adds. eapply Forall_impl; [exact IH|].
    intros entry Hentry files result. apply Hentry.
  - destruct sub; [by intros H%directory_failure_Ok|].
    intros [= <-]. exists []. by rewrite app_nil_r.
Qed.

(** X9. Every file the walk adds is one that no ignore pattern matches:
    an entry whose path a pattern matches is skipped, and with it, for a
    directory, everything below it. *)
Theorem walk_returns_no_ignored_file
  (P : Platform) (L : Library) (dirPath : string)
  (listing : Result (list Entry)) (files result : list FileInfo)
  (includeSubdirs : bool) (ignorePatterns : list string) :
  readDirectoryRecursive P L dirPath listing files includeSubdirs
    ignorePatterns = Ok result ->
  exists found,
    result = files ++ found
    /\ Forall (fun f => kept L ignorePatterns (file_path f)) found.
Proof.
  unfold readDirectoryRecursive. intros H%directory_failure_Ok.
  destruct listing as [entries|e]; [|done]. revert files result H.
  apply for_entries_adds. apply Forall_forall. intros entry _ files result.
  apply read_entry_kept.
Qed.

Lemma walk_returns_no_ignored_file_witness :
  let P := platform [] engine_identity [] in
  readDirectoryRecursive P node_library "icons" (Ok icons_listing) [] true
    ["node_modules"]
  = Ok [ file_of "arrow" arrow_content;
         {| file_path := "icons/more/dot.svg"; file_name := "dot";
            file_extension := ".svg"; file_content := "<svg/>" |} ]
  /\ exists found,
      [ file_of "arrow" arrow_content;
        {| file_path := "icons/more/dot.svg"; file_name := "dot";
           file_extension := ".svg"; file_content := "<svg/>" |} ]
      = [] ++ found
      /\ Forall (fun f => kept node_library ["node_modules"] (file_path f))
           found.
Proof.
  cbv zeta. split; [reflexivity|].
  exact (walk_returns_no_ignored_file (platform [] engine_identity [])
           node_library "icons" (Ok icons_listing) [] _ true
           ["node_modules"] eq_refl).
Defined.

Lemma for_entries_ext body body' entries files :
  Forall (fun entry => forall files, body entry files = body' (shallow entry) files)
    entries ->
  for_entries body entries files
  = for_entries body' (map shallow entries) files.
Proof.
  intros H. revert files. induction H as [|entry entries Hentry _ IH];
    intros files; [done|].
  cbn [for_entries map]. rewrite Hentry.
  destruct (body' (shallow entry) files); [apply IH|done].
Qed.

Lemma for_entries_children P L ign dirPath all entries :
  entries ⊆ all ->
  forall files result,
    for_entries (read_entry P L false ign dirPath) entries files = Ok result ->
    exists found,
      result = files ++ found /\ Forall (child_of P dirPath all) found.
Proof.
  intros Hsub. apply for_entries_adds. apply Forall_forall.
  intros entry Hin files result.
  destruct entry as [n r|n l|n]; cbn [read_entry entry_name];
    (destruct (shouldIgnorePath L _ ign) as [[]|]; try done;
     try (intros [= <-]; exists []; by rewrite app_nil_r)).
  destruct (getFileInfo L _ r) as [f|] eqn:E; [|done].
  intros [= <-]. exists [f]. split; [done|]. repeat constructor.
  apply getFileInfo_Ok in E as [Hpath ->].
  exists n, (file_content f). split; [by apply Hsub|done].
Qed.

(** X10. With [includeSubdirs] false the walk enters no directory: what
    a subdirectory holds, or whether it can be listed at all, does not
    change the outcome, and every file added is a readable file listed
    in [dirPath] itself. *)
Theorem flat_walk_stays_in_the_directory
  (P : Platform) (L : Library) (dirPath : string) (entries : list Entry)
  (files : list FileInfo) (ignorePatterns : list string) :
  readDirectoryRecursive P L dirPath (Ok entries) files false ignorePatterns
  = readDirectoryRecursive P L dirPath (Ok (map shallow entries)) files false
      ignorePatterns
  /\ forall result,
      readDirectoryRecursive P L dirPath (Ok entries) files false
        ignorePatterns = Ok result ->
      exists found,
        result = files ++ found /\ Forall (child_of P dirPath entries) found.
Proof.
  unfold readDirectoryRecursive. split.
  - f_equal. apply for_entries_ext. apply Forall_forall.
    intros [n r|n l|n] _ files'; reflexivity.
  - intros result H%directory_failure_Ok. revert H.
    by apply for_entries_children.
Qed.

Lemma for_entries_throws body entries bad :
  bad ∈ entries ->
  (forall files, exists e, body bad files = Throw e) ->
  forall files, exists e, for_entries body entries files = Throw e.
Proof.
  intros Hin Hbad. induction entries as [|entry entries IH]; intros files.
  - by apply elem_of_nil in Hin.
  - cbn [for_entries]. apply elem_of_cons in Hin as [<-|Hin].
    + destruct (Hbad files) as [e ->]. by exists e.
    + destruct (body entry files) as [files1|e]; [by apply IH|by exists e].
Qed.

(** X11. A file of the directory that cannot be read fails the whole
    walk, whatever its extension: the content of every file that is not
    ignored is read before the files are filtered. [readSVGFiles] then
    throws a [FileSystemError] naming the input directory, whose
    [originalError] is the [FileSystemError] of the walk. *)
Theorem unreadable_file_fails_the_walk
  (P : Platform) (L : Library) (inputDir n : string) (cause : JsError)
  (entries : list Entry) (includeSubdirs : option bool)
  (ignorePatterns : option (list string)) (w : World) :
  FileEntry n (Throw cause) ∈ entries ->
  kept L (default [] ignorePatterns) (path_join P inputDir n) ->
  exists e,
    readDirectoryRecursive P L inputDir (Ok entries) []
      (default true includeSubdirs) (default [] ignorePatterns)
    = Throw (MkError FileSystemError
               ("Failed to read directory: " +:+ inputDir) (Some e)
               [("dirPath", JStr inputDir)])
    /\ fst (readSVGFiles (walking P L (Ok entries)) inputDir includeSubdirs
              ignorePatterns w)
       = Throw (MkError FileSystemError
                  ("Failed to read SVG files from directory: " +:+ inputDir)
                  (Some (MkError FileSystemError
                           ("Failed to read directory: " +:+ inputDir)
                           (Some e) [("dirPath", JStr inputDir)]))
                  [("inputDir", JStr inputDir)]).
Proof.
  intros Hin Hkept.
  assert (Hbad : forall files,
             exists e,
               read_entry P L (default true includeSubdirs)
                 (default [] ignorePatterns) inputDir
                 (FileEntry n (Throw cause)) files = Throw e).
  { intros files. cbn [read_entry entry_name]. unfold kept in Hkept.
    rewrite Hkept. by eexists. }
  destruct (for_entries_throws _ entries _ Hin Hbad []) as [e He].
  exists e.
  assert (Hwalk : readDirectoryRecursive P L inputDir (Ok entries) []
                    (default true includeSubdirs) (default [] ignorePatterns)
                  = Throw (MkError FileSystemError
                             ("Failed to read directory: " +:+ inputDir)
                             (Some e) [("dirPath", JStr inputDir)])).
  { unfold readDirectoryRecursive. by rewrite He. }
  split; [exact Hwalk|].
  unfold readSVGFiles. cbn [directory_files walking]. by rewrite Hwalk.
Qed.

Lemma unreadable_file_fails_the_walk_witness :
  let P := platform [] engine_identity [] in
  FileEntry "notes.txt" (Throw (EACCES "icons/notes.txt")) ∈ unreadable_notes
  /\ kept node_library [] (path_join P "icons" "notes.txt")
  /\ exists e,
      fst (readSVGFiles (walking P node_library (Ok unreadable_notes)) "icons"
             None None initial_world)
      = Throw (MkError FileSystemError
                 "Failed to read SVG files from directory: icons"
                 (Some (MkError FileSystemError
                          "Failed to read directory: icons"
                          (Some e) [("dirPath", JStr "icons")]))
                 [("inputDir", JStr "icons")]).
Proof.
  cbv zeta.
  assert (Hin : FileEntry "notes.txt" (Throw (EACCES "icons/notes.txt"))
                ∈ unreadable_notes)
    by (apply list_elem_of_In; right; left; reflexivity).
  split; [exact Hin|]. split; [reflexivity|].
  destruct (unreadable_file_fails_the_walk (platform [] engine_identity [])
              node_library "icons" "notes.txt" (EACCES "icons/notes.txt")
              unreadable_notes None None initial_world Hin eq_refl)
    as (e & _ & Hread).
  exists e. exact Hread.
Defined.

End Walk.

(** ** SVGOptimizer.optimizeSVG and SVGOptimizer.mergeOptions *)

Section Optimizer.
Import JsString Scenario.
Import SVGOptimizer.

Lemma optimizeSVG_run P c o n w :
  optimizeSVG P c o n w
  = (match svgo_optimize P c (engine_config o) with
     | EngineReturns data err =>
         if nonempty err
         then Throw (MkError SVGProcessingError
                       ("SVGO optimization failed: " +:+ default "" err) None
                       [("fileName", JStr n);
                        ("originalError", JStr (default "" err))])
         else Ok data
     | EngineThrows e =>
         if instanceof e SVGProcessingError then Throw e
         else Throw (MkError SVGProcessingError
                       ("Unexpected error during SVG optimization: "
                        +:+ message e) (Some e) [("fileName", JStr n)])
     end, record_engine c w).
Proof.
  unfold optimizeSVG, engine_call, engine_config.
  rewrite try_catch_run, bind_run. cbn [fst snd].
  destruct (svgo_optimize P c _) as [data err|e].
  - destruct (nonempty err); reflexivity.
  - cbn. destruct (instanceof e SVGProcessingError); reflexivity.
Qed.

(** X12. [optimizeSVG] calls the engine once, on the content and with a
    configuration whose [plugins] are the user's alone. It returns the
    engine's [data] exactly when the engine returns with no error, or
    an empty one; everything it throws is an [SVGProcessingError],
    whether the engine reported an error or threw one of any class. *)
Theorem optimizeSVG_outcome
  (P : Platform) (svgContent : string) (o : option SVGOOptions)
  (fileName : string) (w : World) :
  engine_calls (snd (optimizeSVG P svgContent o fileName w))
  = engine_calls w ++ [svgContent]
  /\ plugins (engine_config o) = Some (user_plugins o)
  /\ (forall data,
         fst (optimizeSVG P svgContent o fileName w) = Ok data
         <-> exists err,
             svgo_optimize P svgContent (engine_config o)
             = EngineReturns data err
             /\ nonempty err = false)
  /\ (forall e,
         fst (optimizeSVG P svgContent o fileName w) = Throw e ->
         error_class e = SVGProcessingError).
Proof.
  rewrite optimizeSVG_run. cbn [fst snd]. split; [reflexivity|]. split.
  { unfold engine_config, user_plugins. rewrite svgoConfig_plugins.
    by destruct o. }
  destruct (svgo_optimize P svgContent (engine_config o)) as [data err|e].
  - destruct (nonempty err) eqn:Herr.
    + split; [|by intros e [= <-]].
      intros d. split; [done|]. intros (err' & [= <- <-] & H). congruence.
    + split; [|done]. intros d. split.
      * intros [= <-]. by exists err.
      * by intros (err' & [= <- <-] & _).
  - split; [intros d; split; [by destruct (instanceof _ _)|by intros (? & ? & _)]|].
    intros e'. unfold instanceof. destruct (bool_decide_reflect
      (error_class e = SVGProcessingError)) as [He|He]; by intros [= <-].
Qed.

Lemma out_of_range_defaults :
  out_of_range 2 = false /\ out_of_range 5 = false.
Proof. split; reflexivity. Qed.

(** The properties of the merged options. *)
Lemma merged_properties (u : SVGOOptions) :
  plugins_property (mergeOptions u) = Value (default [] (plugins u))
  /\ floatPrecision_property (mergeOptions u)
     = spread_property (Value 2%float) (floatPrecision_property u)
  /\ transformPrecision_property (mergeOptions u)
     = spread_property (Value 5%float) (transformPrecision_property u)
  /\ settings (mergeOptions u) = settings u ∪ settings defaultOptions.
Proof.
  unfold mergeOptions, spread, with_plugins, plugins.
  destruct (plugins_property u); repeat split; reflexivity.
Qed.

(** X13. [SVGOptimizer.mergeOptions] gives every property of the user's
    object precedence over the default, fills in those the object does
    not have, and always sets [plugins]: a precision the user gives is
    kept, one given as [undefined] stays undefined, and only one left
    out becomes 2, or 5 for transforms. Merging once more changes
    nothing, and merged options pass [validateOptions] exactly when the
    user's do, with the same error otherwise: the default precisions
    are inside the bounds. *)
Theorem merged_svgo_options_are_stable (u : SVGOOptions) :
  mergeOptions (mergeOptions u) = mergeOptions u
  /\ validateOptions (mergeOptions u) = validateOptions u
  /\ plugins (mergeOptions u) = Some (default [] (plugins u))
  /\ floatPrecision (mergeOptions u)
     = merged_read 2%float (floatPrecision_property u)
  /\ transformPrecision (mergeOptions u)
     = merged_read 5%float (transformPrecision_property u)
  /\ forall k,
      setting (mergeOptions u) k
      = match settings u !! k with
        | Some v => v
        | None => setting defaultOptions k
        end.
Proof.
  destruct (merged_properties u) as (Hp & Hf & Ht & Hs).
  assert (Hfp : floatPrecision (mergeOptions u)
                = merged_read 2%float (floatPrecision_property u)).
  { unfold floatPrecision. rewrite Hf.
    by destruct (floatPrecision_property u). }
  assert (Htp : transformPrecision (mergeOptions u)
                = merged_read 5%float (transformPrecision_property u)).
  { unfold transformPrecision. rewrite Ht.
    by destruct (transformPrecision_property u). }
  split; [|split; [|split; [apply merged_plugins|split; [exact Hfp|split;
    [exact Htp|]]]]].
  - destruct (merged_properties (mergeOptions u)) as (Hp2 & Hf2 & Ht2 & Hs2).
    assert (Hp3 : plugins_property (mergeOptions (mergeOptions u))
                  = plugins_property (mergeOptions u)).
    { rewrite Hp2. unfold plugins at 1. by rewrite Hp. }
    assert (Hf3 : floatPrecision_property (mergeOptions (mergeOptions u))
                  = floatPrecision_property (mergeOptions u)).
    { rewrite Hf2, Hf. by destruct (floatPrecision_property u). }
    assert (Ht3 : transformPrecision_property (mergeOptions (mergeOptions u))
                  = transformPrecision_property (mergeOptions u)).
    { rewrite Ht2, Ht. by destruct (transformPrecision_property u). }
    rewrite Hs, <- (assoc_L (∪)), (idemp_L (∪)), <- Hs in Hs2.
    clear Hp Hp2 Hf Ht Hs Hf2 Ht2 Hfp Htp.
    destruct (mergeOptions (mergeOptions u)), (mergeOptions u).
    cbn [plugins_property floatPrecision_property transformPrecision_property
           settings] in *.
    congruence.
  - unfold validateOptions. rewrite Hfp, Htp.
    unfold floatPrecision, transformPrecision.
    destruct (floatPrecision_property u) as [| |x],
      (transformPrecision_property u) as [| |y]; reflexivity.
  - intros k. destruct (settings u !! k) as [v|] eqn:E.
    + by apply merged_setting_user.
    + by apply merged_setting_default.
Qed.

(** Precisions given as [undefined] stay undefined after the merge. *)
Lemma merged_svgo_options_are_stable_witness :
  floatPrecision (mergeOptions undefined_precision) = None
  /\ transformPrecision (mergeOptions undefined_precision) = Some 5%float
  /\ plugins (mergeOptions undefined_precision) = Some []
  /\ validateOptions (mergeOptions undefined_precision) = Ok ().
Proof.
  destruct (merged_svgo_options_are_stable undefined_precision)
    as (_ & Hvalid & Hp & Hf & Ht & _).
  split; [exact Hf|]. split; [exact Ht|]. split; [exact Hp|].
  rewrite Hvalid. reflexivity.
Defined.

End Optimizer.

(** ** The generators: files listed and files written *)

Section GeneratorFiles.
Import JsString Generator Scenario.

Lemma written_record_fs ev w :
  written (record_fs ev w)
  = written w ++ match call ev, failure ev with
                 | WriteFile f d, None => [(f, d)]
                 | _, _ => []
                 end.
Proof.
  unfold written, record_fs. cbn [fs_trace]. rewrite omap_app. f_equal.
  simpl. destruct (call ev), (failure ev); reflexivity.
Qed.

Lemma written_record_console c w : written (record_console c w) = written w.
Proof. reflexivity. Qed.

Lemma lists_its_writes_refl r w : lists_its_writes r w r w.
Proof. split; [done|]. exists []. by rewrite !app_nil_r. Qed.

Lemma lists_its_writes_trans r1 w1 r2 w2 r3 w3 :
  lists_its_writes r1 w1 r2 w2 -> lists_its_writes r2 w2 r3 w3 ->
  lists_its_writes r1 w1 r3 w3.
Proof.
  intros (Hw1 & new1 & Hn1 & Hf1) (Hw2 & new2 & Hn2 & Hf2).
  split; [congruence|]. exists (new1 ++ new2).
  rewrite Hn2, Hn1, Hf2, Hf1, fmap_app, !app_assoc. done.
Qed.

Lemma lists_only_of_its r w r' w' :
  lists_its_writes r w r' w' -> lists_only_writes r w r' w'.
Proof. intros (Hw & new & Hn & Hf). split; [done|]. by exists new, new.*1. Qed.

Lemma lists_only_writes_trans r1 w1 r2 w2 r3 w3 :
  lists_only_writes r1 w1 r2 w2 -> lists_only_writes r2 w2 r3 w3 ->
  lists_only_writes r1 w1 r3 w3.
Proof.
  intros (Hw1 & new1 & l1 & Hn1 & Hf1 & Hl1) (Hw2 & new2 & l2 & Hn2 & Hf2 & Hl2).
  split; [congruence|]. exists (new1 ++ new2), (l1 ++ l2).
  rewrite Hn2, Hn1, Hf2, Hf1, fmap_app, !app_assoc.
  split; [done|]. split; [done|].
  intros x [H|H]%elem_of_app; apply elem_of_app;
    [left; by apply Hl1|right; by apply Hl2].
Qed.

(** A step that writes one file under a [try], lists it and may log:
    the shape of the items and of the index of the React and SVG
    generators, and of the main file of the JSON generator. *)
Ltac listing_step :=
  match goal with |- context [WriteFile ?p ?d] => generalize d; generalize p end;
  intros file data;
  rewrite try_catch_run, !bind_run, fs_call_run;
  destruct (fs_failure _ _ _) as [cause|];
  rewrite ?bind_run, ?when_run;
  match goal with
  | o : IconifyLoaderOptions |- _ => destruct (flag (verbose o))
  end;
  (eexists _, _; split; [reflexivity|]);
  (split; [reflexivity|]);
  cbn [record_console console_call snd];
  rewrite ?written_record_console, written_record_fs; cbn [call failure];
  first [ exists [(file, data)]; by split | exists []; by rewrite !app_nil_r ].

Lemma react_item_lists P o svg r w :
  exists r' w',
    ReactGenerator.generate_item P o svg r w = (Ok r', w')
    /\ lists_its_writes r w r' w'.
Proof.
  unfold ReactGenerator.generate_item, ReactGenerator.generateComponentFile,
    lists_its_writes.
  listing_step.
Qed.

Lemma svg_item_lists P o svg r w :
  exists r' w',
    SVGGenerator.generate_item P o svg r w = (Ok r', w')
    /\ lists_its_writes r w r' w'.
Proof.
  unfold SVGGenerator.generate_item, SVGGenerator.generateSVGFile,
    lists_its_writes.
  listing_step.
Qed.

Lemma react_each_lists P o svgs r w :
  exists r' w',
    ReactGenerator.generate_each P o svgs r w = (Ok r', w')
    /\ lists_its_writes r w r' w'.
Proof.
  revert r w. induction svgs as [|svg svgs IH]; intros r w.
  - exists r, w. split; [done|apply lists_its_writes_refl].
  - cbn [ReactGenerator.generate_each]. rewrite bind_run.
    destruct (react_item_lists P o svg r w) as (r1 & w1 & -> & H1).
    destruct (IH r1 w1) as (r' & w' & Hrun & H2).
    exists r', w'. split; [exact Hrun|].
    exact (lists_its_writes_trans _ _ _ _ _ _ H1 H2).
Qed.

Lemma svg_each_lists P o svgs r w :
  exists r' w',
    SVGGenerator.generate_each P o svgs r w = (Ok r', w')
    /\ lists_its_writes r w r' w'.
Proof.
  revert r w. induction svgs as [|svg svgs IH]; intros r w.
  - exists r, w. split; [done|apply lists_its_writes_refl].
  - cbn [SVGGenerator.generate_each]. rewrite bind_run.
    destruct (svg_item_lists P o svg r w) as (r1 & w1 & -> & H1).
    destruct (IH r1 w1) as (r' & w' & Hrun & H2).
    exists r', w'. split; [exact Hrun|].
    exact (lists_its_writes_trans _ _ _ _ _ _ H1 H2).
Qed.

Lemma react_index_lists P o svgs r w :
  exists r' w',
    ReactGenerator.generate_index P o svgs r w = (Ok r', w')
    /\ lists_its_writes r w r' w'.
Proof.
  unfold ReactGenerator.generate_index.
  destruct (flag (generateIndex o));
    [|exists r, w; split; [done|apply lists_its_writes_refl]].
  unfold ReactGenerator.generateIndexFile, lists_its_writes.
  listing_step.
Qed.

Lemma svg_index_lists P o svgs r w :
  exists r' w',
    SVGGenerator.generate_index P o svgs r w = (Ok r', w')
    /\ lists_its_writes r w r' w'.
Proof.
  unfold SVGGenerator.generate_index.
  destruct (flag (generateIndex o));
    [|exists r, w; split; [done|apply lists_its_writes_refl]].
  unfold SVGGenerator.generateIndexFile, lists_its_writes.
  listing_step.
Qed.

Lemma json_main_lists P o svgs r w :
  exists r' w',
    JSONGenerator.generate_main P o svgs r w = (Ok r', w')
    /\ lists_its_writes r w r' w'.
Proof.
  unfold JSONGenerator.generate_main, JSONGenerator.generateJSONFile,
    lists_its_writes.
  listing_step.
Qed.

(** The creation of the output directory writes no file. *)
Lemma ensure_output_written P o w :
  written (snd (ensure_output P o w)) = written w.
Proof.
  unfold ensure_output, ensureOutputDirectory.
  destruct (nonempty (outputDir o)); [|reflexivity].
  rewrite try_catch_run, fs_call_run.
  destruct (fs_failure P _ _); cbn [fst snd throw]; rewrite written_record_fs;
    cbn [call]; apply app_nil_r.
Qed.

Lemma settle_lists r w r' w' :
  lists_its_writes r w r' w' -> lists_its_writes r w (settle r') w'.
Proof. done. Qed.

Lemma react_lists P svgs o w :
  exists r w',
    ReactGenerator.generateComponents P svgs o w = (Ok r, w')
    /\ warnings r = []
    /\ exists new, written w' = written w ++ new /\ files r = new.*1.
Proof.
  unfold ReactGenerator.generateComponents.
  rewrite try_catch_run, bind_run.
  pose proof (ensure_output_written P o w) as Hens.
  destruct (ensure_output P o w) as [[[]|e] w0]; cbn [fst snd] in *.
  - rewrite bind_run.
    destruct (react_each_lists P o svgs empty_result w0) as (r1 & w1 & -> & H1).
    rewrite bind_run.
    destruct (react_index_lists P o svgs r1 w1) as (r2 & w2 & -> & H2).
    destruct (lists_its_writes_trans _ _ _ _ _ _ H1 H2)
      as (Hw & new & Hn & Hf).
    exists (settle r2), w2. split; [reflexivity|]. split; [exact Hw|].
    exists new. rewrite Hn, Hens. done.
  - eexists _, _. split; [reflexivity|]. split; [reflexivity|].
    exists []. rewrite Hens, app_nil_r. done.
Qed.

Lemma svg_lists P svgs o w :
  exists r w',
    SVGGenerator.generateSVGs P svgs o w = (Ok r, w')
    /\ warnings r = []
    /\ exists new, written w' = written w ++ new /\ files r = new.*1.
Proof.
  unfold SVGGenerator.generateSVGs.
  rewrite try_catch_run, bind_run.
  pose proof (ensure_output_written P o w) as Hens.
  destruct (ensure_output P o w) as [[[]|e] w0]; cbn [fst snd] in *.
  - rewrite bind_run.
    destruct (svg_each_lists P o svgs empty_result w0) as (r1 & w1 & -> & H1).
    rewrite bind_run.
    destruct (svg_index_lists P o svgs r1 w1) as (r2 & w2 & -> & H2).
    destruct (lists_its_writes_trans _ _ _ _ _ _ H1 H2)
      as (Hw & new & Hn & Hf).
    exists (settle r2), w2. split; [reflexivity|]. split; [exact Hw|].
    exists new. rewrite Hn, Hens. done.
  - eexists _, _. split; [reflexivity|]. split; [reflexivity|].
    exists []. rewrite Hens, app_nil_r. done.
Qed.

(** One item of the JSON loop: its file is listed when it is written. *)
Lemma json_item_lists P o svg fs w :
  exists new,
    written (snd (JSONGenerator.generate_individual_item P o svg fs w))
    = written w ++ new
    /\ forall fs',
        fst (JSONGenerator.generate_individual_item P o svg fs w) = Ok fs' ->
        fs' = fs ++ new.*1.
Proof.
  unfold JSONGenerator.generate_individual_item.
  match goal with |- context [WriteFile ?p ?d] => generalize d; generalize p end.
  intros file data.
  rewrite try_catch_run, !bind_run, fs_call_run.
  destruct (fs_failure P _ _) as [e|]; cbn [fst snd throw mret M_ret];
    rewrite written_record_fs; cbn [call failure].
  - exists []. split; [done|]. intros fs'. discriminate.
  - exists [(file, data)]. split; [done|]. by intros fs' [= <-].
Qed.

Lemma json_each_lists P o svgs fs w :
  exists new,
    written (snd (JSONGenerator.generateIndividualJSONFiles_from P o svgs fs w))
    = written w ++ new
    /\ forall fs',
        fst (JSONGenerator.generateIndividualJSONFiles_from P o svgs fs w)
        = Ok fs' ->
        fs' = fs ++ new.*1.
Proof.
  revert fs w. induction svgs as [|svg svgs IH]; intros fs w.
  - exists []. cbn. rewrite !app_nil_r. split; [done|]. by intros fs' [= <-].
  - cbn [JSONGenerator.generateIndividualJSONFiles_from]. rewrite bind_run.
    destruct (json_item_lists P o svg fs w) as (new1 & Hn1 & Hf1).
    destruct (JSONGenerator.generate_individual_item P o svg fs w)
      as [[fs1|e] w1]; cbn [fst snd] in *.
    + destruct (IH fs1 w1) as (new2 & Hn2 & Hf2).
      exists (new1 ++ new2). rewrite Hn2, Hn1, app_assoc. split; [done|].
      intros fs' H. rewrite (Hf2 fs' H), (Hf1 fs1 eq_refl), fmap_app, app_assoc.
      done.
    + exists new1. split; [done|]. intros fs'. discriminate.
Qed.

Lemma json_individual_lists P o svgs r w :
  exists r' w',
    JSONGenerator.generate_individual P o svgs r w = (Ok r', w')
    /\ lists_only_writes r w r' w'.
Proof.
  unfold JSONGenerator.generate_individual,
    JSONGenerator.generateIndividualJSONFiles.
  destruct (flag (generateIndex o)).
  - rewrite try_catch_run, bind_run.
    destruct (json_each_lists P o svgs [] w) as (new & Hn & Hf).
    destruct (JSONGenerator.generateIndividualJSONFiles_from P o svgs [] w)
      as [[fs|e] w1]; cbn [fst snd] in *.
    + rewrite bind_run, when_run. specialize (Hf fs eq_refl).
      destruct (flag (verbose o));
        (eexists _, _; split; [reflexivity|]); (split; [reflexivity|]);
        exists new, new.*1;
        cbn [record_console console_call snd push_files files];
        rewrite ?written_record_console, Hn, Hf; done.
    + eexists _, _. split; [reflexivity|]. split; [reflexivity|].
      exists new, []. cbn. rewrite app_nil_r. split; [done|]. split; [done|].
      set_solver.
  - exists r, w. split; [done|]. apply lists_only_of_its, lists_its_writes_refl.
Qed.

Lemma json_lists P svgs o w :
  exists r w',
    JSONGenerator.generateJSON P svgs o w = (Ok r, w')
    /\ warnings r = []
    /\ exists new, written w' = written w ++ new /\ files r ⊆ new.*1.
Proof.
  unfold JSONGenerator.generateJSON.
  rewrite try_catch_run, bind_run.
  pose proof (ensure_output_written P o w) as Hens.
  destruct (ensure_output P o w) as [[[]|e] w0]; cbn [fst snd] in *.
  - rewrite bind_run.
    destruct (json_main_lists P o svgs empty_result w0) as (r1 & w1 & -> & H1).
    rewrite bind_run.
    destruct (json_individual_lists P o svgs r1 w1) as (r2 & w2 & -> & H2).
    destruct (lists_only_writes_trans _ _ _ _ _ _ (lists_only_of_its _ _ _ _ H1)
                H2) as (Hw & new & listed & Hn & Hf & Hl).
    exists (settle r2), w2. split; [reflexivity|]. split; [exact Hw|].
    exists new. rewrite Hn, Hens. split; [done|].
    cbn [settle set_success files]. by rewrite Hf.
  - eexists _, _. split; [reflexivity|]. split; [reflexivity|].
    exists []. rewrite Hens, app_nil_r. split; [done|]. set_solver.
Qed.

(** X14. No generator ever reports a warning: the [warnings] of every
    [GenerationResult] of the three generators is empty, whatever
    happens to the writes. *)
Theorem generators_never_warn
  (P : Platform) (svgs : list ProcessedSVG) (o : IconifyLoaderOptions)
  (w : World) :
  (exists r, fst (ReactGenerator.generateComponents P svgs o w) = Ok r
             /\ warnings r = [])
  /\ (exists r, fst (SVGGenerator.generateSVGs P svgs o w) = Ok r
                /\ warnings r = [])
  /\ (exists r, fst (JSONGenerator.generateJSON P svgs o w) = Ok r
                /\ warnings r = []).
Proof.
  split; [|split].
  - destruct (react_lists P svgs o w) as (r & w' & -> & Hw & _). by exists r.
  - destruct (svg_lists P svgs o w) as (r & w' & -> & Hw & _). by exists r.
  - destruct (json_lists P svgs o w) as (r & w' & -> & Hw & _). by exists r.
Qed.

(** X15. The [files] of a result are files that were written: for the
    React and the SVG generator, exactly the paths of the successful
    writes of the run, in the order they were made; for the JSON
    generator, paths among those of its successful writes. *)
Theorem listed_files_were_written
  (P : Platform) (svgs : list ProcessedSVG) (o : IconifyLoaderOptions)
  (w : World) :
  (exists r w' new,
      ReactGenerator.generateComponents P svgs o w = (Ok r, w')
      /\ written w' = written w ++ new /\ files r = new.*1)
  /\ (exists r w' new,
         SVGGenerator.generateSVGs P svgs o w = (Ok r, w')
         /\ written w' = written w ++ new /\ files r = new.*1)
  /\ (exists r w' new,
         JSONGenerator.generateJSON P svgs o w = (Ok r, w')
         /\ written w' = written w ++ new /\ files r ⊆ new.*1).
Proof.
  split; [|split].
  - destruct (react_lists P svgs o w) as (r & w' & Hrun & _ & new & Hn & Hf).
    by exists r, w', new.
  - destruct (svg_lists P svgs o w) as (r & w' & Hrun & _ & new & Hn & Hf).
    by exists r, w', new.
  - destruct (json_lists P svgs o w) as (r & w' & Hrun & _ & new & Hn & Hf).
    by exists r, w', new.
Qed.

(** X16. When the output directory cannot be created, each generator
    returns at once: [success] is false, no file is listed, the one
    error names the directory under the generator's prefix, and the
    call of [fs.mkdir] is the only one made; no write is attempted. *)
Theorem no_directory_no_output
  (P : Platform) (svgs : list ProcessedSVG) (o : IconifyLoaderOptions)
  (dir : string) (cause : JsError) (w : World) :
  outputDir o = Some dir -> dir <> "" ->
  fs_failure P (fs_trace w) (Mkdir dir) = Some cause ->
  let w' := record_fs {| call := Mkdir dir; failure := Some cause |} w in
  ReactGenerator.generateComponents P svgs o w
  = (Ok (no_directory_result "Generation failed: " dir), w')
  /\ SVGGenerator.generateSVGs P svgs o w
     = (Ok (no_directory_result "SVG generation failed: " dir), w')
  /\ JSONGenerator.generateJSON P svgs o w
     = (Ok (no_directory_result "JSON generation failed: " dir), w')
  /\ attempted w' = attempted w.
Proof.
  intros Hdir Hne Hfail w'.
  assert (Hens : ensure_output P o w
                 = (Throw (MkError FileSystemError
                             ("Failed to create output directory: " +:+ dir)
                             (Some cause) []), w')).
  { unfold ensure_output, ensureOutputDirectory. rewrite Hdir.
    change (default "" (Some dir)) with dir. unfold nonempty.
    apply String.eqb_neq in Hne. rewrite Hne. cbn [negb].
    rewrite try_catch_run, fs_call_run, Hfail. reflexivity. }
  unfold ReactGenerator.generateComponents, SVGGenerator.generateSVGs,
    JSONGenerator.generateJSON.
  rewrite !try_catch_run, !bind_run, Hens.
  split; [reflexivity|]. split; [reflexivity|]. split; [reflexivity|].
  unfold w'. rewrite attempted_record_fs. apply app_nil_r.
Qed.

Lemma no_directory_no_output_witness :
  let P := without_mkdir (platform [] engine_identity []) in
  let o := with_output "out" (options_of (Some "icons") (Some "svg")) in
  outputDir o = Some "out" /\ "out" <> ""
  /\ fs_failure P (fs_trace initial_world) (Mkdir "out") = Some (EACCES "out")
  /\ fst (SVGGenerator.generateSVGs P two_icons o initial_world)
     = Ok {| success := false; files := [];
             errors := ["SVG generation failed: "
                        +:+ "Failed to create output directory: out"];
             warnings := [] |}
  /\ attempted (snd (SVGGenerator.generateSVGs P two_icons o initial_world))
     = [].
Proof.
  cbv zeta.
  assert (Hne : "out" <> "") by discriminate.
  destruct (no_directory_no_output
              (without_mkdir (platform [] engine_identity [])) two_icons
              (with_output "out" (options_of (Some "icons") (Some "svg")))
              "out" (EACCES "out") initial_world eq_refl Hne eq_refl)
    as (_ & Hsvg & _ & Hatt).
  split; [reflexivity|]. split; [exact Hne|]. split; [reflexivity|].
  rewrite Hsvg. split; [reflexivity|exact Hatt].
Defined.

End GeneratorFiles.

(** ** IconifyLoader: reading, processing, dispatching *)

Section LoaderRuns.
Import JsString Generator Scenario.
Import IconifyLoader.

Lemma only_logged_refl w : only_logged w w.
Proof. done. Qed.

Lemma only_logged_trans w1 w2 w3 :
  only_logged w1 w2 -> only_logged w2 w3 -> only_logged w1 w3.
Proof. intros [H1 H2] [H3 H4]. split; congruence. Qed.

Lemma only_logged_nothing_written w w' :
  only_logged w w' -> nothing_written w w'.
Proof. intros [H _]. unfold nothing_written, attempted, written. by rewrite H. Qed.

Lemma nothing_written_refl w : nothing_written w w.
Proof. done. Qed.

Lemma nothing_written_trans w1 w2 w3 :
  nothing_written w1 w2 -> nothing_written w2 w3 -> nothing_written w1 w3.
Proof. intros [H1 H2] [H3 H4]. split; congruence. Qed.

Lemma log_all_logs msgs w :
  exists w', log_all msgs w = (Ok (), w') /\ only_logged w w'.
Proof.
  revert w. induction msgs as [|m msgs IH]; intros w; [by exists w|].
  cbn [log_all foldr]. rewrite bind_run. cbn [console_call].
  destruct (IH (record_console (ConsoleLog m) w)) as (w' & Hrun & Hlog).
  exists w'. split; [exact Hrun|]. exact Hlog.
Qed.

Lemma when_logs b m w :
  (forall w, exists w', m w = (Ok (), w') /\ only_logged w w') ->
  exists w', when b m w = (Ok (), w') /\ only_logged w w'.
Proof. intros H. destruct b; [apply H|by exists w]. Qed.

Lemma console_logs c w :
  exists w', console_call c w = (Ok (), w') /\ only_logged w w'.
Proof. by eexists. Qed.

(** The filter of [readSVGFiles] and what it throws. *)
Lemma readSVGFiles_run P o w :
  fst (FileReader.readSVGFiles P (interpolate (inputDir o)) (includeSubdirs o)
         (ignorePatterns o) w)
  = match svg_files_found P o with
    | Ok files => Ok files
    | Throw e => Throw (walk_failed (interpolate (inputDir o)) e)
    end
  /\ nothing_written w
       (snd (FileReader.readSVGFiles P (interpolate (inputDir o))
               (includeSubdirs o) (ignorePatterns o) w))
  /\ engine_calls
       (snd (FileReader.readSVGFiles P (interpolate (inputDir o))
               (includeSubdirs o) (ignorePatterns o) w))
     = engine_calls w.
Proof.
  unfold FileReader.readSVGFiles, svg_files_found, nothing_written.
  destruct (directory_files P _ _ _); cbn [fst snd];
    rewrite attempted_record_fs, written_record_fs; cbn [call];
    rewrite !app_nil_r; done.
Qed.

(** [readSVGs]: the files found, or one of its three errors. *)
Lemma readSVGs_run P this w :
  fst (readSVGs P this w)
  = match svg_files_found P (options this) with
    | Ok [] => Throw (no_files_error (interpolate (inputDir (options this))))
    | Ok files => Ok files
    | Throw e =>
        Throw (read_failed (interpolate (inputDir (options this)))
                 (walk_failed (interpolate (inputDir (options this))) e))
    end
  /\ nothing_written w (snd (readSVGs P this w))
  /\ engine_calls (snd (readSVGs P this w)) = engine_calls w.
Proof.
  unfold readSVGs. rewrite try_catch_run, bind_run.
  destruct (readSVGFiles_run P (options this) w) as (Hfst & Hw & He).
  destruct (FileReader.readSVGFiles P _ _ _ w) as [res w1].
  cbn [fst snd] in *. subst res.
  destruct (svg_files_found P (options this)) as [[|f files]|e]; done.
Qed.

(** The optimization step of a file returns, and writes nothing. *)
Lemma optimize_file_run P this file w :
  exists r w',
    optimize_file P this file w = (Ok r, w')
    /\ fs_trace w' = fs_trace w
    /\ engine_calls w'
       = engine_calls w
         ++ (if flag (optimize (options this)) then [file_content file]
             else []).
Proof.
  unfold optimize_file. destruct (flag (optimize (options this)));
    [|exists (file_content file, false), w; by rewrite app_nil_r].
  rewrite try_catch_run, bind_run.
  destruct (SVGOptimizer.optimizeSVG P (file_content file)
              (svgoOptions (options this)) (file_name file) w)
    as [res w1] eqn:E.
  rewrite optimizeSVG_run in E. injection E as _ <-.
  destruct res as [content'|e]; rewrite ?bind_run, ?when_run;
    destruct (flag (verbose (options this)));
    (eexists _, _; split; [reflexivity|]); done.
Qed.

Lemma process_file_valid P this file w :
  valid_file file ->
  exists item w',
    process_file P this file w = (Ok item, w')
    /\ fs_trace w' = fs_trace w
    /\ engine_calls w'
       = engine_calls w
         ++ (if flag (optimize (options this)) then [file_content file]
             else []).
Proof.
  intros Hvalid. unfold process_file.
  rewrite try_catch_run, bind_run, lift_run, Hvalid, bind_run.
  destruct (optimize_file_run P this file w) as (r & w' & -> & Hfs & Heng).
  by eexists _, _.
Qed.

Lemma process_file_invalid P this file e w :
  FileReader.validateSVGContent (file_content file) (file_name file) = Throw e ->
  exists w', process_file P this file w = (Throw e, w') /\ only_logged w w'.
Proof.
  intros Hbad. unfold process_file.
  rewrite try_catch_run, bind_run, lift_run, Hbad, bind_run, when_run.
  destruct (flag (verbose (options this))); by eexists.
Qed.

Lemma processSVGs_valid P this files done w :
  Forall valid_file files ->
  exists items w',
    processSVGs_from P this files done w = (Ok items, w')
    /\ fs_trace w' = fs_trace w
    /\ length items = length done + length files.
Proof.
  intros Hall. revert done w.
  induction Hall as [|file files Hfile _ IH]; intros done w.
  - exists done, w. simpl. split; [done|]. split; [done|lia].
  - cbn [processSVGs_from]. rewrite bind_run.
    destruct (process_file_valid P this file w Hfile) as (item & w1 & -> & H1 & _).
    destruct (IH (done ++ [item]) w1) as (items & w' & -> & H2 & Hlen).
    exists items, w'. split; [done|]. split; [congruence|].
    rewrite Hlen, length_app. simpl. lia.
Qed.

(** The loop stops at the first file that fails the content check: the
    files after it are not looked at. *)
Lemma processSVGs_invalid P this before bad after e done w :
  Forall valid_file before ->
  FileReader.validateSVGContent (file_content bad) (file_name bad) = Throw e ->
  exists w',
    processSVGs_from P this (before ++ bad :: after) done w = (Throw e, w')
    /\ fs_trace w' = fs_trace w
    /\ engine_calls w'
       = engine_calls w
         ++ (if flag (optimize (options this))
             then map file_content before else []).
Proof.
  intros Hall Hbad. revert done w.
  induction Hall as [|file files Hfile _ IH]; intros done w.
  - cbn [app processSVGs_from]. rewrite bind_run.
    destruct (process_file_invalid P this bad e w Hbad) as (w' & -> & Hfs & He).
    exists w'. split; [done|]. split; [done|].
    rewrite He. by destruct (flag _); rewrite app_nil_r.
  - cbn [app processSVGs_from]. rewrite bind_run.
    destruct (process_file_valid P this file w Hfile)
      as (item & w1 & -> & H1 & He1).
    destruct (IH (done ++ [item]) w1) as (w' & -> & H2 & He2).
    exists w'. split; [done|]. split; [congruence|].
    rewrite He2, He1. destruct (flag _); cbn [map]; by rewrite <- app_assoc.
Qed.

Lemma first_invalid files :
  Forall valid_file files
  \/ exists before bad after e,
      files = before ++ bad :: after /\ Forall valid_file before
      /\ FileReader.validateSVGContent (file_content bad) (file_name bad)
         = Throw e.
Proof.
  induction files as [|f files [IH|(before & bad & after & e & -> & Hb & He)]].
  - left. constructor.
  - destruct (FileReader.validateSVGContent (file_content f) (file_name f))
      as [[]|e] eqn:E.
    + left. by constructor.
    + right. by exists [], f, files, e.
  - destruct (FileReader.validateSVGContent (file_content f) (file_name f))
      as [[]|e'] eqn:E.
    + right. exists (f :: before), bad, after, e. split; [done|].
      split; [by constructor|done].
    + right. by exists [], f, (before ++ bad :: after), e'.
Qed.

Lemma valid_format o :
  validateOptions o = Ok () ->
  nonempty (inputDir o) = true
  /\ (format o = Some "svg" \/ format o = Some "react" \/ format o = Some "json").
Proof.
  unfold validateOptions.
  destruct (nonempty (inputDir o)); [|done]. cbn [negb].
  destruct (nonempty (format o)) eqn:Hf; [|done]. cbn [negb].
  destruct (bool_decide_reflect (default "" (format o) ∈ validFormats))
    as [Hin|]; [|done].
  intros _. split; [done|]. destruct (format o) as [f|]; [|done].
  cbn in Hin. unfold validFormats in Hin.
  rewrite !elem_of_cons, elem_of_nil in Hin.
  destruct Hin as [->|[->|[->|[]]]]; auto.
Qed.

(** X17. For a configuration that passed [validateOptions],
    [generateOutput] runs the generator its [format] names and nothing
    else: the [ValidationError] of an unsupported format cannot be
    thrown by a loader the constructor has made. *)
Theorem dispatch_follows_the_format
  (P : Platform) (o : IconifyLoaderOptions) (svgs : list ProcessedSVG) :
  validateOptions o = Ok () ->
  (format o = Some "react"
   /\ generateOutput P {| options := o |} svgs
      = ReactGenerator.generateComponents P svgs o)
  \/ (format o = Some "svg"
      /\ generateOutput P {| options := o |} svgs
         = SVGGenerator.generateSVGs P svgs o)
  \/ (format o = Some "json"
      /\ generateOutput P {| options := o |} svgs
         = JSONGenerator.generateJSON P svgs o).
Proof.
  intros Hvalid. unfold generateOutput. cbn [options].
  destruct (valid_format o Hvalid) as (_ & [H|[H|H]]); rewrite H; auto.
Qed.

Lemma dispatch_follows_the_format_witness :
  let P := platform [] engine_identity [] in
  let o := options_of (Some "icons") (Some "json") in
  validateOptions o = Ok ()
  /\ generateOutput P {| options := o |} two_icons
     = JSONGenerator.generateJSON P two_icons o.
Proof.
  cbv zeta. split; [reflexivity|].
  destruct (dispatch_follows_the_format (platform [] engine_identity [])
              (options_of (Some "icons") (Some "json")) two_icons eq_refl)
    as [[H _]|[[H _]|[_ H]]]; [discriminate H|discriminate H|exact H].
Defined.

Lemma generateOutput_returns P o svgs w :
  validateOptions o = Ok () ->
  exists r w', generateOutput P {| options := o |} svgs w = (Ok r, w').
Proof.
  intros Hvalid. unfold generateOutput. cbn [options].
  destruct (valid_format o Hvalid) as (_ & [H|[H|H]]); rewrite H;
    cbn [interpolate default String.eqb Ascii.eqb Bool.eqb].
  - destruct (svg_run P svgs o w) as (r & w' & Hrun & _). by exists r, w'.
  - destruct (react_run P svgs o w) as (r & w' & Hrun & _). by exists r, w'.
  - destruct (json_run P svgs o w) as (r & w' & Hrun & _). by exists r, w'.
Qed.

(** [process], step by step: between the steps only the console is
    used, and whatever a step throws is thrown again, wrapped. *)
Lemma process_run P this w :
  exists w1,
    only_logged w w1
    /\ match readSVGs P this w1 with
       | (Throw e, w2) => process P this w = (Throw (process_failed e), w2)
       | (Ok svgFiles, w2) =>
           exists w3,
             only_logged w2 w3
             /\ match processSVGs P this svgFiles w3 with
                | (Throw e, w4) =>
                    process P this w = (Throw (process_failed e), w4)
                | (Ok processedSVGs, w4) =>
                    match generateOutput P this processedSVGs w4 with
                    | (Throw e, w5) =>
                        process P this w = (Throw (process_failed e), w5)
                    | (Ok result, w5) =>
                        exists w6,
                          only_logged w5 w6
                          /\ process P this w = (Ok result, w6)
                    end
                end
       end.
Proof.
  unfold process. rewrite try_catch_run, bind_run.
  match goal with |- context [when ?b ?m w] =>
    destruct (when_logs b m w (log_all_logs _)) as (w1 & -> & Hlog1) end.
  exists w1. split; [exact Hlog1|]. rewrite bind_run.
  destruct (readSVGs P this w1) as [[svgFiles|e] w2]; [|reflexivity].
  rewrite bind_run.
  match goal with |- context [when ?b ?m w2] =>
    destruct (when_logs b m w2 (console_logs _)) as (w3 & -> & Hlog3) end.
  exists w3. split; [exact Hlog3|]. rewrite bind_run.
  destruct (processSVGs P this svgFiles w3) as [[processedSVGs|e] w4];
    [|reflexivity].
  rewrite bind_run.
  destruct (generateOutput P this processedSVGs w4) as [[result|e] w5];
    [|reflexivity].
  rewrite bind_run.
  match goal with |- context [when ?b ?m w5] =>
    assert (Hlogs : exists w', when b m w5 = (Ok (), w') /\ only_logged w5 w')
  end.
  { apply when_logs. intros v. rewrite bind_run.
    destruct (log_all_logs
                [ "Process completed successfully!";
                  "Generated " +:+ pretty (length (files result)) +:+ " files" ]
                v) as (v1 & -> & Hv1).
    rewrite bind_run.
    match goal with |- context [when ?b ?m v1] =>
      destruct (when_logs b m v1 (console_logs _)) as (v2 & -> & Hv2) end.
    match goal with |- context [when ?b ?m v2] =>
      destruct (when_logs b m v2 (console_logs _)) as (v3 & -> & Hv3) end.
    exists v3. split; [done|].
    exact (only_logged_trans _ _ _ Hv1 (only_logged_trans _ _ _ Hv2 Hv3)). }
  destruct Hlogs as (w6 & -> & Hlog6). exists w6. by split.
Qed.

Lemma load_run P o w :
  validateOptions o = Ok () -> load P o w = process P {| options := o |} w.
Proof.
  intros Hvalid. unfold load, new. rewrite Hvalid. reflexivity.
Qed.

(** X18. When the walk of the input directory fails, [load] throws an
    [SVGProcessingError] that wraps the [FileSystemError] of [readSVGs],
    which wraps that of [readSVGFiles], which wraps the failure: the
    message names the stage three times over, and no write is
    attempted. *)
Theorem walk_failure_is_wrapped_three_times
  (P : Platform) (o : IconifyLoaderOptions) (dir : string) (cause : JsError)
  (w : World) :
  validateOptions o = Ok () ->
  inputDir o = Some dir ->
  directory_files P dir (default true (includeSubdirs o))
    (default [] (ignorePatterns o)) = Throw cause ->
  fst (load P o w)
  = Throw (process_failed (read_failed dir (walk_failed dir cause)))
  /\ message (process_failed (read_failed dir (walk_failed dir cause)))
     = "IconifyLoader process failed: Failed to read SVG files: "
         +:+ "Failed to read SVG files from directory: " +:+ dir
  /\ nothing_written w (snd (load P o w)).
Proof.
  intros Hvalid Hdir Hwalk. rewrite (load_run P o w Hvalid).
  split; [|split; [reflexivity|]];
    destruct (process_run P {| options := o |} w) as (w1 & Hlog1 & Hrun);
    destruct (readSVGs_run P {| options := o |} w1) as (Hfst & Hw & _);
    destruct (readSVGs P {| options := o |} w1) as [res w2];
    cbn [fst snd options] in *; subst res;
    unfold svg_files_found in Hrun; rewrite Hdir in Hrun;
    change (interpolate (Some dir)) with dir in Hrun;
    rewrite Hwalk in Hrun; rewrite Hrun; [reflexivity|].
  exact (nothing_written_trans _ _ _ (only_logged_nothing_written _ _ Hlog1) Hw).
Qed.

Lemma walk_failure_is_wrapped_three_times_witness :
  let P := without_input (platform [] engine_identity []) in
  let o := options_of (Some "icons") (Some "svg") in
  validateOptions o = Ok ()
  /\ inputDir o = Some "icons"
  /\ message_of_load_error (fst (load P o initial_world))
     = Some ("IconifyLoader process failed: Failed to read SVG files: "
             +:+ "Failed to read SVG files from directory: icons")
  /\ attempted (snd (load P o initial_world)) = [].
Proof.
  cbv zeta.
  destruct (walk_failure_is_wrapped_three_times
              (without_input (platform [] engine_identity []))
              (options_of (Some "icons") (Some "svg")) "icons" _ initial_world
              eq_refl eq_refl eq_refl) as (Hload & _ & Hatt & _).
  split; [reflexivity|]. split; [reflexivity|].
  rewrite Hload. split; [reflexivity|exact Hatt].
Defined.

(** X19. A file that fails the content check stops the whole run before
    anything is written: [load] throws the [SVGProcessingError] wrapping
    the error of the first such file, no write is attempted for the
    files before it either, and the files after it are never handed to
    the engine. *)
Theorem invalid_file_stops_the_run
  (P : Platform) (o : IconifyLoaderOptions)
  (before after : list FileInfo) (bad : FileInfo) (e : JsError) (w : World) :
  validateOptions o = Ok () ->
  svg_files_found P o = Ok (before ++ bad :: after) ->
  Forall valid_file before ->
  FileReader.validateSVGContent (file_content bad) (file_name bad) = Throw e ->
  fst (load P o w) = Throw (process_failed e)
  /\ nothing_written w (snd (load P o w))
  /\ engine_calls (snd (load P o w))
     = engine_calls w
       ++ (if flag (optimize o) then map file_content before else []).
Proof.
  intros Hvalid Hfound Hbefore Hbad. rewrite (load_run P o w Hvalid).
  destruct (process_run P {| options := o |} w) as (w1 & Hlog1 & Hrun).
  destruct (readSVGs_run P {| options := o |} w1) as (Hfst & Hw2 & He2).
  destruct (readSVGs P {| options := o |} w1) as [res w2].
  cbn [fst snd options] in *. subst res. rewrite Hfound in Hrun.
  assert (Hfiles : match before ++ bad :: after with
                   | [] => Throw (no_files_error (interpolate (inputDir o)))
                   | _ :: _ => Ok (before ++ bad :: after)
                   end = Ok (before ++ bad :: after)) by by destruct before.
  rewrite Hfiles in Hrun. destruct Hrun as (w3 & Hlog3 & Hrun).
  destruct (processSVGs_invalid P {| options := o |} before bad after e [] w3
              Hbefore Hbad) as (w4 & Hproc & Hfs4 & He4).
  unfold processSVGs in Hrun. rewrite Hproc in Hrun. rewrite Hrun.
  cbn [fst snd options] in *.
  destruct Hlog1 as [Hfs1 He1], Hlog3 as [Hfs3 He3], Hw2 as [Ha2 Hwr2].
  split; [reflexivity|]. split.
  - unfold nothing_written, attempted, written in *.
    rewrite Hfs4, Hfs3. rewrite Ha2, Hwr2, Hfs1. done.
  - rewrite He4, He3, He2, He1. done.
Qed.

Lemma invalid_file_stops_the_run_witness :
  let P := platform [arrow_file; broken_file; arrow_file] engine_identity [] in
  let o := with_optimize true (options_of (Some "icons") (Some "svg")) in
  validateOptions o = Ok ()
  /\ svg_files_found P o = Ok ([arrow_file] ++ broken_file :: [arrow_file])
  /\ Forall valid_file [arrow_file]
  /\ fst (load P o initial_world)
     = Throw (process_failed
                (MkError SVGProcessingError
                   "File does not appear to be a valid SVG: broken" None
                   [("fileName", JStr "broken");
                    ("contentPreview", JStr "<html></html>")]))
  /\ attempted (snd (load P o initial_world)) = []
  /\ engine_calls (snd (load P o initial_world)) = [arrow_content].
Proof.
  cbv zeta.
  assert (Hvalid : Forall valid_file [arrow_file]) by (by repeat constructor).
  destruct (invalid_file_stops_the_run
              (platform [arrow_file; broken_file; arrow_file] engine_identity [])
              (with_optimize true (options_of (Some "icons") (Some "svg")))
              [arrow_file] [arrow_file] broken_file _ initial_world
              eq_refl eq_refl Hvalid eq_refl) as (Hload & [Hatt _] & Heng).
  split; [reflexivity|]. split; [reflexivity|]. split; [exact Hvalid|].
  split; [exact Hload|]. split; [exact Hatt|exact Heng].
Defined.

(** X20. [load] returns a result exactly when the configuration is
    valid, the walk succeeds and finds at least one SVG file, and every
    file found passes the content check; in every other case it throws.
    A failure of the engine or of a write never makes it throw. *)
Theorem load_returns_iff
  (P : Platform) (o : IconifyLoaderOptions) (w : World) :
  (exists r, fst (load P o w) = Ok r)
  <-> validateOptions o = Ok ()
      /\ exists files,
          svg_files_found P o = Ok files /\ files <> []
          /\ Forall valid_file files.
Proof.
  split.
  - intros [r Hr].
    destruct (validateOptions o) as [[]|e] eqn:Hvalid;
      [|by unfold load, new in Hr; rewrite Hvalid in Hr].
    split; [done|]. rewrite (load_run P o w Hvalid) in Hr.
    destruct (process_run P {| options := o |} w) as (w1 & Hlog1 & Hrun).
    destruct (readSVGs_run P {| options := o |} w1) as (Hfst & _ & _).
    destruct (readSVGs P {| options := o |} w1) as [res w2].
    cbn [fst snd options] in *. subst res.
    destruct (svg_files_found P o) as [[|f files]|e0];
      [by rewrite Hrun in Hr| |by rewrite Hrun in Hr].
    exists (f :: files). split; [done|]. split; [done|].
    destruct Hrun as (w3 & Hlog3 & Hrun).
    destruct (first_invalid (f :: files))
      as [Hall|(before & bad & after & e & Heq & Hbefore & Hbad)]; [done|].
    destruct (processSVGs_invalid P {| options := o |} before bad after e [] w3
                Hbefore Hbad) as (w4 & Hproc & _).
    unfold processSVGs in Hrun. rewrite Heq, Hproc in Hrun.
    by rewrite Hrun in Hr.
  - intros (Hvalid & files & Hfound & Hne & Hall).
    rewrite (load_run P o w Hvalid).
    destruct (process_run P {| options := o |} w) as (w1 & Hlog1 & Hrun).
    destruct (readSVGs_run P {| options := o |} w1) as (Hfst & _ & _).
    destruct (readSVGs P {| options := o |} w1) as [res w2].
    cbn [fst snd options] in *. subst res. rewrite Hfound in Hrun.
    destruct files as [|f files]; [done|].
    destruct Hrun as (w3 & Hlog3 & Hrun).
    destruct (processSVGs_valid P {| options := o |} (f :: files) [] w3 Hall)
      as (items & w4 & Hproc & _).
    unfold processSVGs in Hrun. rewrite Hproc in Hrun.
    destruct (generateOutput_returns P o items w4 Hvalid) as (r & w5 & Hgen).
    rewrite Hgen in Hrun. destruct Hrun as (w6 & _ & ->). by exists r.
Qed.

Lemma spread_property_idemp {A} (d p : Property A) :
  spread_property d (spread_property d p) = spread_property d p.
Proof. by destruct p, d. Qed.

Lemma read_spread_absent {A} (p : Property A) :
  read_property (spread_property Absent p) = read_property p.
Proof. by destruct p. Qed.

Lemma read_spread_value {A} (d : A) (p : Property A) :
  read_property (spread_property (Value d) p) = merged_read d p.
Proof. by destruct p. Qed.

(** X21. [IconifyLoader.mergeOptions] never supplies [inputDir],
    [format] or [svgoOptions], so a merged configuration passes
    [validateOptions] exactly when the user's does, with the same error
    otherwise. Each of the six properties that have a default takes it
    when the user's object does not have the property, keeps the user's
    value when it has one, and stays undefined when the user gives it
    as [undefined]. Merging once more changes nothing. *)
Theorem merged_options_validate_alike (o : IconifyLoaderOptions) :
  validateOptions (mergeOptions o) = validateOptions o
  /\ mergeOptions (mergeOptions o) = mergeOptions o
  /\ inputDir (mergeOptions o) = inputDir o
  /\ format (mergeOptions o) = format o
  /\ svgoOptions (mergeOptions o) = svgoOptions o
  /\ optimize (mergeOptions o) = merged_read true (optimize_property o)
  /\ generateIndex (mergeOptions o)
     = merged_read true (generateIndex_property o)
  /\ typescript (mergeOptions o) = merged_read true (typescript_property o)
  /\ includeSubdirs (mergeOptions o)
     = merged_read true (includeSubdirs_property o)
  /\ ignorePatterns (mergeOptions o)
     = merged_read ["node_modules"; ".git"; "dist"; "build"]
         (ignorePatterns_property o)
  /\ verbose (mergeOptions o) = merged_read false (verbose_property o).
Proof.
  assert (Hin : inputDir (mergeOptions o) = inputDir o)
    by apply read_spread_absent.
  assert (Hfmt : format (mergeOptions o) = format o)
    by apply read_spread_absent.
  assert (Hsvgo : svgoOptions (mergeOptions o) = svgoOptions o)
    by apply read_spread_absent.
  split; [|split].
  - unfold validateOptions. by rewrite Hin, Hfmt, Hsvgo.
  - unfold mergeOptions.
    cbn [inputDir_property outputDir_property format_property
           svgoOptions_property optimize_property generateIndex_property
           typescript_property reactComponentName_property svgProps_property
           fileNameFormatter_property includeSubdirs_property
           ignorePatterns_property verbose_property].
    by rewrite !spread_property_idemp.
  - split; [exact Hin|]. split; [exact Hfmt|]. split; [exact Hsvgo|].
    repeat split; apply read_spread_value.
Qed.

(** A flag given as [undefined] is not replaced by its default. *)
Lemma merged_options_validate_alike_witness :
  optimize (mergeOptions undefined_optimize) = None
  /\ generateIndex (mergeOptions undefined_optimize) = Some true
  /\ validateOptions (mergeOptions undefined_optimize) = Ok ().
Proof.
  destruct (merged_options_validate_alike undefined_optimize)
    as (Hvalid & _ & _ & _ & _ & Hopt & Hidx & _).
  split; [exact Hopt|]. split; [exact Hidx|].
  rewrite Hvalid. reflexivity.
Defined.

End LoaderRuns.

(** ** The configuration: where [svgProps] matters *)

Section CustomProps.
Import JsString Generator Scenario.
Import IconifyLoader.

Lemma same_run_bind {A B} (m m' : M A) (f f' : A -> M B) :
  same_run m m' -> (forall a, same_run (f a) (f' a)) ->
  same_run (m ≫= f) (m' ≫= f').
Proof.
  intros Hm Hf w. rewrite !bind_run, Hm.
  destruct (m' w) as [[a|e] w']; [apply Hf|done].
Qed.

Lemma same_run_try_catch {A} (m m' : M A) h h' :
  same_run m m' -> (forall e, same_run (h e) (h' e)) ->
  same_run (try_catch m h) (try_catch m' h').
Proof.
  intros Hm Hh w. rewrite !try_catch_run, Hm.
  destruct (m' w) as [[a|e] w']; [done|apply Hh].
Qed.

Lemma same_run_refl {A} (m : M A) : same_run m m.
Proof. done. Qed.

Lemma react_each_ignores_props P props o svgs r :
  same_run (ReactGenerator.generate_each P (with_svgProps props o) svgs r)
    (ReactGenerator.generate_each P o svgs r).
Proof.
  revert r. induction svgs as [|svg svgs IH]; intros r; [done|].
  cbn [ReactGenerator.generate_each]. apply same_run_bind; [done|exact IH].
Qed.

Lemma react_ignores_props P props o svgs :
  same_run (ReactGenerator.generateComponents P svgs (with_svgProps props o))
    (ReactGenerator.generateComponents P svgs o).
Proof.
  unfold ReactGenerator.generateComponents.
  apply same_run_try_catch; [|done].
  apply same_run_bind; [done|]. intros _.
  apply same_run_bind; [apply react_each_ignores_props|done].
Qed.

Lemma json_each_ignores_props P props o svgs fs :
  same_run
    (JSONGenerator.generateIndividualJSONFiles_from P (with_svgProps props o)
       svgs fs)
    (JSONGenerator.generateIndividualJSONFiles_from P o svgs fs).
Proof.
  revert fs. induction svgs as [|svg svgs IH]; intros fs; [done|].
  cbn [JSONGenerator.generateIndividualJSONFiles_from].
  apply same_run_bind; [done|exact IH].
Qed.

Lemma json_output_ignores_props P props o svgs :
  JSONGenerator.createJSONOutput P svgs (with_svgProps props o)
  = JSONGenerator.createJSONOutput P svgs o.
Proof.
  unfold JSONGenerator.createJSONOutput. f_equal.
Qed.

Lemma json_ignores_props P props o svgs :
  same_run (JSONGenerator.generateJSON P svgs (with_svgProps props o))
    (JSONGenerator.generateJSON P svgs o).
Proof.
  unfold JSONGenerator.generateJSON.
  apply same_run_try_catch; [|done].
  apply same_run_bind; [done|]. intros _.
  apply same_run_bind.
  - unfold JSONGenerator.generate_main, JSONGenerator.generateJSONFile.
    by rewrite json_output_ignores_props.
  - intros r. apply same_run_bind; [|done].
    unfold JSONGenerator.generate_individual,
      JSONGenerator.generateIndividualJSONFiles.
    change (generateIndex (with_svgProps props o)) with (generateIndex o).
    destruct (flag (generateIndex o)); [|done].
    apply same_run_try_catch; [|done].
    apply same_run_bind; [apply json_each_ignores_props|done].
Qed.

Lemma processSVGs_ignores_props P props o files items :
  same_run
    (processSVGs_from P {| options := with_svgProps props o |} files items)
    (processSVGs_from P {| options := o |} files items).
Proof.
  revert items. induction files as [|file files IH]; intros items; [done|].
  cbn [processSVGs_from]. apply same_run_bind; [done|]. intros item. apply IH.
Qed.

(** X22. [svgProps] matters to the SVG format only: with any other
    [format], a run of [load] does the same (the same calls, the same
    files with the same content, the same result or error) whatever
    [svgProps] holds. The props [generateProps] computes for a React
    component are never rendered. *)
Theorem svgProps_matter_to_svg_only
  (P : Platform) (o : IconifyLoaderOptions)
  (customProps : Property (list (string * JsVal))) :
  format o <> Some "svg" ->
  same_run (load P (with_svgProps customProps o)) (load P o)
  /\ forall svgs,
      same_run
        (ReactGenerator.generateComponents P svgs
           (with_svgProps customProps o))
        (ReactGenerator.generateComponents P svgs o).
Proof.
  intros Hformat. split; [|intros svgs; apply react_ignores_props].
  unfold load, new.
  change (validateOptions (with_svgProps customProps o))
    with (validateOptions o).
  destruct (validateOptions o) as [[]|e] eqn:Hvalid; [|done].
  cbn [mbind Result_bind].
  assert (Hprocess : same_run
                       (process P {| options := with_svgProps customProps o |})
                       (process P {| options := o |}));
    [|intros w; rewrite !bind_run, !lift_run; apply Hprocess].
  unfold process. apply same_run_try_catch; [|done].
  apply same_run_bind; [done|]. intros _.
  apply same_run_bind; [done|]. intros svgFiles.
  apply same_run_bind; [done|]. intros _.
  apply same_run_bind; [apply processSVGs_ignores_props|]. intros items.
  apply same_run_bind; [|done].
  unfold generateOutput. cbn [options].
  change (format (with_svgProps customProps o)) with (format o).
  destruct (valid_format o Hvalid) as (_ & [H|[H|H]]); [done|..]; rewrite H.
  - apply react_ignores_props.
  - apply json_ignores_props.
Qed.

Lemma svgProps_matter_to_svg_only_witness :
  let P := platform [arrow_file] engine_identity [] in
  let o := options_of (Some "icons") (Some "react") in
  format o <> Some "svg"
  /\ load P (with_svgProps (Value [("fill", JStr "red")]) o) initial_world
     = load P o initial_world
  /\ written (snd (load P o initial_world))
     = written
         (snd (load P (with_svgProps (Value [("fill", JStr "red")]) o)
                 initial_world)).
Proof.
  cbv zeta.
  assert (Hne : format (options_of (Some "icons") (Some "react"))
                <> Some "svg") by discriminate.
  pose proof (proj1 (svgProps_matter_to_svg_only
                       (platform [arrow_file] engine_identity [])
                       (options_of (Some "icons") (Some "react"))
                       (Value [("fill", JStr "red")]) Hne) initial_world) as H.
  split; [exact Hne|]. split; [exact H|]. by rewrite H.
Defined.

End CustomProps.

(** ** JSONGenerator: the output object *)

Section JsonOutput.
Import JsString Generator Scenario.
Import JSONGenerator.

Lemma has_key_elem k o : has_key k o = true <-> k ∈ o.*1.
Proof.
  unfold has_key. induction o as [|[k0 v0] o IH]; cbn [existsb fst].
  - cbn. rewrite elem_of_nil. split; [discriminate|tauto].
  - cbn [fmap list_fmap fst]. rewrite elem_of_cons, orb_true_iff, IH.
    by rewrite String.eqb_eq.
Qed.

Lemma has_key_absent k o : has_key k o = false <-> k ∉ o.*1.
Proof.
  rewrite <- has_key_elem. by destruct (has_key k o).
Qed.

Lemma obj_update_keys k v o : (obj_update k v o).*1 = o.*1.
Proof.
  induction o as [|[k0 v0] o IH]; [done|]. cbn [obj_update].
  destruct (String.eqb k k0); cbn; [done|by rewrite IH].
Qed.

Lemma obj_insert_keys k v o x :
  x ∈ (obj_insert k v o).*1 <-> x = k \/ x ∈ o.*1.
Proof.
  induction o as [|[k0 v0] o IH]; cbn [obj_insert].
  - cbn. rewrite elem_of_cons, !elem_of_nil. tauto.
  - destruct (listed_before k k0); cbn; rewrite !elem_of_cons.
    + tauto.
    + rewrite IH. tauto.
Qed.

Lemma obj_insert_NoDup k v o :
  k ∉ o.*1 -> NoDup o.*1 -> NoDup (obj_insert k v o).*1.
Proof.
  induction o as [|[k0 v0] o IH]; cbn [obj_insert];
    [intros _ _; apply NoDup_singleton|].
  cbn. rewrite not_elem_of_cons. intros [Hne Hnotin] [Hk0 Hnd]%NoDup_cons.
  destruct (listed_before k k0); cbn.
  - constructor; [|by constructor]. rewrite elem_of_cons. tauto.
  - constructor; [|by apply IH]. rewrite obj_insert_keys.
    intros [->|]; done.
Qed.

Lemma obj_get_update k k' v o :
  k' ∈ o.*1 ->
  obj_get k (obj_update k' v o) = if String.eqb k k' then v else obj_get k o.
Proof.
  induction o as [|[k0 v0] o IH]; cbn [obj_update obj_get].
  - intros H. by apply elem_of_nil in H.
  - cbn. rewrite elem_of_cons. intros Hin.
    destruct (String.eqb_spec k' k0) as [->|Hne]; cbn [obj_get].
    + by destruct (String.eqb k k0).
    + rewrite IH by (by destruct Hin).
      destruct (String.eqb_spec k k0) as [->|]; [|done].
      destruct (String.eqb_spec k0 k'); [congruence|done].
Qed.

Lemma obj_get_insert k k' v o :
  k' ∉ o.*1 ->
  obj_get k (obj_insert k' v o) = if String.eqb k k' then v else obj_get k o.
Proof.
  induction o as [|[k0 v0] o IH]; cbn [obj_insert obj_get]; [done|].
  cbn. rewrite not_elem_of_cons. intros [Hne Hnotin].
  destruct (listed_before k' k0); cbn [obj_get]; [done|].
  rewrite IH by done.
  destruct (String.eqb_spec k k0) as [->|]; [|done].
  destruct (String.eqb_spec k0 k'); [congruence|done].
Qed.

Lemma obj_get_define k k' v o :
  obj_get k (obj_define k' v o) = if String.eqb k k' then v else obj_get k o.
Proof.
  unfold obj_define. destruct (has_key k' o) eqn:E.
  - by apply obj_get_update, has_key_elem.
  - by apply obj_get_insert, has_key_absent.
Qed.

Lemma obj_define_keys k v o x :
  x ∈ (obj_define k v o).*1 <-> x = k \/ x ∈ o.*1.
Proof.
  unfold obj_define. destruct (has_key k o) eqn:E.
  - rewrite obj_update_keys. apply has_key_elem in E.
    split; [tauto|]. by intros [->|].
  - apply obj_insert_keys.
Qed.

Lemma obj_define_NoDup k v o : NoDup o.*1 -> NoDup (obj_define k v o).*1.
Proof.
  unfold obj_define. destruct (has_key k o) eqn:E.
  - by rewrite obj_update_keys.
  - by apply obj_insert_NoDup, has_key_absent.
Qed.

Lemma obj_define_length k v o : length (obj_define k v o) <= S (length o).
Proof.
  unfold obj_define. destruct (has_key k o).
  - clear. induction o as [|[k0 v0] o IH]; cbn [obj_update]; [simpl; lia|].
    destruct (String.eqb k k0); simpl; lia.
  - clear. induction o as [|[k0 v0] o IH]; cbn [obj_insert]; [simpl; lia|].
    destruct (listed_before k k0); simpl; lia.
Qed.

Lemma listed_before_swap k k' :
  listed_before k k' = true -> listed_before k' k = false.
Proof.
  unfold listed_before.
  destruct (array_index k) as [i|], (array_index k') as [j|]; try done.
  intros H%N.ltb_lt. apply N.ltb_ge. lia.
Qed.

Lemma listed_before_later k k' b :
  listed_before k k' = true -> listed_before b k' = false ->
  listed_before b k = false.
Proof.
  unfold listed_before.
  destruct (array_index k) as [i|], (array_index k') as [j|],
    (array_index b) as [m|]; try done.
  intros H%N.ltb_lt H'%N.ltb_ge. apply N.ltb_ge. lia.
Qed.

Lemma obj_insert_in_order k v o :
  keys_in_order o.*1 -> keys_in_order (obj_insert k v o).*1.
Proof.
  unfold keys_in_order.
  induction o as [|[k0 v0] o IH]; cbn [obj_insert].
  - intros _. cbn. by repeat constructor.
  - cbn. intros Hsorted. inversion Hsorted as [|? ? Hrest Hall]; subst.
    destruct (listed_before k k0) eqn:E; cbn.
    + constructor; [exact Hsorted|]. constructor.
      * by apply listed_before_swap.
      * eapply Forall_impl; [exact Hall|]. intros b Hb.
        by apply (listed_before_later k k0).
    + constructor; [by apply IH|].
      rewrite List.Forall_forall in Hall. apply List.Forall_forall.
      intros b Hb. apply (proj2 (list_elem_of_In _ _)) in Hb.
      apply obj_insert_keys in Hb as [->|Hb]; [done|].
      by apply Hall, list_elem_of_In.
Qed.

Lemma obj_define_in_order k v o :
  keys_in_order o.*1 -> keys_in_order (obj_define k v o).*1.
Proof.
  unfold obj_define. destruct (has_key k o).
  - by rewrite obj_update_keys.
  - apply obj_insert_in_order.
Qed.

(** The entry of an icon has no property [__proto__] of its own. *)
Lemma icon_entry_plain (o : IconifyLoaderOptions) svg :
  inherits_proto_accessor (DataPrototype (icon_entry o svg)) = true.
Proof. unfold icon_entry. by destruct (flag (verbose o)). Qed.

(** One step of the loop of [createJSONOutput], on an object without a
    property [__proto__] of its own and with the accessor in reach: the
    key [__proto__] changes the prototype, any other key the entries. *)
Lemma set_icon (o : IconifyLoaderOptions) svg (icons : PlainObject) :
  inherits_proto_accessor (prototype icons) = true ->
  "__proto__" ∉ (own icons).*1 ->
  obj_set (icon_key svg o) (icon_entry o svg) icons
  = if String.eqb (icon_key svg o) "__proto__"
    then {| prototype := DataPrototype (icon_entry o svg);
            own := own icons |}
    else {| prototype := prototype icons;
            own := obj_define (icon_key svg o) (icon_entry o svg)
                     (own icons) |}.
Proof.
  intros Hacc Hown%has_key_absent. unfold obj_set.
  destruct (String.eqb_spec (icon_key svg o) "__proto__") as [->|Hne];
    [|done].
  by rewrite Hown, Hacc.
Qed.

(** The [icons] object after the loop over [svgs], from [icons]. *)
Lemma icons_fold (o : IconifyLoaderOptions) svgs (icons : PlainObject) :
  inherits_proto_accessor (prototype icons) = true ->
  "__proto__" ∉ (own icons).*1 ->
  let icons' :=
    fold_left (fun icons svg => obj_set (icon_key svg o) (icon_entry o svg) icons)
      svgs icons in
  (NoDup (own icons).*1 -> NoDup (own icons').*1)
  /\ (keys_in_order (own icons).*1 -> keys_in_order (own icons').*1)
  /\ (forall k, k ∈ (own icons').*1
                <-> k ∈ (own icons).*1
                    \/ (k <> "__proto__"
                        /\ exists svg, svg ∈ svgs /\ icon_key svg o = k))
  /\ length (own icons') <= length (own icons) + length svgs
  /\ forall k,
      k <> "__proto__" ->
      obj_get k (own icons')
      = fold_left (fun cur svg =>
                     if String.eqb k (icon_key svg o) then icon_entry o svg
                     else cur) svgs (obj_get k (own icons)).
Proof.
  cbv zeta. revert icons. induction svgs as [|svg svgs IH]; intros icons Hacc Hown.
  - cbn. split; [done|]. split; [done|]. split; [|split; [lia|done]].
    intros k. split; [tauto|]. intros [H|(_ & svg & H & _)]; [done|].
    by apply elem_of_nil in H.
  - cbn [fold_left]. rewrite (set_icon o svg icons Hacc Hown).
    destruct (String.eqb_spec (icon_key svg o) "__proto__") as [Hkey|Hkey].
    + destruct (IH {| prototype := DataPrototype (icon_entry o svg);
                      own := own icons |} (icon_entry_plain o svg) Hown)
        as (Hnd & Hord & Hkeys & Hlen & Hget).
      cbn [own] in *. split; [exact Hnd|]. split; [exact Hord|].
      split; [|split].
      * intros k. rewrite Hkeys. split.
        -- intros [H|(Hk & svg' & Hin & Hsvg)]; [by left|right].
           split; [done|]. exists svg'.
           split; [apply elem_of_cons; by right|done].
        -- intros [H|(Hk & svg' & [->|Hin]%elem_of_cons & Hsvg)];
             [by left|congruence|right].
           split; [done|]. by exists svg'.
      * simpl. lia.
      * intros k Hk. rewrite (Hget k Hk).
        destruct (String.eqb_spec k (icon_key svg o)); [congruence|done].
    + assert (Hown' : "__proto__"
                      ∉ (obj_define (icon_key svg o) (icon_entry o svg)
                           (own icons)).*1).
      { rewrite obj_define_keys. intros [H|H]; [congruence|done]. }
      destruct (IH {| prototype := prototype icons;
                      own := obj_define (icon_key svg o) (icon_entry o svg)
                               (own icons) |} Hacc Hown')
        as (Hnd & Hord & Hkeys & Hlen & Hget).
      cbn [own] in *.
      split; [intros H; by apply Hnd, obj_define_NoDup|].
      split; [intros H; by apply Hord, obj_define_in_order|].
      split; [|split].
      * intros k. rewrite Hkeys, obj_define_keys. split.
        -- intros [[->|H]|(Hk & svg' & Hin & Hsvg)];
             [right|by left|right].
           ++ split; [done|]. exists svg.
              split; [apply elem_of_cons; by left|done].
           ++ split; [done|]. exists svg'.
              split; [apply elem_of_cons; by right|done].
        -- intros [H|(Hk & svg' & [->|Hin]%elem_of_cons & Hsvg)];
             [left; by right|left; by left|right].
           split; [done|]. by exists svg'.
      * pose proof (obj_define_length (icon_key svg o) (icon_entry o svg)
                      (own icons)).
        simpl. lia.
      * intros k Hk. rewrite (Hget k Hk), obj_get_define. done.
Qed.

Lemma last_wins (o : IconifyLoaderOptions) before svg after k cur :
  icon_key svg o = k ->
  Forall (fun s => icon_key s o <> k) after ->
  fold_left (fun cur s =>
               if String.eqb k (icon_key s o) then icon_entry o s else cur)
    (before ++ svg :: after) cur
  = icon_entry o svg.
Proof.
  intros Hk Hafter. rewrite fold_left_app. cbn [fold_left].
  rewrite Hk, String.eqb_refl.
  induction Hafter as [|s after Hs _ IH]; [done|]. cbn [fold_left].
  destruct (String.eqb_spec k (icon_key s o)); [congruence|exact IH].
Qed.

(** The [icons] of an output, as the loop leaves them. *)
Lemma icons_of_output P svgs (o : IconifyLoaderOptions) :
  icons_of (createJSONOutput P svgs o)
  = own (fold_left (fun icons svg =>
                      obj_set (icon_key svg o) (icon_entry o svg) icons)
           svgs new_object).
Proof. reflexivity. Qed.

(** X23. The [icons] object of [createJSONOutput] has one entry for each
    key among the icons other than [__proto__], that of the last icon
    with the key: an icon whose key is taken again later is not in the
    output, nor is an icon whose key is [__proto__], which the
    assignment makes the prototype of [icons] instead. The keys stand
    in the order of [Object.keys], those that are array indices first;
    [totalIcons] still counts every icon given. *)
Theorem json_icons_keep_the_last_of_a_key
  (P : Platform) (svgs : list ProcessedSVG) (o : IconifyLoaderOptions) :
  let icons := icons_of (createJSONOutput P svgs o) in
  NoDup icons.*1
  /\ keys_in_order icons.*1
  /\ (forall k, k ∈ icons.*1
                <-> k <> "__proto__"
                    /\ exists svg, svg ∈ svgs /\ icon_key svg o = k)
  /\ (forall before svg after,
         svgs = before ++ svg :: after ->
         icon_key svg o <> "__proto__" ->
         Forall (fun s => icon_key s o <> icon_key svg o) after ->
         obj_get (icon_key svg o) icons = icon_entry o svg)
  /\ length icons <= length svgs
  /\ totalIcons_of (createJSONOutput P svgs o)
     = JNum (num_of_nat (length svgs)).
Proof.
  cbv zeta. rewrite icons_of_output.
  destruct (icons_fold o svgs new_object eq_refl (not_elem_of_nil _))
    as (Hnd & Hord & Hkeys & Hlen & Hget).
  split; [apply Hnd; constructor|]. split; [apply Hord; constructor|].
  split; [|split; [|split; [exact Hlen|done]]].
  - intros k. rewrite Hkeys. cbn. rewrite elem_of_nil. tauto.
  - intros before svg after -> Hkey Hafter. rewrite (Hget _ Hkey).
    by apply (last_wins o before svg after).
Qed.

Lemma json_icons_keep_the_last_of_a_key_witness :
  let P := platform [] engine_identity [] in
  let o := options_of (Some "icons") (Some "json") in
  let last := item_of {| file_path := "icons/more/a.svg"; file_name := "a";
                         file_extension := ".svg";
                         file_content := "<svg/>" |} in
  mixed_icons = [ item_of (file_of "a" arrow_content);
                  item_of (file_of "__proto__" arrow_content);
                  item_of (file_of "10" arrow_content);
                  item_of (file_of "9" arrow_content) ] ++ last :: []
  /\ (icons_of (createJSONOutput P mixed_icons o)).*1 = ["9"; "10"; "a"]
  /\ obj_get "a" (icons_of (createJSONOutput P mixed_icons o))
     = icon_entry o last
  /\ totalIcons_of (createJSONOutput P mixed_icons o)
     = JNum (num_of_nat 5).
Proof.
  cbv zeta.
  destruct (json_icons_keep_the_last_of_a_key
              (platform [] engine_identity []) mixed_icons
              (options_of (Some "icons") (Some "json")))
    as (_ & _ & _ & Hlast & _ & Htotal).
  split; [reflexivity|]. split; [reflexivity|].
  split; [|exact Htotal].
  exact (Hlast [ item_of (file_of "a" arrow_content);
                 item_of (file_of "__proto__" arrow_content);
                 item_of (file_of "10" arrow_content);
                 item_of (file_of "9" arrow_content) ] _ []
           eq_refl ltac:(discriminate) (Forall_nil_2 _)).
Defined.

(** X24. Every output [createJSONOutput] or [mergeJSONOutputs] builds is
    an object that passes [validateJSONOutput], provided the timestamp
    of the platform is not empty. *)
Theorem built_outputs_validate
  (P : Platform) (svgs : list ProcessedSVG) (o : IconifyLoaderOptions)
  (outputs : list JSONOutput) :
  Date_toISOString P <> "" ->
  (exists fields,
      entries_of (createJSONOutput P svgs o) = Some fields
      /\ validateJSONOutput fields = true)
  /\ (exists fields,
         entries_of (mergeJSONOutputs P outputs) = Some fields
         /\ validateJSONOutput fields = true).
Proof.
  intros Hdate%String.eqb_neq.
  split; (eexists; split; [reflexivity|]); unfold validateJSONOutput;
    cbn [obj_get String.eqb Ascii.eqb Bool.eqb truthy typeof property negb
           orb]; by rewrite Hdate.
Qed.

Lemma built_outputs_validate_witness :
  let P := platform [] engine_identity [] in
  let o := options_of (Some "icons") (Some "json") in
  Date_toISOString P <> ""
  /\ exists fields,
      entries_of (createJSONOutput P two_icons o) = Some fields
      /\ validateJSONOutput fields = true.
Proof.
  cbv zeta.
  assert (Hne : Date_toISOString (platform [] engine_identity []) <> "")
    by discriminate.
  split; [exact Hne|].
  exact (proj1 (built_outputs_validate (platform [] engine_identity [])
                  two_icons (options_of (Some "icons") (Some "json")) []
                  Hne)).
Defined.

(** Assigning properties none of which is called [__proto__] defines
    them; the prototype stays. *)
Lemma assign_plain (acc : PlainObject) fields :
  "__proto__" ∉ fields.*1 ->
  obj_assign acc fields
  = {| prototype := prototype acc; own := obj_spread (own acc) fields |}.
Proof.
  unfold obj_assign, obj_spread. revert acc.
  induction fields as [|[k0 v0] fields IH]; intros acc; [by destruct acc|].
  cbn. rewrite not_elem_of_cons. intros [Hne Hnotin].
  cbn [fold_left fst snd]. rewrite (IH _ Hnotin). unfold obj_set.
  destruct (String.eqb_spec k0 "__proto__"); [congruence|done].
Qed.

Lemma get_spread k acc fields :
  obj_get k (obj_spread acc fields)
  = fold_left (fun cur kv => if String.eqb k kv.1 then kv.2 else cur) fields
      (obj_get k acc).
Proof.
  unfold obj_spread. revert acc.
  induction fields as [|[k0 v0] fields IH]; intros acc; [done|].
  cbn [fold_left fst snd]. by rewrite IH, obj_get_define.
Qed.

Lemma spread_keys acc fields x :
  x ∈ (obj_spread acc fields).*1 <-> x ∈ acc.*1 \/ x ∈ fields.*1.
Proof.
  unfold obj_spread. revert acc.
  induction fields as [|[k0 v0] fields IH]; intros acc.
  - cbn. rewrite elem_of_nil. tauto.
  - cbn [fold_left fst snd]. rewrite IH, obj_define_keys. cbn.
    rewrite elem_of_cons. tauto.
Qed.

Lemma obj_get_absent k fields : k ∉ fields.*1 -> obj_get k fields = JUndefined.
Proof.
  induction fields as [|[k0 v0] fields IH]; [done|]. cbn.
  rewrite not_elem_of_cons. intros [Hne Hnotin].
  destruct (String.eqb_spec k k0); [done|by apply IH].
Qed.

Lemma spread_lookup k fields cur :
  NoDup fields.*1 ->
  fold_left (fun cur kv => if String.eqb k kv.1 then kv.2 else cur) fields cur
  = if bool_decide (k ∈ fields.*1) then obj_get k fields else cur.
Proof.
  revert cur. induction fields as [|[k0 v0] fields IH]; intros cur Hnd.
  - cbn. by rewrite bool_decide_eq_false_2 by apply not_elem_of_nil.
  - cbn in Hnd. apply NoDup_cons in Hnd as [Hnotin Hnd].
    cbn [fold_left fst snd obj_get]. rewrite (IH _ Hnd).
    destruct (String.eqb_spec k k0) as [->|Hne].
    + rewrite (bool_decide_eq_false_2 _ Hnotin).
      by rewrite bool_decide_eq_true_2 by (cbn; apply elem_of_cons; by left).
    + cbn. destruct (bool_decide_reflect (k ∈ fields.*1)) as [Hin|Hnin].
      * by rewrite bool_decide_eq_true_2 by (apply elem_of_cons; by right).
      * rewrite bool_decide_eq_false_2; [done|].
        rewrite not_elem_of_cons. by split.
Qed.

Lemma last_of_key (o : IconifyLoaderOptions) k svgs cur cur' :
  (exists svg, svg ∈ svgs /\ icon_key svg o = k) ->
  fold_left (fun cur s =>
               if String.eqb k (icon_key s o) then icon_entry o s else cur)
    svgs cur
  = fold_left (fun cur s =>
                 if String.eqb k (icon_key s o) then icon_entry o s else cur)
      svgs cur'.
Proof.
  revert cur cur'. induction svgs as [|s svgs IH]; intros cur cur'.
  - intros (svg & Hin & _). by apply elem_of_nil in Hin.
  - intros (svg & Hin & Hk). cbn [fold_left].
    destruct (String.eqb_spec k (icon_key s o)) as [Heq|Hne]; [done|].
    apply IH. apply elem_of_cons in Hin as [->|Hin]; [congruence|].
    by exists svg.
Qed.

Lemma no_such_key (o : IconifyLoaderOptions) k svgs cur :
  ~ (exists svg, svg ∈ svgs /\ icon_key svg o = k) ->
  fold_left (fun cur s =>
               if String.eqb k (icon_key s o) then icon_entry o s else cur)
    svgs cur
  = cur.
Proof.
  revert cur. induction svgs as [|s svgs IH]; intros cur Hno; [done|].
  cbn [fold_left]. destruct (String.eqb_spec k (icon_key s o)) as [Heq|Hne].
  - exfalso. apply Hno. exists s. split; [apply elem_of_cons; by left|done].
  - apply IH. intros (svg & Hin & Hk). apply Hno. exists svg.
    split; [apply elem_of_cons; by right|done].
Qed.

(** The [icons] of an output have no property [__proto__]. *)
Lemma icons_without_proto P batch (o : IconifyLoaderOptions) :
  "__proto__" ∉ (icons_of (createJSONOutput P batch o)).*1.
Proof.
  rewrite icons_of_output.
  destruct (icons_fold o batch new_object eq_refl (not_elem_of_nil _))
    as (_ & _ & Hkeys & _).
  cbv zeta in Hkeys. rewrite Hkeys. cbn. rewrite elem_of_nil.
  intros [[]|[H _]]. done.
Qed.

(** Assigning the entries of a batch's [icons] one by one gives, for
    each key, what the loop over the batch gives. *)
Lemma spread_batch P (o : IconifyLoaderOptions) k batch acc :
  k <> "__proto__" ->
  obj_get k (obj_spread acc (icons_of (createJSONOutput P batch o)))
  = fold_left (fun cur s =>
                 if String.eqb k (icon_key s o) then icon_entry o s else cur)
      batch (obj_get k acc).
Proof.
  intros Hk. rewrite icons_of_output.
  destruct (icons_fold o batch new_object eq_refl (not_elem_of_nil _))
    as (Hnd & _ & Hkeys & _ & Hget).
  cbv zeta in Hnd, Hkeys, Hget. rewrite get_spread.
  rewrite spread_lookup by (apply Hnd; constructor).
  match goal with
  | |- context [bool_decide ?Q] =>
      destruct (bool_decide_reflect Q) as [Hin|Hnin]
  end.
  - rewrite (Hget k Hk). apply (last_of_key o k batch).
    apply Hkeys in Hin as [Hin|[_ Hin]]; [by apply elem_of_nil in Hin|done].
  - symmetry. apply (no_such_key o k batch). intros H. apply Hnin, Hkeys.
    by right.
Qed.

Lemma merged_lookup P (o : IconifyLoaderOptions) k batches acc :
  k <> "__proto__" ->
  obj_get k
    (own (fold_left (fun mergedIcons output =>
                       obj_assign mergedIcons (output_icons output))
            (map (output_of P o) batches) acc))
  = fold_left (fun cur s =>
                 if String.eqb k (icon_key s o) then icon_entry o s else cur)
      (concat batches) (obj_get k (own acc)).
Proof.
  intros Hk. revert acc.
  induction batches as [|batch batches IH]; intros acc; [done|].
  cbn [map fold_left concat]. rewrite IH, fold_left_app.
  cbn [output_of output_icons].
  rewrite assign_plain by apply icons_without_proto.
  cbn [own]. by rewrite spread_batch.
Qed.

Lemma merged_without_proto P (o : IconifyLoaderOptions) batches acc :
  "__proto__" ∉ (own acc).*1 ->
  "__proto__"
  ∉ (own (fold_left (fun mergedIcons output =>
                       obj_assign mergedIcons (output_icons output))
            (map (output_of P o) batches) acc)).*1.
Proof.
  revert acc. induction batches as [|batch batches IH]; intros acc Hacc;
    [done|].
  cbn [map fold_left]. apply IH. cbn [output_of output_icons].
  rewrite assign_plain by apply icons_without_proto.
  cbn [own]. rewrite spread_keys. intros [H|H]; [done|].
  by apply icons_without_proto in H.
Qed.

(** X25. Merging the outputs of batches of icons agrees, key by key,
    with the output of all the icons together: under every key the
    merged [icons] holds what [createJSONOutput] of the concatenated
    batches holds, so where batches share a key the later one wins. *)
Theorem merged_batches_agree_with_the_whole
  (P : Platform) (o : IconifyLoaderOptions)
  (batches : list (list ProcessedSVG)) (k : string) :
  obj_get k (icons_of (mergeJSONOutputs P (map (output_of P o) batches)))
  = obj_get k (icons_of (createJSONOutput P (concat batches) o)).
Proof.
  change (icons_of (mergeJSONOutputs P (map (output_of P o) batches)))
    with (own (fold_left (fun mergedIcons output =>
                            obj_assign mergedIcons (output_icons output))
                 (map (output_of P o) batches) new_object)).
  destruct (String.eqb_spec k "__proto__") as [->|Hk].
  - rewrite !obj_get_absent;
      [done|apply icons_without_proto
      |apply merged_without_proto, not_elem_of_nil].
  - rewrite (merged_lookup P o k batches new_object Hk), icons_of_output.
    destruct (icons_fold o (concat batches) new_object eq_refl
                (not_elem_of_nil _)) as (_ & _ & _ & _ & Hget).
    cbv zeta in Hget. by rewrite (Hget k Hk).
Qed.

End JsonOutput.

(** ** FileReader.readSVGFiles over the walk *)

Section WalkedFiles.
Import JsString Scenario.
Import FileReader.

Lemma read_entry_described P L sub ign entry :
  forall dirPath files result,
    read_entry P L sub ign dirPath entry files = Ok result ->
    exists found,
      result = files ++ found /\ Forall (described_by L) found.
Proof.
  induction entry as [n r|n entries IH|n e|n] using Entry_tree_ind;
    intros dirPath files result; cbn [read_entry entry_name];
    destruct (shouldIgnorePath L _ ign) as [[]|] eqn:Hign; try done;
    try (intros [= <-]; exists []; by rewrite app_nil_r).
  - unfold getFileInfo. destruct r as [c|]; [|done].
    intros [= <-]. eexists [_]. split; [done|]. by repeat constructor.
  - destruct sub; [|intros [= <-]; exists []; by rewrite app_nil_r].
    intros H%directory_failure_Ok. revert files result H.
    apply for_entries_adds. eapply Forall_impl; [exact IH|].
    intros entry Hentry files result. apply Hentry.
  - destruct sub; [by intros H%directory_failure_Ok|].
    intros [= <-]. exists []. by rewrite app_nil_r.
Qed.

(** X26. On a platform whose listing is the walk, every file
    [readSVGFiles] returns has the extension [.svg] once its path's
    extension is put in lowercase, so [Arrow.SVG] is an SVG file too;
    its name is what [path.basename] leaves of the path when asked to
    drop the lowercase [.svg]. *)
Theorem svg_files_by_lowercased_extension
  (P : Platform) (L : Library) (root : Result (list Entry))
  (inputDir : string) (includeSubdirs : option bool)
  (ignorePatterns : option (list string)) (w : World)
  (files : list FileInfo) :
  fst (readSVGFiles (walking P L root) inputDir includeSubdirs ignorePatterns w)
  = Ok files ->
  Forall (fun f =>
            toLowerCase (path_extname L (file_path f)) = ".svg"
            /\ file_name f = path_basename L (file_path f) ".svg") files.
Proof.
  unfold readSVGFiles. cbn [directory_files walking].
  destruct (readDirectoryRecursive P L inputDir root [] _ _)
    as [all|e] eqn:Hwalk; [|done].
  cbn [fst]. intros [= <-].
  unfold readDirectoryRecursive in Hwalk.
  apply directory_failure_Ok in Hwalk.
  destruct root as [entries|e]; [|done].
  assert (Hall : exists found, all = [] ++ found /\ Forall (described_by L) found).
  { revert Hwalk. apply for_entries_adds. apply Forall_forall.
    intros entry _ files' result. apply read_entry_described. }
  destruct Hall as (found & -> & Hfound). cbn [app].
  apply Forall_forall. intros f [Hext Hin]%list_elem_of_filter.
  rewrite Forall_forall in Hfound. destruct (Hfound f Hin) as [Hlower Hname].
  unfold SVG_EXTENSIONS in Hext.
  apply elem_of_cons in Hext as [Hext|Hext]; [|by apply elem_of_nil in Hext].
  rewrite Hname, <- Hlower, Hext. done.
Qed.

Lemma svg_files_by_lowercased_extension_witness :
  let P := platform [] engine_identity [] in
  fst (readSVGFiles (walking P node_library (Ok capital_listing)) "icons"
         None None initial_world)
  = Ok [ {| file_path := "icons/Arrow.SVG"; file_name := "Arrow.SVG";
            file_extension := ".svg"; file_content := arrow_content |} ]
  /\ Forall (fun f =>
               toLowerCase (path_extname node_library (file_path f)) = ".svg"
               /\ file_name f
                  = path_basename node_library (file_path f) ".svg")
       [ {| file_path := "icons/Arrow.SVG"; file_name := "Arrow.SVG";
            file_extension := ".svg"; file_content := arrow_content |} ].
Proof.
  cbv zeta. split; [reflexivity|].
  exact (svg_files_by_lowercased_extension (platform [] engine_identity [])
           node_library (Ok capital_listing) "icons" None None initial_world
           _ eq_refl).
Defined.

End WalkedFiles.

(** ** IconifyLoader.load: what it throws *)

Section LoadErrors.
Import JsString Generator Scenario.
Import IconifyLoader.

Lemma validateOptions_errors o e :
  validateOptions o = Throw e ->
  error_class e = ValidationError \/ error_class e = SVGProcessingError.
Proof.
  unfold validateOptions.
  destruct (nonempty (inputDir o)); [|intros [= <-]; by left]. cbn [negb].
  destruct (nonempty (format o)); [|intros [= <-]; by left]. cbn [negb].
  destruct (bool_decide _); [|intros [= <-]; by left]. cbn [negb].
  destruct (svgoOptions o) as [so|]; [|done].
  unfold SVGOptimizer.validateOptions.
  destruct (floatPrecision so) as [x|];
    [destruct (SVGOptimizer.out_of_range x); [intros [= <-]; by right|]|];
    cbn [mbind Result_bind];
    (destruct (transformPrecision so) as [y|]; [|done]);
    (destruct (SVGOptimizer.out_of_range y); [intros [= <-]; by right|done]).
Qed.

(** X27. Whatever [load] throws is a [ValidationError] or an
    [SVGProcessingError]. It is thrown by the constructor, before
    anything is done, or it is the [SVGProcessingError] in which
    [process] wraps an error, with that error as [originalError]: a
    [FileSystemError] never reaches the caller unwrapped. *)
Theorem load_throws_two_classes
  (P : Platform) (o : IconifyLoaderOptions) (w : World) (e : JsError) :
  fst (load P o w) = Throw e ->
  (error_class e = ValidationError \/ error_class e = SVGProcessingError)
  /\ ((validateOptions o = Throw e /\ snd (load P o w) = w)
      \/ (validateOptions o = Ok ()
          /\ exists cause, e = process_failed cause)).
Proof.
  intros Hthrow.
  destruct (validateOptions o) as [[]|e0] eqn:Hvalid.
  - rewrite (load_run P o w Hvalid) in Hthrow.
    assert (Hwrapped : exists cause, e = process_failed cause).
    { destruct (process_run P {| options := o |} w) as (w1 & _ & Hrun).
      destruct (readSVGs P {| options := o |} w1) as [[svgFiles|e1] w2];
        [|rewrite Hrun in Hthrow; injection Hthrow as <-; by exists e1].
      destruct Hrun as (w3 & _ & Hrun).
      destruct (processSVGs P {| options := o |} svgFiles w3)
        as [[items|e1] w4];
        [|rewrite Hrun in Hthrow; injection Hthrow as <-; by exists e1].
      destruct (generateOutput P {| options := o |} items w4)
        as [[r|e1] w5];
        [|rewrite Hrun in Hthrow; injection Hthrow as <-; by exists e1].
      destruct Hrun as (w6 & _ & Hrun). by rewrite Hrun in Hthrow. }
    destruct Hwrapped as (cause & ->). split; [by right|]. right.
    split; [done|]. by exists cause.
  - unfold load, new in *. rewrite Hvalid in *. cbn in Hthrow.
    injection Hthrow as <-. split; [by apply (validateOptions_errors o)|].
    left. by split.
Qed.

Lemma load_throws_two_classes_witness :
  let P := without_input (platform [] engine_identity []) in
  let o := options_of (Some "icons") (Some "svg") in
  exists e,
    fst (load P o initial_world) = Throw e
    /\ error_class e = SVGProcessingError
    /\ (originalError e ≫= fun cause => Some (error_class cause))
       = Some FileSystemError.
Proof.
  cbv zeta. eexists. split; [reflexivity|].
  destruct (load_throws_two_classes
              (without_input (platform [] engine_identity []))
              (options_of (Some "icons") (Some "svg")) initial_world _
              eq_refl) as [_ [[H _]|[_ (cause & Hcause)]]];
    [discriminate H|].
  split; reflexivity.
Defined.

End LoadErrors.

(** ** IconifyLoader.processSVGs in closed form *)

Section ProcessedItems.
Import JsString Generator Scenario.
Import IconifyLoader.

Lemma process_file_processed P this file w :
  valid_file file ->
  exists w',
    process_file P this file w = (Ok (processed P (options this) file), w')
    /\ fs_trace w' = fs_trace w
    /\ engine_calls w'
       = engine_calls w
         ++ (if flag (optimize (options this)) then [file_content file]
             else []).
Proof.
  intros Hvalid. unfold process_file, optimize_file, processed.
  rewrite try_catch_run, bind_run, lift_run, Hvalid, bind_run.
  destruct (flag (optimize (options this)));
    [|exists w; by rewrite app_nil_r].
  rewrite try_catch_run, bind_run, optimizeSVG_run.
  destruct (svgo_optimize P (file_content file) _) as [data err|e].
  - destruct (nonempty err); rewrite ?bind_run, ?when_run;
      destruct (flag (verbose (options this))); by eexists.
  - destruct (instanceof e SVGProcessingError); rewrite ?bind_run, ?when_run;
      destruct (flag (verbose (options this))); by eexists.
Qed.

Lemma processSVGs_from_processed P this files items w :
  Forall valid_file files ->
  exists w',
    processSVGs_from P this files items w
    = (Ok (items ++ map (processed P (options this)) files), w')
    /\ fs_trace w' = fs_trace w
    /\ engine_calls w'
       = engine_calls w
         ++ (if flag (optimize (options this)) then map file_content files
             else []).
Proof.
  intros Hall. revert items w.
  induction Hall as [|file files Hfile _ IH]; intros items w.
  - exists w. cbn [processSVGs_from map]. rewrite app_nil_r.
    split; [done|]. split; [done|].
    destruct (flag _); cbn [map]; by rewrite app_nil_r.
  - cbn [processSVGs_from]. rewrite bind_run.
    destruct (process_file_processed P this file w Hfile)
      as (w1 & -> & Hfs1 & He1).
    destruct (IH (items ++ [processed P (options this) file]) w1)
      as (w' & -> & Hfs & He).
    exists w'. cbn [map]. rewrite <- app_assoc. split; [done|].
    split; [congruence|]. rewrite He, He1.
    destruct (flag _); cbn [map]; by rewrite <- app_assoc.
Qed.

(** X28. On files that all pass the content check, [processSVGs] returns
    one item per file, in the order of the files, each with the metadata
    of its file: the item has the engine's [data] and [optimized] true
    when [optimize] is set and the engine returns for the file without
    an error, and the file's own content with [optimized] false in every
    other case. With [optimize] set the engine is called once per file,
    in order; nothing is written. *)
Theorem processSVGs_closed_form
  (P : Platform) (this : Loader) (files : list FileInfo) (w : World) :
  Forall valid_file files ->
  fst (processSVGs P this files w)
  = Ok (map (processed P (options this)) files)
  /\ Forall2 (fun file item => metadata item = metadata_of file) files
       (map (processed P (options this)) files)
  /\ fs_trace (snd (processSVGs P this files w)) = fs_trace w
  /\ engine_calls (snd (processSVGs P this files w))
     = engine_calls w
       ++ (if flag (optimize (options this)) then map file_content files
           else []).
Proof.
  intros Hall. unfold processSVGs.
  destruct (processSVGs_from_processed P this files [] w Hall)
    as (w' & -> & Hfs & He).
  cbn [fst snd app]. split; [done|]. split; [|by split].
  clear. induction files as [|file files IH]; [constructor|].
  cbn [map]. constructor; [|exact IH]. unfold processed.
  destruct (flag _); [|done].
  destruct (svgo_optimize P _ _) as [data err|e]; [|done].
  by destruct (nonempty err).
Qed.

Lemma processSVGs_closed_form_witness :
  let P := platform [] engine_shorter [] in
  let this := {| options := with_optimize true
                              (options_of (Some "icons") (Some "svg")) |} in
  Forall valid_file [arrow_file; file_of "dot" "<svg/>"]
  /\ fst (processSVGs P this [arrow_file; file_of "dot" "<svg/>"]
            initial_world)
     = Ok [ optimized_item arrow_file
              (take (String.length arrow_content - 1) arrow_content);
            optimized_item (file_of "dot" "<svg/>") "<svg/" ]
  /\ engine_calls (snd (processSVGs P this [arrow_file; file_of "dot" "<svg/>"]
                          initial_world))
     = [arrow_content; "<svg/>"].
Proof.
  cbv zeta.
  assert (Hall : Forall valid_file [arrow_file; file_of "dot" "<svg/>"])
    by (by repeat constructor).
  destruct (processSVGs_closed_form (platform [] engine_shorter [])
              {| options := with_optimize true
                              (options_of (Some "icons") (Some "svg")) |}
              [arrow_file; file_of "dot" "<svg/>"] initial_world Hall)
    as (Hfst & _ & _ & Heng).
  split; [exact Hall|]. split; [exact Hfst|exact Heng].
Defined.

End ProcessedItems.

(** ** The generators on a file system that does not fail *)

Section ReliableWrites.
Import JsString Generator Scenario.

(** A step that writes one file, on a reliable file system. *)
Ltac reliable_step Hreliable :=
  rewrite try_catch_run, !bind_run, fs_call_run, Hreliable;
  rewrite ?bind_run, ?when_run;
  match goal with
  | o : IconifyLoaderOptions |- _ => destruct (flag (verbose o))
  end;
  by eexists.

Lemma react_each_reliable P o svgs r w :
  reliable P ->
  exists w',
    ReactGenerator.generate_each P o svgs r w
    = (Ok (push_files (map (react_item_path P o) svgs) r), w').
Proof.
  intros Hreliable. revert r w.
  induction svgs as [|svg svgs IH]; intros r w.
  - exists w. cbn. unfold push_files. rewrite app_nil_r. by destruct r.
  - cbn [ReactGenerator.generate_each]. rewrite bind_run.
    assert (Hitem : exists w1,
               ReactGenerator.generate_item P o svg r w
               = (Ok (push_file (react_item_path P o svg) r), w1)).
    { unfold ReactGenerator.generate_item,
        ReactGenerator.generateComponentFile.
      fold (react_item_path P o svg). reliable_step Hreliable. }
    destruct Hitem as (w1 & ->).
    destruct (IH (push_file (react_item_path P o svg) r) w1) as (w' & ->).
    exists w'. unfold push_file, push_files. cbn. by rewrite <- app_assoc.
Qed.

Lemma svg_each_reliable P o svgs r w :
  reliable P ->
  exists w',
    SVGGenerator.generate_each P o svgs r w
    = (Ok (push_files (map (svg_item_path P o) svgs) r), w').
Proof.
  intros Hreliable. revert r w.
  induction svgs as [|svg svgs IH]; intros r w.
  - exists w. cbn. unfold push_files. rewrite app_nil_r. by destruct r.
  - cbn [SVGGenerator.generate_each]. rewrite bind_run.
    assert (Hitem : exists w1,
               SVGGenerator.generate_item P o svg r w
               = (Ok (push_file (svg_item_path P o svg) r), w1)).
    { unfold SVGGenerator.generate_item, SVGGenerator.generateSVGFile.
      fold (svg_item_path P o svg). reliable_step Hreliable. }
    destruct Hitem as (w1 & ->).
    destruct (IH (push_file (svg_item_path P o svg) r) w1) as (w' & ->).
    exists w'. unfold push_file, push_files. cbn. by rewrite <- app_assoc.
Qed.

Lemma json_each_reliable P o svgs fs w :
  reliable P ->
  exists w',
    JSONGenerator.generateIndividualJSONFiles_from P o svgs fs w
    = (Ok (fs ++ map (json_item_path P o) svgs), w').
Proof.
  intros Hreliable. revert fs w.
  induction svgs as [|svg svgs IH]; intros fs w.
  - exists w. cbn. by rewrite app_nil_r.
  - cbn [JSONGenerator.generateIndividualJSONFiles_from]. rewrite bind_run.
    assert (Hitem : exists w1,
               JSONGenerator.generate_individual_item P o svg fs w
               = (Ok (fs ++ [json_item_path P o svg]), w1)).
    { unfold JSONGenerator.generate_individual_item.
      fold (json_item_path P o svg).
      rewrite try_catch_run, !bind_run, fs_call_run, Hreliable. by eexists. }
    destruct Hitem as (w1 & ->).
    destruct (IH (fs ++ [json_item_path P o svg]) w1) as (w' & ->).
    exists w'. cbn [map]. by rewrite <- app_assoc.
Qed.

Lemma ensure_output_reliable P o w :
  reliable P -> exists w', ensure_output P o w = (Ok (), w').
Proof.
  intros Hreliable. unfold ensure_output, ensureOutputDirectory.
  destruct (nonempty (outputDir o)); [|by exists w].
  rewrite try_catch_run, fs_call_run, Hreliable. by eexists.
Qed.

(** X29. On a file system on which no call fails, every generator
    succeeds with no error and lists one file per icon, in the order of
    the icons: the React and the SVG generator the files of the icons
    and then the index when [generateIndex] is set, the JSON generator
    the main file and then, when [generateIndex] is set, the files of
    the icons. *)
Theorem reliable_writes_list_every_icon
  (P : Platform) (svgs : list ProcessedSVG) (o : IconifyLoaderOptions)
  (w : World) :
  reliable P ->
  fst (ReactGenerator.generateComponents P svgs o w)
  = Ok (all_written (map (react_item_path P o) svgs ++ index_paths P o))
  /\ fst (SVGGenerator.generateSVGs P svgs o w)
     = Ok (all_written (map (svg_item_path P o) svgs ++ index_paths P o))
  /\ fst (JSONGenerator.generateJSON P svgs o w)
     = Ok (all_written
             (json_main_path P o
              :: (if flag (generateIndex o)
                  then map (json_item_path P o) svgs else []))).
Proof.
  intros Hreliable. split; [|split].
  - unfold ReactGenerator.generateComponents.
    rewrite try_catch_run, bind_run.
    destruct (ensure_output_reliable P o w Hreliable) as (w0 & ->).
    rewrite bind_run.
    destruct (react_each_reliable P o svgs empty_result w0 Hreliable)
      as (w1 & ->).
    rewrite bind_run. unfold ReactGenerator.generate_index, index_paths.
    destruct (flag (generateIndex o)); [|cbn; by rewrite app_nil_r].
    assert (Hindex : exists w2,
               try_catch
                 (indexFile ← ReactGenerator.generateIndexFile P svgs o;
                  _ ← when (flag (verbose o))
                        (console_call
                           (ConsoleLog ("Generated index file: " +:+ indexFile)));
                  mret (push_file indexFile
                          (push_files (map (react_item_path P o) svgs)
                             empty_result)))
                 (fun error =>
                    mret (push_error ("Failed to generate index file: "
                                      +:+ message_of error)
                            (push_files (map (react_item_path P o) svgs)
                               empty_result))) w1
               = (Ok (push_file (index_path P o)
                        (push_files (map (react_item_path P o) svgs)
                           empty_result)), w2)).
    { unfold ReactGenerator.generateIndexFile. fold (index_path P o).
      reliable_step Hreliable. }
    destruct Hindex as (w2 & ->). reflexivity.
  - unfold SVGGenerator.generateSVGs.
    rewrite try_catch_run, bind_run.
    destruct (ensure_output_reliable P o w Hreliable) as (w0 & ->).
    rewrite bind_run.
    destruct (svg_each_reliable P o svgs empty_result w0 Hreliable)
      as (w1 & ->).
    rewrite bind_run. unfold SVGGenerator.generate_index, index_paths.
    destruct (flag (generateIndex o)); [|cbn; by rewrite app_nil_r].
    assert (Hindex : exists w2,
               try_catch
                 (indexFile ← SVGGenerator.generateIndexFile P svgs o;
                  _ ← when (flag (verbose o))
                        (console_call
                           (ConsoleLog ("Generated SVG index file: "
                                        +:+ indexFile)));
                  mret (push_file indexFile
                          (push_files (map (svg_item_path P o) svgs)
                             empty_result)))
                 (fun error =>
                    mret (push_error ("Failed to generate SVG index file: "
                                      +:+ message_of error)
                            (push_files (map (svg_item_path P o) svgs)
                               empty_result))) w1
               = (Ok (push_file (index_path P o)
                        (push_files (map (svg_item_path P o) svgs)
                           empty_result)), w2)).
    { unfold SVGGenerator.generateIndexFile. fold (index_path P o).
      reliable_step Hreliable. }
    destruct Hindex as (w2 & ->). reflexivity.
  - unfold JSONGenerator.generateJSON.
    rewrite try_catch_run, bind_run.
    destruct (ensure_output_reliable P o w Hreliable) as (w0 & ->).
    rewrite bind_run.
    assert (Hmain : exists w1,
               JSONGenerator.generate_main P o svgs empty_result w0
               = (Ok (push_file (json_main_path P o) empty_result), w1)).
    { unfold JSONGenerator.generate_main, JSONGenerator.generateJSONFile.
      fold (json_main_path P o). reliable_step Hreliable. }
    destruct Hmain as (w1 & ->). rewrite bind_run.
    unfold JSONGenerator.generate_individual,
      JSONGenerator.generateIndividualJSONFiles.
    destruct (flag (generateIndex o)); [|reflexivity].
    rewrite try_catch_run, bind_run.
    destruct (json_each_reliable P o svgs [] w1 Hreliable) as (w2 & ->).
    rewrite bind_run, when_run. by destruct (flag (verbose o)).
Qed.

Lemma reliable_writes_list_every_icon_witness :
  let P := platform [] engine_identity [] in
  let o := with_index true (options_of (Some "icons") (Some "json")) in
  reliable P
  /\ fst (JSONGenerator.generateJSON P two_icons o initial_world)
     = Ok {| success := true;
             files := ["./icons.json"; "./a.json"; "./b.json"];
             errors := []; warnings := [] |}
  /\ fst (ReactGenerator.generateComponents P two_icons o initial_world)
     = Ok {| success := true;
             files := ["./A.jsx"; "./B.jsx"; "./index.js"];
             errors := []; warnings := [] |}.
Proof.
  cbv zeta.
  assert (Hreliable : reliable (platform [] engine_identity []))
    by (by intros trace []).
  destruct (reliable_writes_list_every_icon
              (platform [] engine_identity []) two_icons
              (with_index true (options_of (Some "icons") (Some "json")))
              initial_world Hreliable) as (Hreact & _ & Hjson).
  split; [exact Hreliable|]. split; [exact Hjson|exact Hreact].
Defined.

End ReliableWrites.

(** ** SVGGenerator.formatSVGContent: the layout *)

Section Layout.
Import JsString Generator SVGGenerator Spec.

Lemma string_length_ind (Q : string -> Prop) :
  (forall s, (forall t, String.length t < String.length s -> Q t) -> Q s) ->
  forall s, Q s.
Proof.
  intros H s.
  assert (Hn : forall n t, String.length t < n -> Q t).
  { induction n as [|n IH]; intros t Ht; [lia|].
    apply H. intros u Hu. apply IH. lia. }
  apply (Hn (S (String.length s))). lia.
Qed.

Lemma replace_skip m k s :
  replace_all_from m k s = replace_all_from m 0 (drop k s).
Proof.
  revert s. induction k as [|k IH]; intros s; [done|].
  destruct s as [|c s]; [done|]. cbn [replace_all_from drop]. apply IH.
Qed.

Lemma replace_match r (m : string -> option nat) c s n :
  m (String c s) = Some n ->
  replace_all_from (replacing r m) 0 (String c s)
  = r +:+ replace_all_from (replacing r m) 0 (drop (Nat.pred n) s).
Proof.
  intros H. cbn [replace_all_from]. unfold replacing at 1. rewrite H.
  cbn [fmap option_fmap option_map]. by rewrite replace_skip.
Qed.

Lemma replace_no_match r (m : string -> option nat) c s :
  m (String c s) = None ->
  replace_all_from (replacing r m) 0 (String c s)
  = String c (replace_all_from (replacing r m) 0 s).
Proof.
  intros H. cbn [replace_all_from]. unfold replacing at 1. by rewrite H.
Qed.

Lemma length_drop k s : String.length (drop k s) <= String.length s.
Proof.
  revert s. induction k as [|k IH]; intros [|c s]; simpl; try lia.
  specialize (IH s). lia.
Qed.

Lemma span_drop p s :
  snd (span p s) = drop (String.length (fst (span p s))) s.
Proof.
  induction s as [|c s IH]; [done|]. simpl. destruct (p c); [|done].
  destruct (span p s). exact IH.
Qed.

(** *** The output is laid out *)

Lemma collapse_single_spaces s :
  forall p,
    (is_space p = true -> first_char is_space s = false) ->
    single_spaces p (replace_all_from (replacing " " re_spaces) 0 s) = true.
Proof.
  induction s as [s IH] using string_length_ind. intros p Hp.
  destruct s as [|c s]; [done|].
  destruct (is_space c) eqn:Hc.
  - assert (Hnp : is_space p = false).
    { destruct (is_space p); [|done]. specialize (Hp eq_refl). cbn in Hp. congruence. }
    assert (Hm : re_spaces (String c s)
                 = Some (S (String.length (fst (span is_space s))))).
    { unfold re_spaces. simpl. rewrite Hc. by destruct (span is_space s). }
    rewrite (replace_match _ _ _ _ _ Hm). cbn [Nat.pred].
    rewrite append_cons, append_nil_l. cbn [single_spaces].
    rewrite Hnp. cbn.
    apply IH.
    + pose proof (length_drop (String.length (fst (span is_space s))) s).
      simpl. lia.
    + intros _. rewrite <- span_drop. apply span_rest_first.
  - assert (Hm : re_spaces (String c s) = None).
    { unfold re_spaces. simpl. by rewrite Hc. }
    rewrite (replace_no_match _ _ _ _ Hm). cbn [single_spaces]. rewrite Hc.
    cbn. apply IH; [simpl; lia|]. congruence.
Qed.

Lemma gap_shape s n :
  re_gt_spaces_lt (String ">" s) = Some n ->
  exists w rest,
    s = w +:+ String "<" rest /\ w <> ""
    /\ n = String.length w + 2
    /\ drop (Nat.pred n) s = rest.
Proof.
  unfold re_gt_spaces_lt.
  pose proof (span_drop is_space s) as Hdrop.
  assert (Hsplit : s = fst (span is_space s) +:+ snd (span is_space s)).
  { clear. induction s as [|c s IH]; [done|]. simpl.
    destruct (is_space c); [|done]. destruct (span is_space s) as [a b].
    simpl in *. by rewrite append_cons, <- IH. }
  destruct (span is_space s) as [w rest]. cbn [fst snd] in *.
  destruct w as [|a w]; [done|]. destruct rest as [|b rest]; [done|].
  destruct (Ascii.eqb_spec b "<") as [->|Hne];
    [|by destruct b as [[] [] [] [] [] [] [] []]].
  intros [= <-]. exists (String a w), rest. split; [done|]. split; [done|].
  split; [done|].
  rewrite Hsplit at 1. cbn [Nat.pred String.length Nat.add].
  replace (String.length w + 2) with (String.length (String a w) + 1)
    by (simpl; lia).
  rewrite drop_add, drop_append. done.
Qed.

Lemma gap_only_at_gt c s : c <> ">"%char -> re_gt_spaces_lt (String c s) = None.
Proof.
  intros Hc. unfold re_gt_spaces_lt.
  destruct c as [[] [] [] [] [] [] [] []]; done.
Qed.

Lemma single_spaces_after w d rest p :
  single_spaces p (w +:+ String d rest) = true -> single_spaces d rest = true.
Proof.
  revert p. induction w as [|a w IH]; intros p H.
  - rewrite append_nil_l in H. cbn [single_spaces] in H.
    by apply andb_true_iff in H as [_ H].
  - rewrite append_cons in H. cbn [single_spaces] in H.
    apply andb_true_iff in H as [_ H]. by apply (IH a).
Qed.

Lemma first_char_replace_gap q s :
  first_char q (replace_all_from (replacing "><" re_gt_spaces_lt) 0 s)
  = first_char q s.
Proof.
  destruct s as [|c s]; [done|].
  destruct (re_gt_spaces_lt (String c s)) as [n|] eqn:Hm.
  - rewrite (replace_match _ _ _ _ _ Hm).
    destruct (Ascii.eqb_spec c ">") as [->|Hne]; [done|].
    by rewrite gap_only_at_gt in Hm.
  - by rewrite (replace_no_match _ _ _ _ Hm).
Qed.

Lemma close_gaps s :
  forall p,
    single_spaces p s = true ->
    re_gt_spaces_lt (String p s) = None ->
    single_spaces p (replace_all_from (replacing "><" re_gt_spaces_lt) 0 s)
    = true
    /\ no_gap p (replace_all_from (replacing "><" re_gt_spaces_lt) 0 s)
       = true.
Proof.
  induction s as [s IH] using string_length_ind. intros p Hs Hp.
  destruct s as [|c s]; [done|].
  pose proof Hs as Hs'. cbn [single_spaces] in Hs'.
  apply andb_true_iff in Hs' as [Hc Hrest].
  destruct (re_gt_spaces_lt (String c s)) as [n|] eqn:Hm.
  - assert (c = ">"%char) as ->.
    { destruct (Ascii.eqb_spec c ">"); [done|]. by rewrite gap_only_at_gt in Hm. }
    destruct (gap_shape s n Hm) as (w & rest & Hshape & Hw & Hn & Hdrop).
    rewrite (replace_match _ _ _ _ _ Hm), Hdrop.
    rewrite !append_cons, append_nil_l.
    cbn [single_spaces no_gap is_space]. cbn.
    apply IH.
    + rewrite Hshape. cbn [String.length]. rewrite length_append. simpl. lia.
    + rewrite Hshape in Hrest. by apply single_spaces_after in Hrest.
    + by apply gap_only_at_gt.
  - rewrite (replace_no_match _ _ _ _ Hm). cbn [single_spaces no_gap].
    destruct (IH s ltac:(simpl; lia) c Hrest Hm) as [H1 H2].
    rewrite H1, H2, Hc, first_char_replace_gap. cbn. rewrite !andb_true_r.
    split; [done|]. apply negb_true_iff.
    destruct (is_space c) eqn:Hsp; [|done].
    destruct (is_gt p) eqn:Hgt; [|done].
    destruct (first_char is_lt s) eqn:Hlt; [|done]. exfalso.
    apply andb_true_iff in Hc as [Hblank _].
    apply Ascii.eqb_eq in Hblank. subst c.
    assert (p = ">"%char) as -> by (by apply Ascii.eqb_eq).
    destruct s as [|d s]; [done|]. cbn in Hlt.
    assert (d = "<"%char) as -> by (by apply Ascii.eqb_eq).
    done.
Qed.

Lemma first_char_break_tags q s :
  first_char q
    (replace_all_from (replacing (">" +:+ nl +:+ "<") re_gt_lt) 0 s)
  = first_char q s.
Proof.
  destruct s as [|c s]; [done|].
  destruct (re_gt_lt (String c s)) as [n|] eqn:Hm.
  - rewrite (replace_match _ _ _ _ _ Hm).
    destruct (Ascii.eqb_spec c ">") as [->|Hne]; [done|].
    unfold re_gt_lt in Hm. by destruct c as [[] [] [] [] [] [] [] []].
  - by rewrite (replace_no_match _ _ _ _ Hm).
Qed.

Lemma tags_shape c s n :
  re_gt_lt (String c s) = Some n ->
  c = ">"%char /\ exists rest, s = String "<" rest /\ n = 2.
Proof.
  unfold re_gt_lt.
  destruct (Ascii.eqb_spec c ">") as [->|Hne];
    [|by destruct c as [[] [] [] [] [] [] [] []]].
  destruct s as [|d s]; [done|].
  destruct (Ascii.eqb_spec d "<") as [->|Hne];
    [|by destruct d as [[] [] [] [] [] [] [] []]].
  intros [= <-]. split; [done|]. by exists s.
Qed.

Lemma tags_None c s :
  re_gt_lt (String c s) = None -> is_gt c && first_char is_lt s = false.
Proof.
  unfold re_gt_lt.
  destruct (Ascii.eqb_spec c ">") as [->|Hne];
    [|intros _; by destruct c as [[] [] [] [] [] [] [] []]].
  destruct s as [|d s]; [done|].
  destruct (Ascii.eqb_spec d "<") as [->|Hne]; [done|].
  intros _. by destruct d as [[] [] [] [] [] [] [] []].
Qed.

Lemma lines_from_break p rest :
  lines_from "<" rest = true ->
  lines_from p (String ">" (String (ascii_of_N 10) (String "<" rest))) = true.
Proof.
  intros H. cbn [lines_from first_char]. rewrite H.
  destruct (is_gt p); vm_compute; reflexivity.
Qed.

Lemma break_tags s :
  forall p,
    single_spaces p s = true -> no_gap p s = true ->
    is_gt p && first_char is_lt s = false ->
    lines_from p
      (replace_all_from (replacing (">" +:+ nl +:+ "<") re_gt_lt) 0 s)
    = true.
Proof.
  induction s as [s IH] using string_length_ind. intros p Hs Hg Hp.
  destruct s as [|c s]; [done|].
  cbn [single_spaces] in Hs. apply andb_true_iff in Hs as [Hc Hs].
  cbn [no_gap] in Hg. apply andb_true_iff in Hg as [Hgc Hg].
  destruct (re_gt_lt (String c s)) as [n|] eqn:Hm.
  - destruct (tags_shape c s n Hm) as (-> & rest & -> & ->).
    rewrite (replace_match _ _ _ _ _ Hm). cbn [Nat.pred drop].
    change (">" +:+ nl +:+ "<") with (String ">" (String (ascii_of_N 10) "<")).
    rewrite !append_cons, append_nil_l.
    cbn [single_spaces] in Hs. apply andb_true_iff in Hs as [_ Hs].
    cbn [no_gap] in Hg. apply andb_true_iff in Hg as [_ Hg].
    apply lines_from_break. apply IH; [simpl; lia|done|done|done].
  - rewrite (replace_no_match _ _ _ _ Hm). cbn [lines_from].
    rewrite first_char_break_tags.
    rewrite (IH s ltac:(simpl; lia) c Hs Hg (tags_None c s Hm)), andb_true_r.
    destruct (is_space c) eqn:Hsp.
    + apply orb_true_iff. left. rewrite Hc. cbn [andb] in *. exact Hgc.
    + apply negb_true_iff. cbn in Hp. exact Hp.
Qed.


Lemma newline_char c : is_newline c = true -> c = ascii_of_N 10.
Proof.
  unfold is_newline, code. intros H%N.eqb_eq.
  by rewrite <- (ascii_N_embedding c), H.
Qed.

Lemma nonspace_not_newline c : is_space c = false -> is_newline c = false.
Proof.
  intros H. destruct (is_newline c) eqn:E; [|done].
  apply newline_char in E. subst c. done.
Qed.

Lemma lt_char c : is_lt c = true -> c = "<"%char.
Proof. apply Ascii.eqb_eq. Qed.

Lemma gt_char c : is_gt c = true -> c = ">"%char.
Proof. apply Ascii.eqb_eq. Qed.

Lemma first_lt_shape s :
  first_char is_lt s = true -> exists rest, s = String "<" rest.
Proof.
  destruct s as [|c s]; [done|]. intros ->%lt_char. by exists s.
Qed.

(** What [lines_from] says of the first character. *)
Lemma lines_from_head p c s :
  lines_from p (String c s) = true ->
  lines_from c s = true
  /\ ((is_space c = false /\ is_gt p && is_lt c = false)
      \/ (c = " "%char /\ is_space p = false
          /\ is_gt p && first_char is_lt s = false)
      \/ (c = ascii_of_N 10 /\ p = ">"%char
          /\ exists rest, s = String "<" rest)).
Proof.
  cbn [lines_from]. intros [Hc Hs]%andb_true_iff. split; [done|].
  destruct (is_space c) eqn:Hsp.
  - apply orb_true_iff in Hc as [Hc|Hc].
    + apply andb_true_iff in Hc as [[Hb Hp]%andb_true_iff Hg].
      right. left. apply Ascii.eqb_eq in Hb.
      by apply negb_true_iff in Hp, Hg.
    + apply andb_true_iff in Hc as [[Hn Hp]%andb_true_iff Hl].
      right. right. split; [by apply newline_char|].
      split; [by apply gt_char|]. by apply first_lt_shape.
  - left. split; [done|]. by apply negb_true_iff.
Qed.

Lemma lines_after_space c s :
  is_space c = true -> lines_from c s = true -> first_char is_space s = false.
Proof.
  intros Hc H. destruct s as [|d s]; [done|].
  apply lines_from_head in H as [_ [[H _]|[(_ & H & _)|(_ & -> & _)]]].
  - exact H.
  - congruence.
  - done.
Qed.

Lemma lines_no_newline p s :
  is_gt p = false -> lines_from p s = true -> first_char is_newline s = false.
Proof.
  intros Hp H. destruct s as [|d s]; [done|].
  apply lines_from_head in H as [_ [[H _]|[(-> & _)|(_ & -> & _)]]].
  - by apply nonspace_not_newline.
  - done.
  - done.
Qed.

Lemma nonspace_no_newline s :
  first_char is_space s = false -> first_char is_newline s = false.
Proof. destruct s as [|c s]; [done|]. apply nonspace_not_newline. Qed.

Lemma blank_lines_none s :
  forall p i, lines_from p s = true -> re_blank_lines (drop i s) = None.
Proof.
  induction s as [|c s IH]; intros p i H; [by destruct i|].
  apply lines_from_head in H as [Hs Hc]. destruct i as [|i]; [|by apply (IH c)].
  cbn [drop re_blank_lines].
  destruct Hc as [[Hc _]|[(-> & _)|(-> & _ & rest & ->)]].
  - by rewrite (nonspace_not_newline c Hc).
  - done.
  - done.
Qed.

Lemma span_none t :
  first_char is_space t = false -> span is_space t = ("", t).
Proof. destruct t as [|e t]; [done|]. simpl. by intros ->. Qed.

Lemma span_one b t :
  is_space b = true -> first_char is_space t = false ->
  span is_space (String b t) = (String b "", t).
Proof. intros Hb Ht. cbn [span]. by rewrite Hb, (span_none t Ht). Qed.

Lemma lines_from_skip s :
  forall p, lines_from p s = true -> lines_from "x" (skip_spaces s) = true.
Proof.
  induction s as [|c s IH]; intros p H; [done|].
  pose proof H as [Hs _]%lines_from_head.
  destruct (is_space c) eqn:Hc.
  - replace (skip_spaces (String c s)) with (skip_spaces s);
      [by apply (IH c)|].
    unfold skip_spaces. cbn [span]. rewrite Hc. by destruct (span is_space s).
  - replace (skip_spaces (String c s)) with (String c s).
    + cbn [lines_from]. rewrite Hc, Hs. done.
    + unfold skip_spaces. cbn [span]. by rewrite Hc.
Qed.

Lemma trimEnd_first q s :
  trimEnd s <> "" -> first_char q (trimEnd s) = first_char q s.
Proof.
  destruct s as [|c s]; [done|]. cbn [trimEnd].
  destruct (trimEnd s); [|done]. by destruct (is_space c).
Qed.

Lemma lines_from_trimEnd s :
  forall p, lines_from p s = true -> lines_from p (trimEnd s) = true.
Proof.
  induction s as [|c s IH]; intros p H; [done|].
  pose proof H as [Hs _]%lines_from_head.
  cbn [lines_from] in H. apply andb_true_iff in H as [Hc _].
  specialize (IH c Hs). cbn [trimEnd].
  pose proof (trimEnd_first is_lt s) as Hfirst.
  destruct (trimEnd s) as [|e r].
  - destruct (is_space c) eqn:Hsp; [done|]. cbn [lines_from].
    by rewrite Hsp, Hc.
  - cbn [lines_from]. rewrite Hfirst by done.
    cbn [lines_from] in IH. by rewrite Hc, IH.
Qed.

Lemma trimEnd_no_final_space s : ends_with_space (trimEnd s) = false.
Proof.
  induction s as [|c s IH]; [done|]. cbn [trimEnd].
  destruct (trimEnd s) as [|e r].
  - by destruct (is_space c) eqn:Hc.
  - exact IH.
Qed.

Lemma trimEnd_fixed s : ends_with_space s = false -> trimEnd s = s.
Proof.
  induction s as [|c s IH]; [done|]. destruct s as [|d s].
  - cbn. by intros ->.
  - intros H. change (trimEnd (String c (String d s)))
      with (match trimEnd (String d s) with
            | "" => if is_space c then "" else String c ""
            | r => String c r
            end).
    by rewrite (IH H).
Qed.

Lemma trim_first_nonspace s : first_char is_space (trim s) = false.
Proof.
  unfold trim, trimStart.
  pose proof (span_rest_first is_space s) as H. fold (skip_spaces s) in H.
  destruct (String.eqb_spec (trimEnd (skip_spaces s)) "") as [->|Hne];
    [done|].
  by rewrite trimEnd_first.
Qed.

(** Whatever the text, the result is laid out. *)
Lemma formatSVGContent_laid_out c : laid_out (formatSVGContent c) = true.
Proof.
  unfold formatSVGContent, replace_all. cbv zeta.
  pose proof (collapse_single_spaces c "x" ltac:(done)) as H1.
  destruct (close_gaps _ "x" H1 ltac:(done)) as [H2 H2'].
  pose proof (break_tags _ "x" H2 H2' ltac:(done)) as H3.
  fold (replace_all (replacing nl re_blank_lines)
          (replace_all_from (replacing (">" +:+ nl +:+ "<") re_gt_lt) 0
             (replace_all_from (replacing "><" re_gt_spaces_lt) 0
                (replace_all_from (replacing " " re_spaces) 0 c)))).
  rewrite replace_all_id by (intros i; by apply (blank_lines_none _ "x")).
  unfold laid_out. rewrite trim_first_nonspace.
  unfold trim, trimStart.
  rewrite trimEnd_no_final_space, lines_from_trimEnd;
    [done|by apply (lines_from_skip _ "x")].
Qed.

(** *** A laid out text is left as it is *)

Lemma blanked_cons c s :
  blanked (String c s)
  = String (if is_space c then " "%char else c) (blanked s).
Proof. done. Qed.

Lemma first_space_blanked t :
  first_char is_space (blanked t) = first_char is_space t.
Proof.
  destruct t as [|e t]; [done|]. rewrite blanked_cons. cbn [first_char].
  by destruct (is_space e) eqn:He.
Qed.

Lemma first_char_blanked q t :
  first_char is_space t = false -> first_char q (blanked t) = first_char q t.
Proof.
  destruct t as [|e t]; [done|]. rewrite blanked_cons. cbn [first_char].
  by intros ->.
Qed.

Lemma collapse_laid_out s :
  forall p, lines_from p s = true ->
    replace_all_from (replacing " " re_spaces) 0 s = blanked s.
Proof.
  induction s as [|c s IH]; intros p H; [done|].
  pose proof H as [Hs _]%lines_from_head. rewrite blanked_cons.
  destruct (is_space c) eqn:Hc.
  - pose proof (lines_after_space c s Hc Hs) as Hnext.
    assert (Hm : re_spaces (String c s) = Some 1).
    { unfold re_spaces. by rewrite (span_one c s Hc Hnext). }
    rewrite (replace_match _ _ _ _ _ Hm). cbn [Nat.pred drop].
    rewrite append_cons, append_nil_l. f_equal. by apply (IH c).
  - assert (Hm : re_spaces (String c s) = None).
    { unfold re_spaces. cbn [span]. by rewrite Hc. }
    rewrite (replace_no_match _ _ _ _ Hm). f_equal. by apply (IH c).
Qed.

Lemma gap_nonspace t :
  first_char is_space t = false -> re_gt_spaces_lt (String ">" t) = None.
Proof. intros H. unfold re_gt_spaces_lt. by rewrite (span_none t H). Qed.

Lemma gap_one b t :
  is_space b = true -> first_char is_space t = false ->
  re_gt_spaces_lt (String ">" (String b t))
  = if first_char is_lt t then Some 3 else None.
Proof.
  intros Hb Ht. unfold re_gt_spaces_lt. rewrite (span_one b t Hb Ht).
  destruct t as [|e t]; [done|]. cbn [first_char].
  destruct (Ascii.eqb_spec e "<") as [->|Hne]; [done|].
  by destruct e as [[] [] [] [] [] [] [] []].
Qed.

Lemma close_laid_out s :
  forall p, lines_from p s = true -> first_char is_newline s = false ->
    replace_all_from (replacing "><" re_gt_spaces_lt) 0 (blanked s)
    = unbroken s.
Proof.
  induction s as [s IH] using string_length_ind. intros p H Hn.
  destruct s as [|c s]; [done|].
  apply lines_from_head in H as [Hs Hc].
  cbn [first_char] in Hn. rewrite blanked_cons. cbn [unbroken]. rewrite Hn.
  assert (Hkeep : (if is_space c then " "%char else c) = c).
  { destruct Hc as [[-> _]|[(-> & _)|(-> & _)]]; done. }
  rewrite Hkeep.
  destruct (Ascii.eqb_spec c ">") as [->|Hne].
  - destruct s as [|d s]; [done|].
    pose proof Hs as [Hs' Hd]%lines_from_head.
    destruct Hd as [[Hd _]|[(-> & _ & Hd)|(-> & _ & rest & ->)]].
    + assert (Hm : re_gt_spaces_lt (String ">" (blanked (String d s))) = None).
      { apply gap_nonspace. by rewrite first_space_blanked. }
      rewrite (replace_no_match _ _ _ _ Hm). f_equal.
      apply IH with (p := ">"%char); [simpl; lia|exact Hs|].
      by apply nonspace_not_newline.
    + pose proof (lines_after_space " " s eq_refl Hs') as Hnext.
      assert (Hm : re_gt_spaces_lt (String ">" (blanked (String " " s)))
                   = None).
      { rewrite blanked_cons.
        change (if is_space " " then " "%char else " "%char) with " "%char.
        rewrite gap_one; [|done|by rewrite first_space_blanked].
        change (is_gt ">") with true in Hd. cbn [andb] in Hd.
        by rewrite first_char_blanked, Hd. }
      rewrite (replace_no_match _ _ _ _ Hm). f_equal.
      apply IH with (p := ">"%char); [simpl; lia|exact Hs|done].
    + assert (Hm : re_gt_spaces_lt
                     (String ">" (blanked (String (ascii_of_N 10)
                                             (String "<" rest))))
                   = Some 3).
      { rewrite !blanked_cons.
        change (if is_space (ascii_of_N 10) then " "%char else ascii_of_N 10)
          with " "%char.
        change (if is_space "<" then " "%char else "<"%char) with "<"%char.
        by rewrite gap_one. }
      rewrite (replace_match _ _ _ _ _ Hm). rewrite !blanked_cons.
      cbn [Nat.pred drop unbroken].
      change (is_newline (ascii_of_N 10)) with true.
      change (is_newline "<") with false. cbv iota.
      rewrite !append_cons, append_nil_l. do 2 f_equal.
      pose proof Hs' as [Hrest _]%lines_from_head.
      apply IH with (p := "<"%char); [simpl; lia|exact Hrest|].
      by apply (lines_no_newline "<").
  - rewrite (replace_no_match _ _ _ _ (gap_only_at_gt c _ Hne)). f_equal.
    apply IH with (p := c); [simpl; lia|exact Hs|]. apply (lines_no_newline c); [|done].
    destruct (is_gt c) eqn:E; [|done]. by apply gt_char in E.
Qed.

Lemma first_char_unbroken q t :
  first_char is_newline t = false ->
  first_char q (unbroken t) = first_char q t.
Proof.
  destruct t as [|e t]; [done|]. cbn [first_char unbroken]. by intros ->.
Qed.

Lemma tags_iff c t :
  re_gt_lt (String c t)
  = if is_gt c && first_char is_lt t then Some 2 else None.
Proof.
  destruct (re_gt_lt (String c t)) as [n|] eqn:E.
  - by destruct (tags_shape c t n E) as (-> & rest & -> & ->).
  - by rewrite (tags_None c t E).
Qed.

Lemma break_laid_out s :
  forall p, lines_from p s = true -> first_char is_newline s = false ->
    replace_all_from (replacing (">" +:+ nl +:+ "<") re_gt_lt) 0 (unbroken s)
    = s.
Proof.
  induction s as [s IH] using string_length_ind. intros p H Hn.
  destruct s as [|c s]; [done|].
  apply lines_from_head in H as [Hs Hc].
  cbn [first_char] in Hn. cbn [unbroken]. rewrite Hn.
  destruct s as [|d s].
  { assert (Hm : re_gt_lt (String c (unbroken "")) = None).
    { rewrite tags_iff. cbn [unbroken first_char]. by rewrite andb_false_r. }
    by rewrite (replace_no_match _ _ _ _ Hm). }
  pose proof Hs as [Hs' Hd]%lines_from_head.
  destruct Hd as [[Hd Hpair]|[(-> & _ & Hd)|(-> & -> & rest & ->)]].
  - assert (Hm : re_gt_lt (String c (unbroken (String d s))) = None).
    { rewrite tags_iff, first_char_unbroken;
        [|by apply nonspace_not_newline].
      cbn [first_char]. by rewrite Hpair. }
    rewrite (replace_no_match _ _ _ _ Hm). f_equal.
    apply IH with (p := c); [simpl; lia|exact Hs|]. by apply nonspace_not_newline.
  - assert (Hm : re_gt_lt (String c (unbroken (String " " s))) = None).
    { rewrite tags_iff, first_char_unbroken by done.
      cbn [first_char]. change (is_lt " ") with false.
      by rewrite andb_false_r. }
    rewrite (replace_no_match _ _ _ _ Hm). f_equal.
    apply IH with (p := c); [simpl; lia|exact Hs|done].
  - cbn [unbroken]. change (is_newline (ascii_of_N 10)) with true.
    change (is_newline "<") with false. cbv iota.
    assert (Hm : re_gt_lt (String ">" (String "<" (unbroken rest))) = Some 2)
      by done.
    rewrite (replace_match _ _ _ _ _ Hm). cbn [Nat.pred drop].
    change (">" +:+ nl +:+ "<")
      with (String ">" (String (ascii_of_N 10) "<")).
    rewrite !append_cons, append_nil_l. do 3 f_equal.
    pose proof Hs' as [Hrest _]%lines_from_head.
    apply IH with (p := "<"%char); [simpl; lia|exact Hrest|].
    by apply (lines_no_newline "<").
Qed.

Lemma formatSVGContent_fixed s :
  laid_out s = true -> formatSVGContent s = s.
Proof.
  unfold laid_out.
  intros [[Hfirst%negb_true_iff Hlines]%andb_true_iff Hlast%negb_true_iff]
    %andb_true_iff.
  pose proof (nonspace_no_newline s Hfirst) as Hn.
  pose proof (replace_all_id nl re_blank_lines s
                (fun i => blank_lines_none s "x" i Hlines)) as Hstay.
  unfold formatSVGContent, replace_all in *. cbv zeta.
  rewrite (collapse_laid_out s "x" Hlines), (close_laid_out s "x" Hlines Hn),
    (break_laid_out s "x" Hlines Hn), Hstay.
  unfold trim, trimStart, skip_spaces. rewrite (span_none s Hfirst).
  by apply trimEnd_fixed.
Qed.

(** X30. [formatSVGContent] applied to its own result changes nothing,
    and the texts it leaves as they are are exactly the laid out ones:
    no whitespace at either end; every whitespace character either a
    space that follows a character that is not whitespace and does not
    stand between a [>] and a [<], or a line feed between a [>] and a
    [<]; and no [<] at once after a [>]. *)
Theorem formatting_twice_changes_nothing (content : string) :
  formatSVGContent (formatSVGContent content) = formatSVGContent content
  /\ (formatSVGContent content = content <-> laid_out content = true).
Proof.
  split.
  - apply formatSVGContent_fixed, formatSVGContent_laid_out.
  - split.
    + intros <-. apply formatSVGContent_laid_out.
    + apply formatSVGContent_fixed.
Qed.

End Layout.
